(** * Potjans_2014/network.py: parameter derivation and staged construction

    A shallow embedding of the [Network] class of the cortical
    microcircuit model.  Python floats are idealised as exact rationals
    ([Q]); integer arrays are lists of [Z]; numpy arrays are lists and
    nested lists; the dictionaries [sim_dict], [net_dict] and [stim_dict]
    have fixed keys and are records.  The functions of [helpers.py] and
    the simulation engine ([nest]) are outside the file under study: the
    helpers are fields of an interface record, the engine is a small
    kernel state machine with the calls the class issues. *)

From Stdlib Require Import ZArith QArith Qround Qabs List Ascii String Bool Lia Lqa.
Import ListNotations.

Local Open Scope Z_scope.
Local Open Scope Q_scope.

(** ** numpy fragments *)

Module Np.

(** [np.round] on a scalar followed by [.astype(int)]: rounding to the
    nearest integer, ties to the even neighbour. *)
Definition round (x : Q) : Z :=
  let f := Qfloor x in
  match Qcompare (x - inject_Z f) (1 # 2) with
  | Lt => f
  | Gt => (f + 1)%Z
  | Eq => if Z.even f then f else (f + 1)%Z
  end.

(** Scalar broadcast [a * s] over a 1-d and a 2-d array. *)
Definition vec_scale (a : list Q) (s : Q) : list Q :=
  map (fun x => x * s) a.

Definition mat_scale (a : list (list Q)) (s : Q) : list (list Q) :=
  map (fun row => vec_scale row s) a.

(** Scalar broadcast [a / s]. *)
Definition vec_div (a : list Q) (s : Q) : list Q :=
  map (fun x => x / s) a.

(** [np.round(a).astype(int)] elementwise. *)
Definition vec_round (a : list Q) : list Z := map round a.

Definition mat_round (a : list (list Q)) : list (list Z) :=
  map vec_round a.

(** [np.zeros(n)]. *)
Definition zeros (n : nat) : list Q := repeat 0 n.

(** An integer array promoted to floats when it meets a float operand. *)
Definition as_float (a : list Z) : list Q := map inject_Z a.

(** [a[i][j]] on arrays that hold the entry; the default stands for the
    out-of-range access, which no statement below uses. *)
Definition at2 {A} (d : A) (a : list (list A)) (i j : nat) : A :=
  nth j (nth i a []) d.

End Np.

(** ** Exceptions and results *)

(** The exceptions the class can meet: an attribute read before it is
    assigned, an index past the end of an array, the [Exception(msg)]
    raised by the class itself, and an error raised by the engine. *)
Inductive exn : Type :=
| AttributeError (attr : string)
| IndexError
| PyException (msg : string)
| KernelException (msg : string).

Inductive result (A : Type) : Type :=
| Ok (a : A)
| Raise (e : exn).

Arguments Ok {A} a.
Arguments Raise {A} e.

Definition is_Ok {A} (r : result A) : bool :=
  match r with Ok _ => true | Raise _ => false end.

(** [a[i]] on a Python list or numpy array. *)
Definition index {A} (a : list A) (i : nat) : result A :=
  match nth_error a i with
  | Some x => Ok x
  | None => Raise IndexError
  end.

(** ** Configuration dictionaries *)

Record neuron_params : Type := {
  C_m : Q;
  tau_m : Q;
  tau_syn : Q;
  E_L : Q;
  V_th : Q;
  V_reset : Q;
  t_ref : Q;
  V0_mean_optimized : list Q;
  V0_std_optimized : list Q;
  V0_mean_original : Q;
  V0_std_original : Q
}.

Record net_dict : Type := {
  populations : list string;
  conn_probs : list (list Q);
  full_num_neurons : list Z;
  N_scaling : Q;
  K_scaling : Q;
  K_ext : list Z;
  PSP_matrix_mean : list (list Q);
  PSP_exc_mean : Q;
  poisson_input : bool;
  bg_rate : Q;
  full_mean_rates : list Q;
  neuron_model : string;
  synapse_type : string;
  V0_type : string;
  weight_rel_std : Q;
  delay_matrix_mean : list (list Q);
  delay_rel_std : Q;
  delay_poisson : Q;
  neuron_params_of : neuron_params
}.

Record stim_dict : Type := {
  thalamic_input : bool;
  dc_input : bool;
  conn_probs_th : list Q;
  num_th_neurons : Z;
  PSP_th : Q;
  th_rate : Q;
  th_start : Q;
  th_duration : Q;
  delay_th_mean : Q;
  delay_th_rel_std : Q;
  dc_amp : Q;
  dc_start : Q;
  dc_dur : Q
}.

Record sim_dict : Type := {
  data_path : string;
  rec_dev : list string;
  local_num_threads : nat;
  sim_resolution : Q;
  rec_V_int : Q
}.

(** ** The functions of helpers.py and numpy's square root

    [helpers.py] is not part of the file under study; the class only
    calls it.  Its functions are the fields of [helpers], so that every
    statement about the class holds for whatever they compute. *)

Record helpers : Type := {
  num_synapses_from_conn_probs :
    list (list Q) -> list Z -> list Z -> list (list Q);
  postsynaptic_potential_to_current : Q -> Q -> Q -> Q;
  dc_input_compensating_poisson : Q -> list Z -> Q -> Q -> list Q;
  adjust_weights_and_input_to_synapse_scaling :
    list Z -> list (list Q) -> Q -> list (list Q) -> Q -> Q -> list Q ->
    list Q -> bool -> Q -> list Z -> list (list Q) * Q * list Q;
  np_sqrt : Q -> Q
}.

(** ** Derived parameters *)

(** The attributes [__derive_parameters] stores on the object.  The two
    thalamic attributes exist only when the thalamic stimulus is on. *)
Record derived : Type := {
  num_pops : nat;
  num_neurons : list Z;
  num_synapses : list (list Z);
  ext_indegrees : list Z;
  weight_matrix_mean : list (list Q);
  weight_ext : Q;
  DC_amp : list Q;
  weight_th : option Q;
  num_th_synapses : option (list Z)
}.

(** Python's [x != 1] on a float. *)
Definition neq1 (x : Q) : bool := negb (Qeq_bool x 1).

(** Step of [__derive_parameters] up to the indegree correction: the
    background bias before [K_scaling] is looked at. *)
Definition DC_amp_before_scaling (h : helpers) (net : net_dict) (PSC_ext : Q)
  : list Q :=
  if poisson_input net then Np.zeros (List.length (populations net))
  else dc_input_compensating_poisson h (bg_rate net) (K_ext net)
         (tau_syn (neuron_params_of net)) PSC_ext.

(** [Network.__derive_parameters].  The thalamic call passes the 1-d
    probability array and the scalar population size; the outer product
    inside the helper makes them a one-row matrix, of which [[0]] takes
    the row.  The rank-0 console messages of the method carry no derived
    value and are left out. *)
Definition derive_parameters (h : helpers) (net : net_dict) (stim : stim_dict)
  : result derived :=
  let num_pops := List.length (populations net) in
  let full_num_synapses :=
    num_synapses_from_conn_probs h (conn_probs net)
      (full_num_neurons net) (full_num_neurons net) in
  let num_neurons :=
    Np.vec_round (Np.vec_scale (Np.as_float (full_num_neurons net))
                    (N_scaling net)) in
  let num_synapses :=
    Np.mat_round (Np.mat_scale (Np.mat_scale full_num_synapses (N_scaling net))
                    (K_scaling net)) in
  let ext_indegrees :=
    Np.vec_round (Np.vec_scale (Np.as_float (K_ext net)) (K_scaling net)) in
  let PSC_over_PSP :=
    postsynaptic_potential_to_current h
      (C_m (neuron_params_of net)) (tau_m (neuron_params_of net))
      (tau_syn (neuron_params_of net)) in
  let PSC_matrix_mean := Np.mat_scale (PSP_matrix_mean net) PSC_over_PSP in
  let PSC_ext := PSP_exc_mean net * PSC_over_PSP in
  let DC_amp := DC_amp_before_scaling h net PSC_ext in
  let '(PSC_matrix_mean, PSC_ext, DC_amp) :=
    if neq1 (K_scaling net) then
      adjust_weights_and_input_to_synapse_scaling h
        (full_num_neurons net) full_num_synapses (K_scaling net)
        PSC_matrix_mean PSC_ext (tau_syn (neuron_params_of net))
        (full_mean_rates net) DC_amp (poisson_input net)
        (bg_rate net) (K_ext net)
    else (PSC_matrix_mean, PSC_ext, DC_amp) in
  let plan wth nth :=
    {| num_pops := num_pops;
       num_neurons := num_neurons;
       num_synapses := num_synapses;
       ext_indegrees := ext_indegrees;
       weight_matrix_mean := PSC_matrix_mean;
       weight_ext := PSC_ext;
       DC_amp := DC_amp;
       weight_th := wth;
       num_th_synapses := nth |} in
  if thalamic_input stim then
    match index (num_synapses_from_conn_probs h [conn_probs_th stim]
                   [num_th_neurons stim] (full_num_neurons net)) 0 with
    | Raise e => Raise e
    | Ok num_th_synapses =>
        let weight_th := PSP_th stim * PSC_over_PSP in
        let '(num_th_synapses, weight_th) :=
          if neq1 (K_scaling net) then
            (Np.vec_scale num_th_synapses (K_scaling net),
             weight_th / np_sqrt h (K_scaling net))
          else (num_th_synapses, weight_th) in
        Ok (plan (Some weight_th) (Some (Np.vec_round num_th_synapses)))
    end
  else Ok (plan None None).

(** ** The simulation engine as the class sees it *)

Inductive bound : Type :=
| NegInf
| Fin (x : Q)
| PosInf.

(** Values handed to the engine as parameters.  [Redraw] is
    [nest.math.redraw(nest.random.normal(mean, std), min, max)] of engine
    revision 3; [NormalClipped] is the revision-2 dictionary with
    ['distribution': 'normal_clipped'], whose keys ['low'] and ['high']
    are optional. *)
Inductive param : Type :=
| Const (v : Q)
| ConstArray (v : list Q)
| Flag (b : bool)
| Text (s : string)
| TextList (s : list string)
| RandomNormal (mean std : Q)
| Redraw (mean std : Q) (min max : bound)
| NormalClipped (mu sigma : Q) (low high : option Q).

Definition params : Type := list (string * param).

(** A handle on consecutively numbered nodes. *)
Record node_collection : Type := {
  nc_first : Z;
  nc_n : Z
}.

Inductive conn_rule : Type :=
| fixed_total_number (N : Z)
| all_to_all.

Record syn_spec : Type := {
  syn_model : option string;
  syn_weight : option param;
  syn_delay : option param
}.

Record connect_call : Type := {
  source : node_collection;
  target : node_collection;
  conn_spec : option conn_rule;
  syn : option syn_spec
}.

(** What the kernel has been made to do, oldest first. *)
Inductive event : Type :=
| EvCreate (model : string) (n : Z) (p : params)
| EvSetStatus (nodes : node_collection) (p : params)
| EvConnect (c : connect_call)
| EvPrepare
| EvRun (t : Q)
| EvCleanup.

Record nest_kernel : Type := {
  resolution : Q;
  network_size : Z;
  prepared : bool;
  biological_time : Q;
  trace : list event
}.

Definition record (k : nest_kernel) (e : event) : nest_kernel :=
  {| resolution := resolution k;
     network_size := network_size k;
     prepared := prepared k;
     biological_time := biological_time k;
     trace := trace k ++ [e] |}.

(** [nest.Create]: the new nodes take the next free identifiers. *)
Definition kernel_Create (model : string) (n : Z) (p : params)
  (k : nest_kernel) : node_collection * nest_kernel :=
  ({| nc_first := network_size k + 1; nc_n := n |},
   {| resolution := resolution k;
      network_size := network_size k + n;
      prepared := prepared k;
      biological_time := biological_time k;
      trace := trace k ++ [EvCreate model n p] |}).

(** [nest.Prepare]: refused when the kernel is already prepared. *)
Definition kernel_Prepare (k : nest_kernel) : result nest_kernel :=
  if prepared k then Raise (KernelException "Prepare called twice.")
  else Ok {| resolution := resolution k;
             network_size := network_size k;
             prepared := true;
             biological_time := biological_time k;
             trace := trace k ++ [EvPrepare] |}.

(** [nest.Run]: needs a prepared kernel, advances its clock. *)
Definition kernel_Run (t : Q) (k : nest_kernel) : result nest_kernel :=
  if prepared k then
    Ok {| resolution := resolution k;
          network_size := network_size k;
          prepared := true;
          biological_time := biological_time k + t;
          trace := trace k ++ [EvRun t] |}
  else Raise (KernelException "Run called without calling Prepare.").

(** [nest.Cleanup]: needs a prepared kernel, leaves it unprepared. *)
Definition kernel_Cleanup (k : nest_kernel) : result nest_kernel :=
  if prepared k then
    Ok {| resolution := resolution k;
          network_size := network_size k;
          prepared := false;
          biological_time := biological_time k;
          trace := trace k ++ [EvCleanup] |}
  else Raise (KernelException "Cleanup called without calling Prepare.").

(** ** The object and the world around it *)

Inductive version : Type := V2 | V3.

(** Revision 3 keeps the DC generators in one collection, revision 2 in a
    Python list of collections. *)
Inductive dc_handles : Type :=
| DcCollection (c : node_collection)
| DcList (l : list node_collection).

(** The attributes assigned by the [__create_*] methods. *)
Record attrs : Type := {
  pops : option (list node_collection);
  spike_recorders : option node_collection;
  voltmeters : option node_collection;
  poisson_bg_input : option node_collection;
  thalamic_population : option node_collection;
  poisson_th : option node_collection;
  dc_stim_input : option dc_handles
}.

Definition no_attrs : attrs :=
  {| pops := None; spike_recorders := None; voltmeters := None;
     poisson_bg_input := None; thalamic_population := None;
     poisson_th := None; dc_stim_input := None |}.

(** What a method can change: the engine, the late attributes of the
    object, the console and the files written. *)
Record state : Type := {
  kernel : nest_kernel;
  self : attrs;
  stdout : list string;
  files : list (string * list (Z * Z))
}.

(** What a method only reads: the three dictionaries, the derived
    parameters, the engine revision found by [__init__] and
    [nest.Rank()]. *)
Record network : Type := {
  sim : sim_dict;
  net : net_dict;
  stim : stim_dict;
  plan : derived;
  nest_version : version;
  rank : Z
}.

(** A method: it may raise, and what it did before raising stays done. *)
Definition M (A : Type) : Type := state -> result A * state.

Definition ret {A} (a : A) : M A := fun s => (Ok a, s).

Definition raise {A} (e : exn) : M A := fun s => (Raise e, s).

Definition bind {A B} (m : M A) (k : A -> M B) : M B :=
  fun s =>
    match m s with
    | (Ok a, s') => k a s'
    | (Raise e, s') => (Raise e, s')
    end.

Notation "x <- m ;; k" := (bind m (fun x => k))
  (at level 61, m at next level, right associativity).
Notation "m ;; k" := (bind m (fun _ => k))
  (at level 61, right associativity).

Definition lift {A} (r : result A) : M A := fun s => (r, s).

(** [try: m except BaseException: handler]. *)
Definition try_except (m : M unit) (handler : M unit) : M unit :=
  fun s =>
    match m s with
    | (Ok a, s') => (Ok a, s')
    | (Raise _, s') => handler s'
    end.

(** [if c: m] without an else branch. *)
Definition when (c : bool) (m : M unit) : M unit :=
  if c then m else ret tt.

(** [for x in l: body x]. *)
Fixpoint for_each {A} (l : list A) (body : A -> M unit) : M unit :=
  match l with
  | [] => ret tt
  | x :: l' => body x ;; for_each l' body
  end.

Definition enumerate {A} (l : list A) : list (nat * A) :=
  combine (seq 0 (List.length l)) l.

(** Reading an attribute that a [__create_*] method assigns. *)
Definition attr {A} (name : string) (get : attrs -> option A) : M A :=
  fun s =>
    match get (self s) with
    | Some a => (Ok a, s)
    | None => (Raise (AttributeError name), s)
    end.

Definition set_self (f : attrs -> attrs) : M unit :=
  fun s => (Ok tt, {| kernel := kernel s; self := f (self s);
                      stdout := stdout s; files := files s |}).

Definition print (msg : string) : M unit :=
  fun s => (Ok tt, {| kernel := kernel s; self := self s;
                      stdout := stdout s ++ [msg]; files := files s |}).

Definition write_file (name : string) (lines : list (Z * Z)) : M unit :=
  fun s => (Ok tt, {| kernel := kernel s; self := self s; stdout := stdout s;
                      files := files s ++ [(name, lines)] |}).

Definition with_kernel (s : state) (k : nest_kernel) : state :=
  {| kernel := k; self := self s; stdout := stdout s; files := files s |}.

Definition nest_Create (model : string) (n : Z) (p : params)
  : M node_collection :=
  fun s => let '(c, k) := kernel_Create model n p (kernel s) in
           (Ok c, with_kernel s k).

Definition nest_SetStatus (nodes : node_collection) (p : params) : M unit :=
  fun s => (Ok tt, with_kernel s (record (kernel s) (EvSetStatus nodes p))).

Definition nest_Connect (pre post : node_collection)
  (c : option conn_rule) (sy : option syn_spec) : M unit :=
  fun s =>
    (Ok tt, with_kernel s
              (record (kernel s)
                 (EvConnect {| source := pre; target := post;
                               conn_spec := c; syn := sy |}))).

Definition kernel_call (f : nest_kernel -> result nest_kernel) : M unit :=
  fun s =>
    match f (kernel s) with
    | Ok k => (Ok tt, with_kernel s k)
    | Raise e => (Raise e, s)
    end.

Definition nest_Prepare : M unit := kernel_call kernel_Prepare.

Definition nest_Run (t : Q) : M unit := kernel_call (kernel_Run t).

Definition nest_Cleanup : M unit := kernel_call kernel_Cleanup.

(** [nest.resolution]. *)
Definition nest_resolution : M Q := fun s => (Ok (resolution (kernel s)), s).

(** [c[i]] on a node collection. *)
Definition nc_index (c : node_collection) (i : nat) : result node_collection :=
  if (Z.of_nat i <? nc_n c)%Z
  then Ok {| nc_first := nc_first c + Z.of_nat i; nc_n := 1 |}
  else Raise IndexError.

(** [os.path.join] of a directory and a file name. *)
Definition path_join (dir name : string) : string :=
  (dir ++ "/" ++ name)%string.

Definition rank0 (N : network) (m : M unit) : M unit :=
  when (rank N =? 0)%Z m.

Definition elem (x : string) (l : list string) : bool :=
  existsb (String.eqb x) l.

(** ** Creating the nodes *)

Definition neuron_status (N : network) (I_e : Q) : params :=
  let np := neuron_params_of (net N) in
  [("tau_syn_ex"%string, Const (tau_syn np));
   ("tau_syn_in"%string, Const (tau_syn np));
   ("E_L"%string, Const (E_L np));
   ("V_th"%string, Const (V_th np));
   ("V_reset"%string, Const (V_reset np));
   ("t_ref"%string, Const (t_ref np));
   ("I_e"%string, Const I_e)].

Definition dquote : string := String "034"%char EmptyString.

Definition V0_type_message : string :=
  ("V0_type incorrect. Valid options are " ++ dquote ++ "optimized" ++ dquote
   ++ " and " ++ dquote ++ "original" ++ dquote ++ ".")%string.

(** Drawing the initial membrane potentials of one population.  Under
    revision 2 the source draws once per local thread for the nodes of
    that thread; the model keeps one call per thread and addresses the
    whole population. *)
Definition set_V_m (N : network) (population : node_collection)
  (mean std : result Q) : M unit :=
  let draw :=
    m <- lift mean ;;
    sd <- lift std ;;
    nest_SetStatus population [("V_m"%string, RandomNormal m sd)] in
  match nest_version N with
  | V3 => draw
  | V2 => for_each (seq 0 (local_num_threads (sim N))) (fun _ => draw)
  end.

(** The body of the loop over the populations in
    [__create_neuronal_populations]. *)
Definition create_population (N : network) (i : nat) : M unit :=
  let np := neuron_params_of (net N) in
  n <- lift (index (num_neurons (plan N)) i) ;;
  population <- nest_Create (neuron_model (net N)) n [] ;;
  I_e <- lift (index (DC_amp (plan N)) i) ;;
  match nest_version N with
  | V3 => nest_SetStatus population (neuron_status N I_e)
  | V2 => nest_SetStatus population (neuron_status N I_e)
  end ;;
  (if String.eqb (V0_type (net N)) "optimized" then
     set_V_m N population (index (V0_mean_optimized np) i)
       (index (V0_std_optimized np) i)
   else if String.eqb (V0_type (net N)) "original" then
     set_V_m N population (Ok (V0_mean_original np)) (Ok (V0_std_original np))
   else raise (PyException V0_type_message)) ;;
  ps <- attr "pops" pops ;;
  set_self (fun a =>
    {| pops := Some (ps ++ [population]);
       spike_recorders := spike_recorders a; voltmeters := voltmeters a;
       poisson_bg_input := poisson_bg_input a;
       thalamic_population := thalamic_population a;
       poisson_th := poisson_th a; dc_stim_input := dc_stim_input a |}).

(** [pop[0]] and [pop[-1]] of a population, as written to the file of
    node identifiers. *)
Definition first_last (c : node_collection) : result (Z * Z) :=
  if (0 <? nc_n c)%Z then Ok (nc_first c, nc_first c + nc_n c - 1)%Z
  else Raise IndexError.

Fixpoint all_ok {A B} (f : A -> result B) (l : list A) : result (list B) :=
  match l with
  | [] => Ok []
  | x :: l' =>
      match f x with
      | Raise e => Raise e
      | Ok y => match all_ok f l' with
                | Raise e => Raise e
                | Ok ys => Ok (y :: ys)
                end
      end
  end.

(** [Network.__create_neuronal_populations]. *)
Definition create_neuronal_populations (N : network) : M unit :=
  rank0 N (print "Creating neuronal populations.") ;;
  set_self (fun a =>
    {| pops := Some [];
       spike_recorders := spike_recorders a; voltmeters := voltmeters a;
       poisson_bg_input := poisson_bg_input a;
       thalamic_population := thalamic_population a;
       poisson_th := poisson_th a; dc_stim_input := dc_stim_input a |}) ;;
  for_each (seq 0 (num_pops (plan N))) (create_population N) ;;
  rank0 N
    (ps <- attr "pops" pops ;;
     lines <- lift (all_ok first_last ps) ;;
     write_file (path_join (data_path (sim N)) "population_nodeids.dat") lines).

(** [Network.__create_recording_devices]. *)
Definition create_recording_devices (N : network) : M unit :=
  rank0 N (print "Creating recording devices.") ;;
  when (elem "spike_recorder" (rec_dev (sim N)))
    (rank0 N (print "  Creating spike recorders.") ;;
     c <- match nest_version N with
          | V3 =>
              nest_Create "spike_recorder" (Z.of_nat (num_pops (plan N)))
                [("record_to"%string, Text "ascii");
                 ("label"%string,
                  Text (path_join (data_path (sim N)) "spike_recorder"))]
          | V2 =>
              nest_Create "spike_detector" (Z.of_nat (num_pops (plan N)))
                [("withgid"%string, Flag true);
                 ("withtime"%string, Flag true);
                 ("to_memory"%string, Flag false);
                 ("to_file"%string, Flag true);
                 ("label"%string,
                  Text (path_join (data_path (sim N)) "spike_recorder"))]
          end ;;
     set_self (fun a =>
       {| pops := pops a; spike_recorders := Some c;
          voltmeters := voltmeters a;
          poisson_bg_input := poisson_bg_input a;
          thalamic_population := thalamic_population a;
          poisson_th := poisson_th a; dc_stim_input := dc_stim_input a |})) ;;
  when (elem "voltmeter" (rec_dev (sim N)))
    (rank0 N (print "  Creating voltmeters.") ;;
     let vm_dict :=
       match nest_version N with
       | V3 => [("interval"%string, Const (rec_V_int (sim N)));
                ("record_to"%string, Text "ascii");
                ("record_from"%string, TextList ["V_m"%string]);
                ("label"%string,
                 Text (path_join (data_path (sim N)) "voltmeter"))]
       | V2 => [("withgid"%string, Flag true);
                ("withtime"%string, Flag true);
                ("to_memory"%string, Flag false);
                ("to_file"%string, Flag true);
                ("label"%string,
                 Text (path_join (data_path (sim N)) "voltmeter"))]
       end in
     c <- nest_Create "voltmeter" (Z.of_nat (num_pops (plan N))) vm_dict ;;
     set_self (fun a =>
       {| pops := pops a; spike_recorders := spike_recorders a;
          voltmeters := Some c;
          poisson_bg_input := poisson_bg_input a;
          thalamic_population := thalamic_population a;
          poisson_th := poisson_th a; dc_stim_input := dc_stim_input a |})).

(** [Network.__create_poisson_bg_input]. *)
Definition create_poisson_bg_input (N : network) : M unit :=
  rank0 N (print "Creating Poisson generators for background input.") ;;
  c <- nest_Create "poisson_generator" (Z.of_nat (num_pops (plan N))) [] ;;
  set_self (fun a =>
    {| pops := pops a; spike_recorders := spike_recorders a;
       voltmeters := voltmeters a; poisson_bg_input := Some c;
       thalamic_population := thalamic_population a;
       poisson_th := poisson_th a; dc_stim_input := dc_stim_input a |}) ;;
  let rate :=
    map (fun k => bg_rate (net N) * inject_Z k) (ext_indegrees (plan N)) in
  match nest_version N with
  | V3 => nest_SetStatus c [("rate"%string, ConstArray rate)]
  | V2 =>
      for_each (enumerate rate) (fun ir =>
        g <- lift (nc_index c (fst ir)) ;;
        nest_SetStatus g [("rate"%string, Const (snd ir))])
  end.

(** [Network.__create_thalamic_stim_input]: the thalamic population has
    [stim_dict['num_th_neurons']] neurons. *)
Definition create_thalamic_stim_input (N : network) : M unit :=
  rank0 N (print "Creating thalamic input for external stimulation.") ;;
  th <- nest_Create "parrot_neuron" (num_th_neurons (stim N)) [] ;;
  set_self (fun a =>
    {| pops := pops a; spike_recorders := spike_recorders a;
       voltmeters := voltmeters a; poisson_bg_input := poisson_bg_input a;
       thalamic_population := Some th;
       poisson_th := poisson_th a; dc_stim_input := dc_stim_input a |}) ;;
  g <- nest_Create "poisson_generator" 1 [] ;;
  set_self (fun a =>
    {| pops := pops a; spike_recorders := spike_recorders a;
       voltmeters := voltmeters a; poisson_bg_input := poisson_bg_input a;
       thalamic_population := thalamic_population a;
       poisson_th := Some g; dc_stim_input := dc_stim_input a |}) ;;
  let status :=
    [("rate"%string, Const (th_rate (stim N)));
     ("start"%string, Const (th_start (stim N)));
     ("stop"%string, Const (th_start (stim N) + th_duration (stim N)))] in
  match nest_version N with
  | V3 => nest_SetStatus g status
  | V2 => nest_SetStatus g status
  end.

Definition set_dc_stim_input (d : dc_handles) : M unit :=
  set_self (fun a =>
    {| pops := pops a; spike_recorders := spike_recorders a;
       voltmeters := voltmeters a; poisson_bg_input := poisson_bg_input a;
       thalamic_population := thalamic_population a;
       poisson_th := poisson_th a; dc_stim_input := Some d |}).

(** [Network.__create_dc_stim_input]. *)
Definition create_dc_stim_input (N : network) : M unit :=
  let dc_amp_stim := map (fun k => dc_amp (stim N) * inject_Z k) (K_ext (net N)) in
  rank0 N (print "Creating DC generators for external stimulation.") ;;
  let window :=
    [("start"%string, Const (dc_start (stim N)));
     ("stop"%string, Const (dc_start (stim N) + dc_dur (stim N)))] in
  match nest_version N with
  | V3 =>
      c <- nest_Create "dc_generator" (Z.of_nat (num_pops (plan N)))
             (("amplitude"%string, ConstArray dc_amp_stim) :: window) ;;
      set_dc_stim_input (DcCollection c)
  | V2 =>
      set_dc_stim_input (DcList []) ;;
      for_each dc_amp_stim (fun amp =>
        dc <- nest_Create "dc_generator" (Z.of_nat (num_pops (plan N)))
                (window ++ [("amplitude"%string, Const amp)]) ;;
        d <- attr "dc_stim_input" dc_stim_input ;;
        match d with
        | DcList l => set_dc_stim_input (DcList (l ++ [dc]))
        | DcCollection _ => raise (AttributeError "append")
        end)
  end.

(** [Network.create]. *)
Definition create (N : network) : M unit :=
  create_neuronal_populations N ;;
  when (0 <? List.length (rec_dev (sim N)))%nat (create_recording_devices N) ;;
  when (poisson_input (net N)) (create_poisson_bg_input N) ;;
  when (thalamic_input (stim N)) (create_thalamic_stim_input N) ;;
  when (dc_input (stim N)) (create_dc_stim_input N).

(** ** Connecting the nodes *)

(** Python's [x < 0] on a float. *)
Definition Qlt_bool (x y : Q) : bool := negb (Qle_bool y x).

(** [a[i][j]]. *)
Definition index2 {A} (a : list (list A)) (i j : nat) : result A :=
  match index a i with
  | Raise e => Raise e
  | Ok row => index row j
  end.

(** The synapse dictionary of the pair (target [i], source [j]) in
    [__connect_neuronal_populations]. *)
Definition recurrent_syn_dict (N : network) (i j : nat) : M syn_spec :=
  match nest_version N with
  | V3 =>
      w <- lift (index2 (weight_matrix_mean (plan N)) i j) ;;
      let '(w_min, w_max) :=
        if Qlt_bool w 0 then (NegInf, Fin 0) else (Fin 0, PosInf) in
      d <- lift (index2 (delay_matrix_mean (net N)) i j) ;;
      res <- nest_resolution ;;
      ret {| syn_model := Some (synapse_type (net N));
             syn_weight :=
               Some (Redraw w (Qabs (w * weight_rel_std (net N))) w_min w_max);
             syn_delay :=
               Some (Redraw d (d * delay_rel_std (net N))
                       (Fin (res - 0.5 * res)) PosInf) |}
  | V2 =>
      w <- lift (index2 (weight_matrix_mean (plan N)) i j) ;;
      d <- lift (index2 (delay_matrix_mean (net N)) i j) ;;
      let weight low high :=
        NormalClipped w (Qabs (w * weight_rel_std (net N))) low high in
      ret {| syn_model := Some (synapse_type (net N));
             syn_weight :=
               Some (if Qlt_bool w 0 then weight None (Some 0)
                     else weight (Some 0) None);
             syn_delay :=
               Some (NormalClipped d (d * delay_rel_std (net N))
                       (Some (sim_resolution (sim N))) None) |}
  end.

(** [Network.__connect_neuronal_populations]. *)
Definition connect_neuronal_populations (N : network) : M unit :=
  rank0 N (print "Connecting neuronal populations recurrently.") ;;
  ps <- attr "pops" pops ;;
  for_each (enumerate ps) (fun tgt =>
    for_each (enumerate ps) (fun src =>
      n <- lift (index2 (num_synapses (plan N)) (fst tgt) (fst src)) ;;
      when (0 <=? n)%Z
        (syn_dict <- recurrent_syn_dict N (fst tgt) (fst src) ;;
         nest_Connect (snd src) (snd tgt)
           (Some (fixed_total_number n)) (Some syn_dict)))).

(** [Network.__connect_recording_devices].  Its console message is
    guarded by a comparison of the function [nest.Rank] itself with 0,
    which never holds, so nothing is printed. *)
Definition connect_recording_devices (N : network) : M unit :=
  ps <- attr "pops" pops ;;
  for_each (enumerate ps) (fun tgt =>
    when (elem "spike_recorder" (rec_dev (sim N)))
      (sr <- attr "spike_recorders" spike_recorders ;;
       g <- lift (nc_index sr (fst tgt)) ;;
       nest_Connect (snd tgt) g None None) ;;
    when (elem "voltmeter" (rec_dev (sim N)))
      (vm <- attr "voltmeters" voltmeters ;;
       g <- lift (nc_index vm (fst tgt)) ;;
       nest_Connect g (snd tgt) None None)).

(** [Network.__connect_poisson_bg_input]. *)
Definition connect_poisson_bg_input (N : network) : M unit :=
  rank0 N (print "Connecting Poisson generators for background input.") ;;
  ps <- attr "pops" pops ;;
  for_each (enumerate ps) (fun tgt =>
    let syn_dict_poisson :=
      {| syn_model := Some (synapse_type (net N));
         syn_weight := Some (Const (weight_ext (plan N)));
         syn_delay := Some (Const (delay_poisson (net N))) |} in
    bg <- attr "poisson_bg_input" poisson_bg_input ;;
    g <- lift (nc_index bg (fst tgt)) ;;
    nest_Connect g (snd tgt) (Some all_to_all) (Some syn_dict_poisson)).

(** The synapse dictionary of the thalamic connections. *)
Definition thalamic_syn_dict (N : network) : M syn_spec :=
  match nest_version N with
  | V3 =>
      w <- lift (match weight_th (plan N) with
                 | Some w => Ok w
                 | None => Raise (AttributeError "weight_th")
                 end) ;;
      res <- nest_resolution ;;
      ret {| syn_model := None;
             syn_weight :=
               Some (Redraw w (w * weight_rel_std (net N)) (Fin 0) PosInf);
             syn_delay :=
               Some (Redraw (delay_th_mean (stim N))
                       (delay_th_mean (stim N) * delay_th_rel_std (stim N))
                       (Fin (res - 0.5 * res)) PosInf) |}
  | V2 =>
      w <- lift (match weight_th (plan N) with
                 | Some w => Ok w
                 | None => Raise (AttributeError "weight_th")
                 end) ;;
      ret {| syn_model := None;
             syn_weight :=
               Some (NormalClipped w (w * weight_rel_std (net N))
                       (Some 0) None);
             syn_delay :=
               Some (NormalClipped (delay_th_mean (stim N))
                       (delay_th_mean (stim N) * delay_th_rel_std (stim N))
                       (Some (sim_resolution (sim N))) None) |}
  end.

(** [Network.__connect_thalamic_stim_input]. *)
Definition connect_thalamic_stim_input (N : network) : M unit :=
  rank0 N (print "Connecting thalamic input.") ;;
  g <- attr "poisson_th" poisson_th ;;
  th <- attr "thalamic_population" thalamic_population ;;
  nest_Connect g th None None ;;
  ps <- attr "pops" pops ;;
  for_each (enumerate ps) (fun tgt =>
    counts <- lift (match num_th_synapses (plan N) with
                    | Some c => Ok c
                    | None => Raise (AttributeError "num_th_synapses")
                    end) ;;
    n <- lift (index counts (fst tgt)) ;;
    syn_dict_th <- thalamic_syn_dict N ;;
    th <- attr "thalamic_population" thalamic_population ;;
    nest_Connect th (snd tgt) (Some (fixed_total_number n)) (Some syn_dict_th)).

(** [Network.__connect_dc_stim_input]. *)
Definition connect_dc_stim_input (N : network) : M unit :=
  rank0 N (print "Connecting DC generators.") ;;
  ps <- attr "pops" pops ;;
  for_each (enumerate ps) (fun tgt =>
    d <- attr "dc_stim_input" dc_stim_input ;;
    g <- lift (match d with
               | DcCollection c => nc_index c (fst tgt)
               | DcList l => index l (fst tgt)
               end) ;;
    nest_Connect g (snd tgt) None None).

(** [Network.connect]. *)
Definition connect (N : network) : M unit :=
  connect_neuronal_populations N ;;
  when (0 <? List.length (rec_dev (sim N)))%nat (connect_recording_devices N) ;;
  when (poisson_input (net N)) (connect_poisson_bg_input N) ;;
  when (thalamic_input (stim N)) (connect_thalamic_stim_input N) ;;
  when (dc_input (stim N)) (connect_dc_stim_input N) ;;
  nest_Prepare.

(** ** Simulating *)

Definition already_prepared_message : string :=
  ("nest.Prepare() has already been called after connecting the network. "
   ++ "This simulate() call directly starts with nest.Run().")%string.

(** [Network.simulate].  The first console message shows the duration;
    the model prints it without the number. *)
Definition simulate (N : network) (t_sim : Q) : M unit :=
  rank0 N (print "Simulating.") ;;
  try_except nest_Prepare (print already_prepared_message) ;;
  nest_Run t_sim ;;
  nest_Cleanup.

(** ** Instantiating *)

(** The kernel after [nest.ResetKernel()] and the [SetKernelStatus] calls
    of [__setup_nest]: no node, clock at zero, the configured resolution.
    Seeds and thread counts play no part below. *)
Definition setup_nest (sd : sim_dict) : nest_kernel :=
  {| resolution := sim_resolution sd;
     network_size := 0;
     prepared := false;
     biological_time := 0;
     trace := [] |}.

Definition initial_state (sd : sim_dict) : state :=
  {| kernel := setup_nest sd; self := no_attrs; stdout := []; files := [] |}.

(** [Network.__init__]: the derived parameters are computed before the
    kernel is set up and before any node exists.  The data directory is
    left out; the engine revision the constructor probes for and the
    rank are arguments. *)
Definition init (h : helpers) (sd : sim_dict) (nd : net_dict) (st : stim_dict)
  (v : version) (rk : Z) : result (network * state) :=
  match derive_parameters h nd st with
  | Raise e => Raise e
  | Ok p =>
      Ok ({| sim := sd; net := nd; stim := st; plan := p;
             nest_version := v; rank := rk |},
          initial_state sd)
  end.

(** Running a method: its outcome and the state it leaves. *)
Definition outcome {A} (m : M A) (s : state) : result A := fst (m s).

Definition exec {A} (m : M A) (s : state) : state := snd (m s).

(** ** Reading a trace *)

Definition is_create (e : event) : bool :=
  match e with EvCreate _ _ _ | EvSetStatus _ _ => true | _ => false end.

Definition is_connect (e : event) : bool :=
  match e with EvConnect _ => true | _ => false end.


Definition is_run (e : event) : bool :=
  match e with EvRun _ => true | _ => false end.

Definition is_cleanup (e : event) : bool :=
  match e with EvCleanup => true | _ => false end.

Definition count (p : event -> bool) (tr : list event) : nat :=
  List.length (filter p tr).

(** The connections the kernel holds. *)
Definition connections (k : nest_kernel) : list event :=
  filter is_connect (trace k).

(** ** Drawing from a clipped distribution

    The engine draws; the class only describes the distribution.  A draw
    is taken from the unclipped normal distribution and kept when the
    description accepts it, otherwise the next draw is looked at:
    [draws] is the sequence of values the generator offers.  The range of
    [redraw] is closed, that of [normal_clipped] is open. *)

Definition above (lo : bound) (x : Q) : bool :=
  match lo with
  | NegInf => true
  | Fin l => Qle_bool l x
  | PosInf => false
  end.

Definition below (x : Q) (hi : bound) : bool :=
  match hi with
  | NegInf => false
  | Fin u => Qle_bool x u
  | PosInf => true
  end.

Definition accepts (p : param) (x : Q) : bool :=
  match p with
  | Redraw _ _ lo hi => above lo x && below x hi
  | NormalClipped _ _ low high =>
      match low with Some l => Qlt_bool l x | None => true end
      && match high with Some u => Qlt_bool x u | None => true end
  | _ => true
  end.

Fixpoint sample (p : param) (draws : list Q) : option Q :=
  match draws with
  | [] => None
  | x :: rest => if accepts p x then Some x else sample p rest
  end.

(** Mean and standard deviation of the underlying normal distribution. *)
Definition normal_of (p : param) : option (Q * Q) :=
  match p with
  | RandomNormal m s | Redraw m s _ _ | NormalClipped m s _ _ => Some (m, s)
  | _ => None
  end.

(** The bounds of the clipping range, a missing key being unbounded. *)
Definition clip_range (p : param) : option (bound * bound) :=
  match p with
  | Redraw _ _ lo hi => Some (lo, hi)
  | NormalClipped _ _ low high =>
      Some (match low with Some l => Fin l | None => NegInf end,
            match high with Some u => Fin u | None => PosInf end)
  | _ => None
  end.

(** [x] lies in the closed range between two bounds. *)
Definition within (r : bound * bound) (x : Q) : Prop :=
  match fst r with NegInf => True | Fin l => l <= x | PosInf => False end
  /\ match snd r with NegInf => False | Fin u => x <= u | PosInf => True end.

(** ** The fields of the derived parameters *)

(** [__derive_parameters] raises only in its thalamic part; the other
    attributes do not depend on it. *)
Definition scaled_num_synapses (h : helpers) (nd : net_dict) : list (list Z) :=
  map (map (fun e => Np.round (e * N_scaling nd * K_scaling nd)))
    (num_synapses_from_conn_probs h (conn_probs nd)
       (full_num_neurons nd) (full_num_neurons nd)).

(** ** A small configuration to run the model on *)

(** The functions of [helpers.py] are not among the sources.  The
    stand-ins below follow what the specification says of them and are
    used only to run the model on concrete dictionaries. *)

(** Modelled from the spec: numpy's square root, exact on the squares of
    rationals, which is all the demonstration feeds it. *)
Definition demo_sqrt (x : Q) : Q :=
  Z.sqrt (Qnum x) # Pos.sqrt (Qden x).

(** Modelled from the spec: [helpers.num_synapses_from_conn_probs], with
    the expected count of a pair taken as in the scenario of the testable
    properties: probability times the size of one population times the
    size of the other ([0.2 * 100 * 25 = 500]). *)
Definition demo_num_synapses (probs : list (list Q)) (popsize1 popsize2 : list Z)
  : list (list Q) :=
  map (fun rn =>
         map (fun pm => fst pm * inject_Z (snd rn) * inject_Z (snd pm))
           (combine (fst rn) popsize2))
    (combine probs popsize1).

Definition demo_dot (a b : list Q) : Q :=
  fold_right Qplus 0 (map (fun ab => fst ab * snd ab) (combine a b)).

(** Modelled from the spec: [helpers.adjust_weights_and_input_to_synapse_scaling],
    the rescaling correction that keeps mean and fluctuation of the total
    input when indegrees are scaled by [K]: weights and external weight
    grow by [1 / sqrt K] (larger weight, fewer synapses), and the mean
    input lost that way, recurrent and, under Poisson drive, external, is
    handed back as bias. *)
Definition demo_adjust (full_num_neurons : list Z)
  (full_num_synapses : list (list Q)) (K : Q) (W : list (list Q)) (PSC_ext : Q)
  (tau : Q) (rates : list Q) (DC : list Q) (poisson : bool) (bg : Q)
  (Kext : list Z) : list (list Q) * Q * list Q :=
  let s := demo_sqrt K in
  let input_rec :=
    map (fun r =>
           demo_dot (map (fun ws => fst ws * (snd ws / inject_Z (snd r)))
                       (combine (fst (fst r)) (snd (fst r)))) rates)
      (combine (combine W full_num_synapses) full_num_neurons) in
  let DC_rec :=
    map (fun di => fst di + 0.001 * tau * (1 - s) * snd di)
      (combine DC input_rec) in
  let DC_new :=
    if poisson then
      map (fun dk => fst dk + 0.001 * tau * (1 - s)
                              * (PSC_ext * inject_Z (snd dk) * bg))
        (combine DC_rec Kext)
    else DC_rec in
  (Np.mat_scale W (/ s), PSC_ext / s, DC_new).

(** Modelled from the spec: the helpers as a whole.  The
    potential-to-current factor stands for any conversion fixed by the
    capacitance and the two time constants; the compensatory bias is the
    mean current the Poisson drive would have delivered (rate times
    external indegree times external weight times synaptic time
    constant, in seconds). *)
Definition demo_helpers : helpers :=
  {| num_synapses_from_conn_probs := demo_num_synapses;
     postsynaptic_potential_to_current := fun C tm ts => C / (tm * ts);
     dc_input_compensating_poisson := fun bg Kext tau PSC_ext =>
       map (fun k => bg * inject_Z k * PSC_ext * tau * 0.001) Kext;
     adjust_weights_and_input_to_synapse_scaling := demo_adjust;
     np_sqrt := demo_sqrt |}.

Definition demo_neuron_params : neuron_params :=
  {| C_m := 250; tau_m := 10; tau_syn := 0.5; E_L := -65; V_th := -50;
     V_reset := -65; t_ref := 2;
     V0_mean_optimized := [-68.28; -63.16];
     V0_std_optimized := [5.36; 4.57];
     V0_mean_original := -58; V0_std_original := 10 |}.

Definition demo_net (N K : Q) (poisson : bool) (v0 : string) : net_dict :=
  {| populations := ["E"%string; "I"%string];
     conn_probs := [[0.1; 0.2]; [0.15; 0.05]];
     full_num_neurons := [100%Z; 25%Z];
     N_scaling := N;
     K_scaling := K;
     K_ext := [1600%Z; 1500%Z];
     PSP_matrix_mean := [[0.15; -0.6]; [0.15; -0.6]];
     PSP_exc_mean := 0.15;
     poisson_input := poisson;
     bg_rate := 8;
     full_mean_rates := [0.9; 2.9];
     neuron_model := "iaf_psc_exp";
     synapse_type := "static_synapse";
     V0_type := v0;
     weight_rel_std := 0.1;
     delay_matrix_mean := [[1.5; 0.75]; [1.5; 0.75]];
     delay_rel_std := 0.5;
     delay_poisson := 1.5;
     neuron_params_of := demo_neuron_params |}.

Definition demo_stim (thalamic dc : bool) : stim_dict :=
  {| thalamic_input := thalamic; dc_input := dc;
     conn_probs_th := [0.05; 0.02];
     num_th_neurons := 9;
     PSP_th := 0.15;
     th_rate := 120; th_start := 700; th_duration := 10;
     delay_th_mean := 1.5; delay_th_rel_std := 0.5;
     dc_amp := 0.3; dc_start := 650; dc_dur := 100 |}.

Definition demo_sim : sim_dict :=
  {| data_path := "data";
     rec_dev := ["spike_recorder"%string];
     local_num_threads := 2;
     sim_resolution := 0.1;
     rec_V_int := 1 |}.

Definition no_plan : derived :=
  {| num_pops := 0; num_neurons := []; num_synapses := []; ext_indegrees := [];
     weight_matrix_mean := []; weight_ext := 0; DC_amp := [];
     weight_th := None; num_th_synapses := None |}.

Definition demo_plan (nd : net_dict) (st : stim_dict) : result derived :=
  derive_parameters demo_helpers nd st.

(** The object [__init__] builds on rank 0 from the demonstration
    dictionaries, for a configuration on which deriving succeeds. *)
Definition demo_object (v : version) (nd : net_dict) (st : stim_dict) : network :=
  {| sim := demo_sim; net := nd; stim := st;
     plan := match demo_plan nd st with Ok p => p | Raise _ => no_plan end;
     nest_version := v; rank := 0 |}.

Definition demo_start : state := initial_state demo_sim.

(** ** The thalamic channel *)

(** The two thalamic attributes of an outcome of [__derive_parameters]. *)
Definition thalamic_of (r : result derived)
  : result (option Q * option (list Z)) :=
  match r with
  | Ok p => Ok (weight_th p, num_th_synapses p)
  | Raise e => Raise e
  end.

(** The same network dictionary with another [N_scaling]. *)
Definition with_N_scaling (nd : net_dict) (N : Q) : net_dict :=
  {| populations := populations nd; conn_probs := conn_probs nd;
     full_num_neurons := full_num_neurons nd;
     N_scaling := N;
     K_scaling := K_scaling nd; K_ext := K_ext nd;
     PSP_matrix_mean := PSP_matrix_mean nd; PSP_exc_mean := PSP_exc_mean nd;
     poisson_input := poisson_input nd; bg_rate := bg_rate nd;
     full_mean_rates := full_mean_rates nd; neuron_model := neuron_model nd;
     synapse_type := synapse_type nd; V0_type := V0_type nd;
     weight_rel_std := weight_rel_std nd;
     delay_matrix_mean := delay_matrix_mean nd;
     delay_rel_std := delay_rel_std nd; delay_poisson := delay_poisson nd;
     neuron_params_of := neuron_params_of nd |}.

(** The same helpers with another indegree correction. *)
Definition with_adjust (h : helpers)
  (adj : list Z -> list (list Q) -> Q -> list (list Q) -> Q -> Q -> list Q ->
         list Q -> bool -> Q -> list Z -> list (list Q) * Q * list Q)
  : helpers :=
  {| num_synapses_from_conn_probs := num_synapses_from_conn_probs h;
     postsynaptic_potential_to_current := postsynaptic_potential_to_current h;
     dc_input_compensating_poisson := dc_input_compensating_poisson h;
     adjust_weights_and_input_to_synapse_scaling := adj;
     np_sqrt := np_sqrt h |}.

(** The full-scale expected thalamic counts: thalamic population as
    source, full-scale cortical populations as targets. *)
Definition expected_th (h : helpers) (nd : net_dict) (st : stim_dict)
  : result (list Q) :=
  index (num_synapses_from_conn_probs h [conn_probs_th st]
           [num_th_neurons st] (full_num_neurons nd)) 0.

(** The thalamic weight before any indegree scaling. *)
Definition full_weight_th (h : helpers) (nd : net_dict) (st : stim_dict) : Q :=
  PSP_th st *
  postsynaptic_potential_to_current h
    (C_m (neuron_params_of nd)) (tau_m (neuron_params_of nd))
    (tau_syn (neuron_params_of nd)).

(** What [__create_thalamic_stim_input] asks of the kernel. *)
Definition thalamic_creation (N : network) (k : nest_kernel) : list event :=
  [EvCreate "parrot_neuron" (num_th_neurons (stim N)) [];
   EvCreate "poisson_generator" 1 [];
   EvSetStatus
     {| nc_first := network_size k + num_th_neurons (stim N) + 1; nc_n := 1 |}
     [("rate"%string, Const (th_rate (stim N)));
      ("start"%string, Const (th_start (stim N)));
      ("stop"%string, Const (th_start (stim N) + th_duration (stim N)))]].

(** ** The bias current *)

(** The external weight after conversion to a current. *)
Definition converted_weight_ext (h : helpers) (nd : net_dict) : Q :=
  PSP_exc_mean nd *
  postsynaptic_potential_to_current h
    (C_m (neuron_params_of nd)) (tau_m (neuron_params_of nd))
    (tau_syn (neuron_params_of nd)).

(** The answer of the indegree correction to the call made by
    [__derive_parameters]. *)
Definition indegree_correction (h : helpers) (nd : net_dict)
  : list (list Q) * Q * list Q :=
  adjust_weights_and_input_to_synapse_scaling h
    (full_num_neurons nd)
    (num_synapses_from_conn_probs h (conn_probs nd)
       (full_num_neurons nd) (full_num_neurons nd))
    (K_scaling nd)
    (Np.mat_scale (PSP_matrix_mean nd)
       (postsynaptic_potential_to_current h
          (C_m (neuron_params_of nd)) (tau_m (neuron_params_of nd))
          (tau_syn (neuron_params_of nd))))
    (converted_weight_ext h nd)
    (tau_syn (neuron_params_of nd))
    (full_mean_rates nd)
    (DC_amp_before_scaling h nd (converted_weight_ext h nd))
    (poisson_input nd) (bg_rate nd) (K_ext nd).

(** ** What a method does to the kernel

    The [__create_*] and [__connect_*] methods only add nodes, settings
    and connections: they leave the resolution, the clock and the
    prepared flag alone.  [yields r P V m] says that [m], started on a
    kernel of resolution [r], adds only events satisfying [P] and, when
    it returns, returns a value satisfying [V]. *)

Definition grows (P : event -> Prop) (k k' : nest_kernel) : Prop :=
  resolution k' = resolution k
  /\ prepared k' = prepared k
  /\ biological_time k' = biological_time k
  /\ exists evs, trace k' = trace k ++ evs /\ Forall P evs.

Definition yields {A} (r : Q) (P : event -> Prop) (V : A -> Prop) (m : M A)
  : Prop :=
  forall s, resolution (kernel s) = r ->
    grows P (kernel s) (kernel (snd (m s)))
    /\ forall a, fst (m s) = Ok a -> V a.

Definition any {A} : A -> Prop := fun _ => True.

(** ** The synapse dictionaries *)

(** The recurrent dictionary for mean weight [w] and mean delay [d],
    read off a kernel of resolution [res]. *)
Definition recurrent_syn (N : network) (res w d : Q) (sd : syn_spec) : Prop :=
  syn_model sd = Some (synapse_type (net N))
  /\ syn_weight sd =
     Some (match nest_version N with
           | V3 =>
               if Qlt_bool w 0
               then Redraw w (Qabs (w * weight_rel_std (net N))) NegInf (Fin 0)
               else Redraw w (Qabs (w * weight_rel_std (net N))) (Fin 0) PosInf
           | V2 =>
               if Qlt_bool w 0
               then NormalClipped w (Qabs (w * weight_rel_std (net N)))
                      None (Some 0)
               else NormalClipped w (Qabs (w * weight_rel_std (net N)))
                      (Some 0) None
           end)
  /\ syn_delay sd =
     Some (match nest_version N with
           | V3 => Redraw d (d * delay_rel_std (net N))
                     (Fin (res - 0.5 * res)) PosInf
           | V2 => NormalClipped d (d * delay_rel_std (net N))
                     (Some (sim_resolution (sim N))) None
           end).

(** ** Signed weights *)


(** A recurrent connection as [__connect_neuronal_populations] makes it
    on a kernel of resolution [r]: a fixed total number of synapses, not
    negative, read from [num_synapses] at the pair whose mean weight and
    mean delay the synapse dictionary carries. *)
Definition recurrent_connection (N : network) (r : Q) (e : event) : Prop :=
  exists c n sd i j w d,
    e = EvConnect c
    /\ conn_spec c = Some (fixed_total_number n)
    /\ (0 <= n)%Z
    /\ index2 (num_synapses (plan N)) i j = Ok n
    /\ index2 (weight_matrix_mean (plan N)) i j = Ok w
    /\ index2 (delay_matrix_mean (net N)) i j = Ok d
    /\ syn c = Some sd
    /\ recurrent_syn N r w d sd.


(** ** Floored delays *)

(** The lower end of the delay range under each engine revision. *)
Definition delay_low (v : version) (dt : Q) : Q :=
  match v with V3 => dt / 2 | V2 => dt end.

(** A delay description for mean [d] and relative spread [sigma] on a
    kernel of resolution [dt]. *)
Definition delay_clipped (v : version) (dt d sigma : Q) (p : param) : Prop :=
  normal_of p = Some (d, d * sigma)
  /\ (exists lo,
        clip_range p = Some (Fin lo, PosInf) /\ lo == delay_low v dt)
  /\ (forall x draws,
        x < delay_low v dt -> sample p (x :: draws) = sample p draws)
  /\ (forall draws,
        (exists x, In x draws /\ accepts p x = true) ->
        exists y, sample p draws = Some y)
  /\ (forall draws x,
        sample p draws = Some x ->
        In x draws /\ delay_low v dt <= x /\ (0 <= dt -> dt / 2 <= x)).

(** The thalamic dictionary for weight [w], read off a kernel of
    resolution [res]. *)
Definition thalamic_syn (N : network) (res w : Q) (sd : syn_spec) : Prop :=
  syn_model sd = None
  /\ syn_weight sd =
     Some (match nest_version N with
           | V3 => Redraw w (w * weight_rel_std (net N)) (Fin 0) PosInf
           | V2 => NormalClipped w (w * weight_rel_std (net N)) (Some 0) None
           end)
  /\ syn_delay sd =
     Some (match nest_version N with
           | V3 => Redraw (delay_th_mean (stim N))
                     (delay_th_mean (stim N) * delay_th_rel_std (stim N))
                     (Fin (res - 0.5 * res)) PosInf
           | V2 => NormalClipped (delay_th_mean (stim N))
                     (delay_th_mean (stim N) * delay_th_rel_std (stim N))
                     (Some (sim_resolution (sim N))) None
           end).

(** ** The connections [connect] makes *)

(** A thalamic connection on a kernel of resolution [r]. *)
Definition thalamic_connection (N : network) (r : Q) (e : event) : Prop :=
  exists c n sd w,
    e = EvConnect c
    /\ conn_spec c = Some (fixed_total_number n)
    /\ syn c = Some sd
    /\ weight_th (plan N) = Some w
    /\ thalamic_syn N r w sd.

(** A connection to or from a device: all-to-all or the engine default. *)
Definition plain_connection (e : event) : Prop :=
  exists c,
    e = EvConnect c /\ (conn_spec c = None \/ conn_spec c = Some all_to_all).

Definition connection (N : network) (r : Q) (e : event) : Prop :=
  recurrent_connection N r e \/ thalamic_connection N r e \/ plain_connection e.

(** [connect] up to, and without, its closing [nest.Prepare()]. *)
Definition connect_steps (N : network) : M unit :=
  connect_neuronal_populations N ;;
  when (0 <? List.length (rec_dev (sim N)))%nat (connect_recording_devices N) ;;
  when (poisson_input (net N)) (connect_poisson_bg_input N) ;;
  when (thalamic_input (stim N)) (connect_thalamic_stim_input N) ;;
  when (dc_input (stim N)) (connect_dc_stim_input N).

(** The delay of a connection with a fixed total number of synapses. *)
Definition delay_floored (N : network) (e : event) : Prop :=
  forall c n,
    e = EvConnect c -> conn_spec c = Some (fixed_total_number n) ->
    exists sd p d sigma,
      syn c = Some sd
      /\ syn_delay sd = Some p
      /\ delay_clipped (nest_version N) (sim_resolution (sim N)) d sigma p.

(** ** Simulating more than once *)

(** What one [simulate(t)] adds to the trace, on a kernel that was or was
    not prepared. *)
Definition sim_events (was_prepared : bool) (t : Q) : list event :=
  (if was_prepared then [] else [EvPrepare]) ++ [EvRun t; EvCleanup].

(** What one [simulate(t)] prints. *)
Definition sim_output (N : network) (was_prepared : bool) : list string :=
  (if (rank N =? 0)%Z then ["Simulating."%string] else [])
  ++ (if was_prepared then [already_prepared_message] else []).

(** Several [simulate] calls in a row. *)
Definition simulate_all (N : network) (ts : list Q) : M unit :=
  for_each ts (simulate N).

(** The clock after running for each duration in turn. *)
Definition clock_after (t0 : Q) (ts : list Q) : Q := fold_left Qplus ts t0.

(** The events of several [simulate] calls: after the first one the
    kernel is never found prepared. *)
Definition sim_events_all (was_prepared : bool) (ts : list Q) : list event :=
  match ts with
  | [] => []
  | t :: rest => sim_events was_prepared t ++ flat_map (sim_events false) rest
  end.

(** ** Events of creation *)

Definition creation (e : event) : Prop := is_create e = true.

(** ** The whole sequence *)

(** [net.create(); net.connect(); net.simulate(t)]. *)
Definition build_and_run (N : network) (t : Q) : M unit :=
  create N ;; connect N ;; simulate N t.


(** ** Reading the kernel *)

(** [Network.get_network_size]: [nest.GetKernelStatus('network_size')]. *)
Definition get_network_size : M Z :=
  fun s => (Ok (network_size (kernel s)), s).


(** ** Seeds under engine revision 2 *)

(** [list(range(a, b))]. *)
Definition py_range (a b : Z) : list Z :=
  map (fun i => (a + Z.of_nat i)%Z) (seq 0 (Z.to_nat (b - a))).

(** The seeds [__setup_nest] derives under revision 2 from the master
    seed and the number of virtual processes: those of the Python
    generators, the one of the global generator, those of the generators
    of the virtual processes. *)
Record seeds : Type := {
  pyrng_seeds : list Z;
  grng_seed : Z;
  rng_seeds : list Z
}.

Definition setup_seeds (master_seed : Z) (N_vp : nat) : seeds :=
  {| pyrng_seeds := py_range master_seed (master_seed + Z.of_nat N_vp);
     grng_seed := (master_seed + Z.of_nat N_vp)%Z;
     rng_seeds :=
       map (fun i => (master_seed + Z.of_nat N_vp + 1 + Z.of_nat i)%Z)
         (seq 0 N_vp) |}.

Definition all_seeds (sd : seeds) : list Z :=
  pyrng_seeds sd ++ grng_seed sd :: rng_seeds sd.

(** ** Pre- and postconditions of a method

    [hoare Pre m Post Err]: started in a state satisfying [Pre], the
    method [m] either returns a value and a state satisfying [Post] or
    raises an exception, leaving a state, satisfying [Err]. *)
Definition hoare {A} (Pre : state -> Prop) (m : M A)
  (Post : A -> state -> Prop) (Err : exn -> state -> Prop) : Prop :=
  forall s, Pre s ->
    match m s with
    | (Ok a, s') => Post a s'
    | (Raise e, s') => Err e s'
    end.

(** [m] keeps the invariant [I], also when it raises, and raises only
    exceptions satisfying [E]. *)
Definition keeps {A} (I : state -> Prop) (E : exn -> Prop) (m : M A) : Prop :=
  hoare I m (fun _ => I) (fun e s => I s /\ E e).

Definition any_exn : exn -> Prop := fun _ => True.

(** ** Using the object *)

(** The calls a script makes on a [Network] object. *)
Inductive call : Type :=
| CallCreate
| CallConnect
| CallSimulate (t : Q).

Definition perform (N : network) (c : call) : M unit :=
  match c with
  | CallCreate => create N
  | CallConnect => connect N
  | CallSimulate t => simulate N t
  end.

(** The state after a series of calls, made one after the other whatever
    their outcome, as at an interactive prompt. *)
Fixpoint session (N : network) (cs : list call) (s : state) : state :=
  match cs with
  | [] => s
  | c :: rest => session N rest (exec (perform N c) s)
  end.


(** ** Node identifiers *)

(** Collections of the given sizes, numbered one after the other from
    [first] on. *)
Fixpoint allocate (first : Z) (ns : list Z) : list node_collection :=
  match ns with
  | [] => []
  | n :: rest => {| nc_first := first; nc_n := n |} :: allocate (first + n) rest
  end.

Definition total (ns : list Z) : Z := fold_right Z.add 0%Z ns.

(** The line of the file of node identifiers for a population: its first
    and last identifier. *)
Definition id_line (c : node_collection) : Z * Z :=
  (nc_first c, (nc_first c + nc_n c - 1)%Z).

(** Each line starts right after the one before it ends. *)
Fixpoint contiguous (from : Z) (lines : list (Z * Z)) : Prop :=
  match lines with
  | [] => True
  | (a, b) :: rest => a = from /\ contiguous (b + 1) rest
  end.

(** Anything may be raised, in any state. *)
Definition anyhow : exn -> state -> Prop := fun _ _ => True.

(** The invariant of the loop over the populations in
    [__create_neuronal_populations], after [k] rounds from a kernel of
    size [z0] and files [fs0]. *)
Definition populated (N : network) (z0 : Z)
  (fs0 : list (string * list (Z * Z))) (k : nat) (s : state) : Prop :=
  List.length (firstn k (num_neurons (plan N))) = k
  /\ pops (self s) = Some (allocate (z0 + 1) (firstn k (num_neurons (plan N))))
  /\ network_size (kernel s) = (z0 + total (firstn k (num_neurons (plan N))))%Z
  /\ files s = fs0.

(** Within round [k] of that loop, once the population [pop] of size [n]
    has been created. *)
Definition populating (N : network) (z0 : Z)
  (fs0 : list (string * list (Z * Z))) (k : nat) (n : Z)
  (pop : node_collection) (s : state) : Prop :=
  nth_error (num_neurons (plan N)) k = Some n
  /\ List.length (firstn k (num_neurons (plan N))) = k
  /\ pop = {| nc_first := z0 + total (firstn k (num_neurons (plan N))) + 1;
              nc_n := n |}
  /\ pops (self s) = Some (allocate (z0 + 1) (firstn k (num_neurons (plan N))))
  /\ network_size (kernel s)
     = (z0 + total (firstn k (num_neurons (plan N))) + n)%Z
  /\ files s = fs0.

(** ** The attributes [connect] reads *)

(** Those attributes among the seven that the propositions ask for have
    been assigned. *)
Definition have (p1 p2 p3 p4 p5 p6 p7 : Prop) (a : attrs) : Prop :=
  (p1 -> pops a <> None)
  /\ (p2 -> spike_recorders a <> None)
  /\ (p3 -> voltmeters a <> None)
  /\ (p4 -> poisson_bg_input a <> None)
  /\ (p5 -> thalamic_population a <> None)
  /\ (p6 -> poisson_th a <> None)
  /\ (p7 -> dc_stim_input a <> None).

(** All the attributes the dictionaries make [connect] read have been
    assigned. *)
Definition ready (N : network) (a : attrs) : Prop :=
  have True
    (elem "spike_recorder" (rec_dev (sim N)) = true)
    (elem "voltmeter" (rec_dev (sim N)) = true)
    (poisson_input (net N) = true)
    (thalamic_input (stim N) = true)
    (thalamic_input (stim N) = true)
    (dc_input (stim N) = true) a.

(** The derived parameters hold the thalamic attributes when the
    thalamic stimulus is on, as [__derive_parameters] leaves them. *)
Definition thalamic_derived (N : network) : Prop :=
  thalamic_input (stim N) = true ->
  weight_th (plan N) <> None /\ num_th_synapses (plan N) <> None.

Definition only_index : exn -> Prop := fun e => e = IndexError.

(** ** Thalamic weights *)

(** A thalamic connection whose drawn weights are never negative, or a
    connection that is not one of a fixed total number. *)
Definition thalamic_weight_kept (N : network) (e : event) : Prop :=
  forall c n,
    e = EvConnect c -> conn_spec c = Some (fixed_total_number n) ->
    exists sd p w,
      syn c = Some sd
      /\ syn_weight sd = Some p
      /\ weight_th (plan N) = Some w
      /\ normal_of p = Some (w, w * weight_rel_std (net N))
      /\ clip_range p = Some (Fin 0, PosInf)
      /\ forall draws x, sample p draws = Some x -> 0 <= x.

(** ** The connections as lists *)

(** The state with further events at the end of the trace of its kernel. *)
Definition emit (s : state) (evs : list event) : state :=
  {| kernel :=
       {| resolution := resolution (kernel s);
          network_size := network_size (kernel s);
          prepared := prepared (kernel s);
          biological_time := biological_time (kernel s);
          trace := trace (kernel s) ++ evs |};
     self := self s;
     stdout := stdout s;
     files := files s |}.

(** The synapse dictionary of the Poisson background connections. *)
Definition poisson_syn (N : network) : syn_spec :=
  {| syn_model := Some (synapse_type (net N));
     syn_weight := Some (Const (weight_ext (plan N)));
     syn_delay := Some (Const (delay_poisson (net N))) |}.

(** The connections [__connect_poisson_bg_input] makes from the
    generators [bg] to the populations [ps]: generator [i] to
    population [i]. *)
Definition poisson_events (N : network) (bg : node_collection)
  (ps : list node_collection) : list event :=
  map (fun tgt =>
         EvConnect
           {| source := {| nc_first := nc_first bg + Z.of_nat (fst tgt);
                           nc_n := 1 |};
              target := snd tgt;
              conn_spec := Some all_to_all;
              syn := Some (poisson_syn N) |})
    (enumerate ps).

(** The recurrent synapse dictionary for mean weight [w] and mean delay
    [d] on a kernel of resolution [res], as the two branches of
    [__connect_neuronal_populations] build it. *)
Definition recurrent_syn_of (N : network) (res w d : Q) : syn_spec :=
  match nest_version N with
  | V3 =>
      let '(w_min, w_max) :=
        if Qlt_bool w 0 then (NegInf, Fin 0) else (Fin 0, PosInf) in
      {| syn_model := Some (synapse_type (net N));
         syn_weight :=
           Some (Redraw w (Qabs (w * weight_rel_std (net N))) w_min w_max);
         syn_delay :=
           Some (Redraw d (d * delay_rel_std (net N))
                   (Fin (res - 0.5 * res)) PosInf) |}
  | V2 =>
      let weight low high :=
        NormalClipped w (Qabs (w * weight_rel_std (net N))) low high in
      {| syn_model := Some (synapse_type (net N));
         syn_weight :=
           Some (if Qlt_bool w 0 then weight None (Some 0)
                 else weight (Some 0) None);
         syn_delay :=
           Some (NormalClipped d (d * delay_rel_std (net N))
                   (Some (sim_resolution (sim N))) None) |}
  end.

(** The connection of the pair (target [tgt], source [src]), if its
    synapse count is not negative. *)
Definition recurrent_event (N : network) (res : Q)
  (tgt src : nat * node_collection) : list event :=
  let n := Np.at2 0%Z (num_synapses (plan N)) (fst tgt) (fst src) in
  if (0 <=? n)%Z then
    [EvConnect
       {| source := snd src;
          target := snd tgt;
          conn_spec := Some (fixed_total_number n);
          syn :=
            Some (recurrent_syn_of N res
                    (Np.at2 0 (weight_matrix_mean (plan N)) (fst tgt) (fst src))
                    (Np.at2 0 (delay_matrix_mean (net N)) (fst tgt) (fst src)))
       |}]
  else [].

(** The connections [__connect_neuronal_populations] makes among the
    populations [ps], target by target and, for each target, source by
    source. *)
Definition recurrent_events (N : network) (res : Q)
  (ps : list node_collection) : list event :=
  flat_map (fun tgt => flat_map (recurrent_event N res tgt) (enumerate ps))
    (enumerate ps).

(** The array has an entry at every pair of indices below [P]. *)
Definition square {A} (P : nat) (a : list (list A)) : Prop :=
  forall i j, (i < P)%nat -> (j < P)%nat -> exists x, index2 a i j = Ok x.

(** The connections [__connect_recording_devices] makes for the
    populations [ps]: each population to the spike recorder of its rank
    in [sr], and the voltmeter of its rank in [vm] to the population. *)
Definition recording_events (N : network) (sr vm : node_collection)
  (ps : list node_collection) : list event :=
  flat_map
    (fun tgt =>
       (if elem "spike_recorder" (rec_dev (sim N)) then
          [EvConnect
             {| source := snd tgt;
                target := {| nc_first := nc_first sr + Z.of_nat (fst tgt);
                             nc_n := 1 |};
                conn_spec := None; syn := None |}]
        else [])
       ++ (if elem "voltmeter" (rec_dev (sim N)) then
             [EvConnect
                {| source := {| nc_first := nc_first vm + Z.of_nat (fst tgt);
                                nc_n := 1 |};
                   target := snd tgt;
                   conn_spec := None; syn := None |}]
           else []))
    (enumerate ps).

(** ** Counting the nodes [create] makes *)

(** The DC generators [__create_dc_stim_input] makes: one per population
    under engine revision 3; under revision 2 one collection of that
    many for every entry of [K_ext]. *)
Definition dc_generators (N : network) : Z :=
  match nest_version N with
  | V3 => Z.of_nat (num_pops (plan N))
  | V2 => (Z.of_nat (List.length (K_ext (net N))) * Z.of_nat (num_pops (plan N)))%Z
  end.

(** The nodes a completed [create] has made. *)
Definition nodes_created (N : network) : Z :=
  (total (firstn (num_pops (plan N)) (num_neurons (plan N)))
   + (if elem "spike_recorder" (rec_dev (sim N))
      then Z.of_nat (num_pops (plan N)) else 0)
   + (if elem "voltmeter" (rec_dev (sim N))
      then Z.of_nat (num_pops (plan N)) else 0)
   + (if poisson_input (net N) then Z.of_nat (num_pops (plan N)) else 0)
   + (if thalamic_input (stim N) then num_th_neurons (stim N) + 1 else 0)
   + (if dc_input (stim N) then dc_generators N else 0))%Z.

(** The kernel holds [z] nodes. *)
Definition sized (z : Z) (s : state) : Prop := network_size (kernel s) = z.

(** Nothing has been printed or written since the console showed [o] and
    the files were [f]. *)
Definition quiet (o : list string) (f : list (string * list (Z * Z)))
  (s : state) : Prop :=
  stdout s = o /\ files s = f.

(** The same object on another rank. *)
Definition on_rank (N : network) (r : Z) : network :=
  {| sim := sim N; net := net N; stim := stim N; plan := plan N;
     nest_version := nest_version N; rank := r |}.

(** ** The DC generators *)

(** How many handles [__create_dc_stim_input] leaves in
    [self.dc_stim_input]. *)
Definition dc_slots (N : network) : nat :=
  match nest_version N with
  | V3 => num_pops (plan N)
  | V2 => List.length (K_ext (net N))
  end.

(** [self.dc_stim_input[i]] after [__create_dc_stim_input] on a kernel
    of [z] nodes: one generator under engine revision 3, a whole
    collection of [num_pops] generators under revision 2. *)
Definition dc_source (N : network) (z : Z) (i : nat) : node_collection :=
  match nest_version N with
  | V3 => {| nc_first := z + 1 + Z.of_nat i; nc_n := 1 |}
  | V2 => {| nc_first := z + Z.of_nat i * Z.of_nat (num_pops (plan N)) + 1;
             nc_n := Z.of_nat (num_pops (plan N)) |}
  end.

(** [self.dc_stim_input] after [__create_dc_stim_input] on a kernel of
    [z] nodes. *)
Definition dc_made (N : network) (z : Z) : dc_handles :=
  match nest_version N with
  | V3 => DcCollection {| nc_first := z + 1;
                          nc_n := Z.of_nat (num_pops (plan N)) |}
  | V2 => DcList (map (dc_source N z) (seq 0 (List.length (K_ext (net N)))))
  end.

(** The connections [__connect_dc_stim_input] makes for the populations
    [ps] with the generators made on a kernel of [z] nodes. *)
Definition dc_events (N : network) (z : Z) (ps : list node_collection)
  : list event :=
  map (fun tgt =>
         EvConnect {| source := dc_source N z (fst tgt); target := snd tgt;
                      conn_spec := None; syn := None |})
    (enumerate ps).

Definition never : exn -> state -> Prop := fun _ _ => False.

(** * Properties *)

(** ** Rounding *)

Example round_500 : Np.round (0.2 * 100 * 25) = 500%Z.
Proof. reflexivity. Qed.

Example round_half_even_low : Np.round (1 # 2) = 0%Z.
Proof. reflexivity. Qed.

Example round_half_even_up : Np.round (3 # 2) = 2%Z.
Proof. reflexivity. Qed.

Example round_half_even_mid : Np.round (5 # 2) = 2%Z.
Proof. reflexivity. Qed.

Example round_neg : Np.round (- (7 # 4)) = (-2)%Z.
Proof. reflexivity. Qed.

Lemma round_compat (x y : Q) : x == y -> Np.round x = Np.round y.
Proof.
  intros E. unfold Np.round.
  rewrite (Qfloor_comp _ _ E).
  assert (C : Qcompare (x - inject_Z (Qfloor y)) (1 # 2)
              = Qcompare (y - inject_Z (Qfloor y)) (1 # 2)).
  { apply Qcompare_comp; [rewrite E|]; reflexivity. }
  rewrite C. reflexivity.
Qed.

Lemma round_zero : Np.round 0 = 0%Z.
Proof. reflexivity. Qed.

Lemma round_floor_or_next (x : Q) :
  Np.round x = Qfloor x \/ Np.round x = (Qfloor x + 1)%Z.
Proof.
  unfold Np.round.
  destruct (Qcompare (x - inject_Z (Qfloor x)) (1 # 2));
    [destruct (Z.even (Qfloor x))|..]; auto.
Qed.

Lemma round_nonneg (x : Q) : 0 <= x -> (0 <= Np.round x)%Z.
Proof.
  intros H.
  assert (F : (0 <= Qfloor x)%Z).
  { change 0%Z with (Qfloor (inject_Z 0)) at 1.
    rewrite Qfloor_Z. apply (Qfloor_resp_le 0 x) in H.
    exact H. }
  destruct (round_floor_or_next x) as [-> | ->]; lia.
Qed.


(** ** Indexing mapped arrays *)

Lemma index_map {A B} (f : A -> B) (l : list A) (i : nat) :
  index (map f l) i =
  match index l i with Ok x => Ok (f x) | Raise e => Raise e end.
Proof.
  unfold index. rewrite nth_error_map.
  destruct (nth_error l i); reflexivity.
Qed.

Lemma index2_map {A B} (f : A -> B) (a : list (list A)) (i j : nat) :
  index2 (map (map f) a) i j =
  match index2 a i j with Ok x => Ok (f x) | Raise e => Raise e end.
Proof.
  unfold index2. rewrite index_map.
  destruct (index a i); [apply index_map | reflexivity].
Qed.

Lemma index_raise {A} (l : list A) (i : nat) (e : exn) :
  index l i = Raise e -> e = IndexError.
Proof.
  unfold index. destruct (nth_error l i); congruence.
Qed.

Lemma index2_raise {A} (a : list (list A)) (i j : nat) (e : exn) :
  index2 a i j = Raise e -> e = IndexError.
Proof.
  unfold index2. destruct (index a i) eqn:E.
  - apply index_raise.
  - intros H. injection H as <-. eapply index_raise; eauto.
Qed.

Lemma mat_round_scale_scale (a : list (list Q)) (n k : Q) :
  Np.mat_round (Np.mat_scale (Np.mat_scale a n) k) =
  map (map (fun e => Np.round (e * n * k))) a.
Proof.
  unfold Np.mat_round, Np.mat_scale, Np.vec_round, Np.vec_scale.
  rewrite !map_map. apply map_ext. intros row.
  rewrite !map_map. reflexivity.
Qed.

Lemma derive_num_synapses h nd st p :
  derive_parameters h nd st = Ok p ->
  num_synapses p = scaled_num_synapses h nd.
Proof.
  unfold derive_parameters, scaled_num_synapses.
  rewrite mat_round_scale_scale.
  destruct (if neq1 (K_scaling nd) then _ else _) as [[W E] D].
  destruct (thalamic_input st).
  - destruct (index _ 0); [|discriminate].
    destruct (if neq1 (K_scaling nd) then _ else _) as [c w].
    intros H. injection H as <-. reflexivity.
  - intros H. injection H as <-. reflexivity.
Qed.

(** ** C1: count rounding *)

(** C1.  Whatever the probability matrix and the population sizes, every
    entry of the derived [num_synapses] is the rounding of the full-scale
    expected count times [N_scaling] times [K_scaling], and the derived
    matrix has an entry exactly where the expected matrix has one; an
    expected count of zero gives a count of zero; and when the expected
    counts and both scaling factors are not negative, no derived count is
    negative. *)
Theorem C1_count_rounding (h : helpers) (nd : net_dict) (st : stim_dict)
  (p : derived) :
  derive_parameters h nd st = Ok p ->
  let expected :=
    num_synapses_from_conn_probs h (conn_probs nd)
      (full_num_neurons nd) (full_num_neurons nd) in
  (forall i j,
     index2 (num_synapses p) i j =
     match index2 expected i j with
     | Ok e => Ok (Np.round (e * N_scaling nd * K_scaling nd))
     | Raise x => Raise x
     end)
  /\ (forall i j e,
        index2 expected i j = Ok e -> e == 0 ->
        index2 (num_synapses p) i j = Ok 0%Z)
  /\ (0 <= N_scaling nd -> 0 <= K_scaling nd ->
      (forall i j e, index2 expected i j = Ok e -> 0 <= e) ->
      forall i j n, index2 (num_synapses p) i j = Ok n -> (0 <= n)%Z).
Proof.
  intros D expected.
  rewrite (derive_num_synapses _ _ _ _ D). unfold scaled_num_synapses.
  fold expected.
  assert (R : forall i j,
    index2 (map (map (fun e => Np.round (e * N_scaling nd * K_scaling nd)))
              expected) i j =
    match index2 expected i j with
    | Ok e => Ok (Np.round (e * N_scaling nd * K_scaling nd))
    | Raise x => Raise x
    end) by (intros; apply index2_map).
  split; [exact R|split].
  - intros i j e He Z0. rewrite R, He. f_equal.
    rewrite <- round_zero. apply round_compat. rewrite Z0. ring.
  - intros HN HK Hpos i j n. rewrite R.
    destruct (index2 expected i j) as [e|] eqn:He; [|discriminate].
    intros H. injection H as <-. apply round_nonneg.
    specialize (Hpos _ _ _ He).
    apply Qmult_le_0_compat; [apply Qmult_le_0_compat|]; assumption.
Qed.

(** The scenario of the testable properties: full scale, then indegrees
    halved. *)
Example scenario_full_scale :
  match demo_plan (demo_net 1 1 true "optimized") (demo_stim false false) with
  | Ok p => index2 (num_synapses p) 0 1 = Ok 500%Z
  | Raise _ => False
  end.
Proof. vm_compute. reflexivity. Qed.

Example scenario_half_indegree :
  match demo_plan (demo_net 1 (1 # 2) true "optimized") (demo_stim false false)
  with
  | Ok p => index2 (num_synapses p) 0 1 = Ok 250%Z
  | Raise _ => False
  end.
Proof. vm_compute. reflexivity. Qed.

Ltac small_index i j H :=
  destruct i as [|[|[|i]]]; destruct j as [|[|[|j]]];
  vm_compute in H; try discriminate H.

Lemma C1_count_rounding_witness :
  exists p,
    derive_parameters demo_helpers
      (demo_net (1 # 2) (1 # 4) true "optimized") (demo_stim true false) = Ok p
    /\ index2 (num_synapses p) 0 1 = Ok 62%Z
    /\ forall i j n, index2 (num_synapses p) i j = Ok n -> (0 <= n)%Z.
Proof.
  eexists. split; [vm_compute; reflexivity|].
  pose proof (C1_count_rounding demo_helpers
                (demo_net (1 # 2) (1 # 4) true "optimized")
                (demo_stim true false) _ eq_refl) as [R [_ P]].
  split.
  - rewrite R. vm_compute. reflexivity.
  - apply P.
    + vm_compute. discriminate.
    + vm_compute. discriminate.
    + intros i j e H. small_index i j H;
        injection H as <-; vm_compute; discriminate.
Defined.

(** ** The thalamic attributes *)

Lemma derive_thalamic (h : helpers) (nd : net_dict) (st : stim_dict) :
  thalamic_of (derive_parameters h nd st) =
  if thalamic_input st then
    match expected_th h nd st with
    | Raise e => Raise e
    | Ok row =>
        if neq1 (K_scaling nd) then
          Ok (Some (full_weight_th h nd st / np_sqrt h (K_scaling nd)),
              Some (map (fun n => Np.round (n * K_scaling nd)) row))
        else Ok (Some (full_weight_th h nd st), Some (map Np.round row))
    end
  else Ok (None, None).
Proof.
  unfold derive_parameters, expected_th, full_weight_th.
  destruct (if neq1 (K_scaling nd) then
              adjust_weights_and_input_to_synapse_scaling h _ _ _ _ _ _ _ _ _ _ _
            else _) as [[W E] D].
  destruct (thalamic_input st); [|reflexivity].
  destruct (index _ 0) as [row|e]; [|reflexivity].
  destruct (neq1 (K_scaling nd)); cbn.
  - unfold Np.vec_round, Np.vec_scale. rewrite map_map. reflexivity.
  - reflexivity.
Qed.



(** ** C4: thalamic compensation *)



(** ** C10: the thalamic channel and [N_scaling] *)

Lemma derive_thalamic_N_scaling (h : helpers) (nd : net_dict) (st : stim_dict)
  (N' : Q) :
  thalamic_of (derive_parameters h (with_N_scaling nd N') st) =
  thalamic_of (derive_parameters h nd st).
Proof. rewrite !derive_thalamic. reflexivity. Qed.

Lemma create_thalamic_run (N : network) (s : state) :
  outcome (create_thalamic_stim_input N) s = Ok tt
  /\ trace (kernel (exec (create_thalamic_stim_input N) s)) =
     trace (kernel s) ++ thalamic_creation N (kernel s)
  /\ thalamic_population (self (exec (create_thalamic_stim_input N) s)) =
     Some {| nc_first := network_size (kernel s) + 1;
             nc_n := num_th_neurons (stim N) |}.
Proof.
  unfold outcome, exec, create_thalamic_stim_input, thalamic_creation,
    rank0, when.
  destruct (rank N =? 0)%Z, (nest_version N); cbn;
    rewrite <- ?app_assoc; cbn; auto.
Qed.

(** C10.  The thalamic attributes come out the same for every value of
    [N_scaling]; they are the rounding of the expected counts against the
    full-scale cortical sizes, times [K_scaling] when it is not 1, and
    the thalamic weight, divided by the square root of [K_scaling] when
    it is not 1; the thalamic population is created with
    [num_th_neurons] neurons; the recurrent counts, by contrast, carry
    the factor [N_scaling * K_scaling]. *)
Theorem C10_thalamic_not_N_scaled (h : helpers) (nd : net_dict) (st : stim_dict) :
  (forall N',
     thalamic_of (derive_parameters h (with_N_scaling nd N') st) =
     thalamic_of (derive_parameters h nd st))
  /\ thalamic_of (derive_parameters h nd st) =
     (if thalamic_input st then
        match index (num_synapses_from_conn_probs h [conn_probs_th st]
                       [num_th_neurons st] (full_num_neurons nd)) 0 with
        | Raise e => Raise e
        | Ok row =>
            if neq1 (K_scaling nd) then
              Ok (Some (full_weight_th h nd st / np_sqrt h (K_scaling nd)),
                  Some (map (fun n => Np.round (n * K_scaling nd)) row))
            else Ok (Some (full_weight_th h nd st), Some (map Np.round row))
        end
      else Ok (None, None))
  /\ (forall (N : network) (s : state),
        let s' := exec (create_thalamic_stim_input N) s in
        thalamic_population (self s') =
          Some {| nc_first := network_size (kernel s) + 1;
                  nc_n := num_th_neurons (stim N) |}
        /\ exists later,
             trace (kernel s') =
             trace (kernel s)
             ++ EvCreate "parrot_neuron" (num_th_neurons (stim N)) [] :: later)
  /\ match derive_parameters h nd st with
     | Ok p =>
         num_synapses p =
         map (map (fun e => Np.round (e * N_scaling nd * K_scaling nd)))
           (num_synapses_from_conn_probs h (conn_probs nd)
              (full_num_neurons nd) (full_num_neurons nd))
     | Raise _ => True
     end.
Proof.
  split; [|split; [|split]].
  - intros N'. apply derive_thalamic_N_scaling.
  - apply derive_thalamic.
  - intros N s s'. destruct (create_thalamic_run N s) as [_ [T P]].
    split; [exact P|]. subst s'. rewrite T. eexists. reflexivity.
  - destruct (derive_parameters h nd st) eqn:D; [|exact I].
    apply (derive_num_synapses _ _ _ _ D).
Qed.

Example thalamic_counts_ignore_N_scaling :
  thalamic_of (demo_plan (demo_net (1 # 10) (1 # 4) true "optimized")
                 (demo_stim true false))
  = thalamic_of (demo_plan (demo_net 1 (1 # 4) true "optimized")
                   (demo_stim true false)).
Proof.
  exact (derive_thalamic_N_scaling demo_helpers
           (demo_net 1 (1 # 4) true "optimized") (demo_stim true false)
           (1 # 10)).
Qed.

(** ** C5: the bias current *)

Lemma derive_DC_amp (h : helpers) (nd : net_dict) (st : stim_dict) (p : derived) :
  derive_parameters h nd st = Ok p ->
  DC_amp p =
  if neq1 (K_scaling nd) then snd (indegree_correction h nd)
  else DC_amp_before_scaling h nd (converted_weight_ext h nd).
Proof.
  unfold derive_parameters, indegree_correction, converted_weight_ext.
  destruct (neq1 (K_scaling nd)).
  - destruct (adjust_weights_and_input_to_synapse_scaling h _ _ _ _ _ _ _ _ _ _ _)
      as [[W E] D].
    destruct (thalamic_input st).
    + destruct (index _ 0); [|discriminate].
      intros H. injection H as <-. reflexivity.
    + intros H. injection H as <-. reflexivity.
  - destruct (thalamic_input st).
    + destruct (index _ 0); [|discriminate].
      intros H. injection H as <-. reflexivity.
    + intros H. injection H as <-. reflexivity.
Qed.

(** C5, as the code has it.  With [K_scaling] equal to 1 the derived
    bias is one zero per population when the background drive is a
    Poisson process, and otherwise what the helper computes from the
    background rate, the external indegrees, the synaptic time constant
    and the converted external weight.  With [K_scaling] different from
    1 the derived bias is the bias returned by the indegree correction,
    which was handed that value. *)
Theorem C5_bias_current (h : helpers) (nd : net_dict) (st : stim_dict)
  (p : derived) :
  derive_parameters h nd st = Ok p ->
  (neq1 (K_scaling nd) = false -> poisson_input nd = true ->
   DC_amp p = repeat 0 (List.length (populations nd)))
  /\ (neq1 (K_scaling nd) = false -> poisson_input nd = false ->
      DC_amp p =
      dc_input_compensating_poisson h (bg_rate nd) (K_ext nd)
        (tau_syn (neuron_params_of nd)) (converted_weight_ext h nd))
  /\ (neq1 (K_scaling nd) = true ->
      DC_amp p = snd (indegree_correction h nd)).
Proof.
  intros D. rewrite (derive_DC_amp _ _ _ _ D).
  unfold DC_amp_before_scaling, Np.zeros.
  repeat split; intros; repeat match goal with H : _ = _ |- _ => rewrite H end;
    reflexivity.
Qed.

Lemma C5_bias_current_witness :
  (exists p,
     derive_parameters demo_helpers (demo_net 1 1 true "optimized")
       (demo_stim false false) = Ok p
     /\ DC_amp p = [0; 0])
  /\ (exists p,
        derive_parameters demo_helpers (demo_net 1 1 false "optimized")
          (demo_stim false false) = Ok p
        /\ map Qred (DC_amp p) = [48; 45])
  /\ (exists p,
        derive_parameters demo_helpers (demo_net 1 (1 # 4) true "optimized")
          (demo_stim false false) = Ok p
        /\ DC_amp p =
           snd (indegree_correction demo_helpers
                  (demo_net 1 (1 # 4) true "optimized"))).
Proof.
  split; [|split].
  - assert (R : { p | derive_parameters demo_helpers
                        (demo_net 1 1 true "optimized")
                        (demo_stim false false) = Ok p }).
    { eexists. vm_compute. reflexivity. }
    destruct R as [p D]. exists p. split; [exact D|].
    apply (C5_bias_current _ _ _ _ D); reflexivity.
  - assert (R : { p | derive_parameters demo_helpers
                        (demo_net 1 1 false "optimized")
                        (demo_stim false false) = Ok p }).
    { eexists. vm_compute. reflexivity. }
    destruct R as [p D]. exists p. split; [exact D|].
    rewrite (proj1 (proj2 (C5_bias_current _ _ _ _ D)) eq_refl eq_refl).
    vm_compute. reflexivity.
  - assert (R : { p | derive_parameters demo_helpers
                        (demo_net 1 (1 # 4) true "optimized")
                        (demo_stim false false) = Ok p }).
    { eexists. vm_compute. reflexivity. }
    destruct R as [p D]. exists p. split; [exact D|].
    apply (C5_bias_current _ _ _ _ D); reflexivity.
Defined.

(** The claim as worded fails when the indegrees are scaled: with a
    Poisson background and [K_scaling] = 1/4 the derived bias is not
    zero, because the indegree correction returns the mean input that the
    stronger, fewer synapses no longer deliver. *)
Lemma C5_counterexample :
  exists p,
    derive_parameters demo_helpers (demo_net 1 (1 # 4) true "optimized")
      (demo_stim false false) = Ok p
    /\ poisson_input (demo_net 1 (1 # 4) true "optimized") = true
    /\ map Qred (DC_amp p) = [38253 # 1600; 35997 # 1600]
    /\ ~ Forall (fun x => x == 0) (DC_amp p).
Proof.
  eexists. split; [vm_compute; reflexivity|].
  split; [reflexivity|]. split; [vm_compute; reflexivity|].
  intros F. inversion F as [|x l H0 _]. vm_compute in H0. discriminate H0.
Qed.

(** ** What a method does to the kernel *)

Lemma grows_refl (P : event -> Prop) (k : nest_kernel) : grows P k k.
Proof.
  repeat split. exists []. rewrite app_nil_r. auto.
Qed.

Lemma grows_trans (P : event -> Prop) (k1 k2 k3 : nest_kernel) :
  grows P k1 k2 -> grows P k2 k3 -> grows P k1 k3.
Proof.
  intros [R1 [P1 [T1 [e1 [E1 F1]]]]] [R2 [P2 [T2 [e2 [E2 F2]]]]].
  repeat split; try congruence.
  exists (e1 ++ e2). split.
  - rewrite E2, E1, app_assoc. reflexivity.
  - apply Forall_app. auto.
Qed.

Lemma grows_one (P : event -> Prop) (k : nest_kernel) (e : event) :
  P e -> grows P k (record k e).
Proof.
  intros H. repeat split. exists [e]. auto.
Qed.

Lemma grows_weaken (P P' : event -> Prop) (k k' : nest_kernel) :
  (forall e, P e -> P' e) -> grows P k k' -> grows P' k k'.
Proof.
  intros W [R [Pr [T [evs [E F]]]]]. repeat split; auto.
  exists evs. split; [exact E|]. eapply Forall_impl; eauto.
Qed.

Section Yields.

Context {r : Q} {P : event -> Prop}.

Lemma yields_ret {A} (V : A -> Prop) (a : A) : V a -> yields r P V (ret a).
Proof.
  intros H s _. split; [apply grows_refl|].
  cbn. intros b E. injection E as <-. exact H.
Qed.

Lemma yields_raise {A} (V : A -> Prop) (e : exn) : yields r P V (raise e).
Proof.
  intros s _. split; [apply grows_refl|]. cbn. discriminate.
Qed.

Lemma yields_lift {A} (V : A -> Prop) (x : result A) :
  (forall a, x = Ok a -> V a) -> yields r P V (lift x).
Proof.
  intros H s _. split; [apply grows_refl|]. cbn. exact H.
Qed.

Lemma yields_bind {A B} (V : A -> Prop) (W : B -> Prop) (m : M A)
  (k : A -> M B) :
  yields r P V m -> (forall a, V a -> yields r P W (k a)) ->
  yields r P W (bind m k).
Proof.
  intros Hm Hk s Hr. unfold bind.
  destruct (Hm s Hr) as [G Va].
  destruct (m s) as [[a|e] s'] eqn:E; cbn in *.
  - assert (Hr' : resolution (kernel s') = r).
    { destruct G as [R _]. congruence. }
    destruct (Hk a (Va a eq_refl) s' Hr') as [G' Wb].
    split; [eapply grows_trans; eauto | exact Wb].
  - split; [exact G | discriminate].
Qed.

Lemma yields_post {A} (V V' : A -> Prop) (m : M A) :
  (forall a, V a -> V' a) -> yields r P V m -> yields r P V' m.
Proof.
  intros W H s Hr. destruct (H s Hr) as [G Va]. split; auto.
Qed.

Lemma yields_when (c : bool) (m : M unit) :
  (c = true -> yields r P any m) -> yields r P any (when c m).
Proof.
  destruct c; cbn; intros H; [auto | apply yields_ret; exact I].
Qed.

Lemma yields_for_each {A} (l : list A) (body : A -> M unit) :
  (forall x, In x l -> yields r P any (body x)) ->
  yields r P any (for_each l body).
Proof.
  induction l as [|x l IH]; intros H; cbn.
  - apply yields_ret. exact I.
  - eapply yields_bind; [apply H; left; reflexivity|].
    intros _ _. apply IH. intros y Hy. apply H. right. exact Hy.
Qed.

Lemma yields_attr {A} (name : string) (get : attrs -> option A) :
  yields r P any (attr name get).
Proof.
  intros s _. unfold attr. destruct (get (self s)); cbn;
    (split; [apply grows_refl | intros; exact I]).
Qed.

Lemma yields_set_self (f : attrs -> attrs) : yields r P any (set_self f).
Proof.
  intros s _. split; [apply grows_refl | intros; exact I].
Qed.

Lemma yields_print (msg : string) : yields r P any (print msg).
Proof.
  intros s _. split; [apply grows_refl | intros; exact I].
Qed.

Lemma yields_write_file (name : string) (lines : list (Z * Z)) :
  yields r P any (write_file name lines).
Proof.
  intros s _. split; [apply grows_refl | intros; exact I].
Qed.

Lemma yields_resolution : yields r P (fun x => x = r) nest_resolution.
Proof.
  intros s Hr. split; [apply grows_refl|].
  cbn. intros a E. injection E as <-. exact Hr.
Qed.

Lemma yields_Create (model : string) (n : Z) (p : params) :
  P (EvCreate model n p) -> yields r P any (nest_Create model n p).
Proof.
  intros H s _. split; [|intros; exact I].
  cbn. repeat split. exists [EvCreate model n p]. auto.
Qed.

Lemma yields_SetStatus (nodes : node_collection) (p : params) :
  P (EvSetStatus nodes p) -> yields r P any (nest_SetStatus nodes p).
Proof.
  intros H s _. split; [|intros; exact I]. cbn. apply grows_one. exact H.
Qed.

Lemma yields_Connect (pre post : node_collection) (c : option conn_rule)
  (sy : option syn_spec) :
  P (EvConnect {| source := pre; target := post; conn_spec := c; syn := sy |}) ->
  yields r P any (nest_Connect pre post c sy).
Proof.
  intros H s _. split; [|intros; exact I]. cbn. apply grows_one. exact H.
Qed.

End Yields.

(** ** Clipped draws *)

Lemma Qlt_bool_iff (x y : Q) : Qlt_bool x y = true <-> x < y.
Proof.
  unfold Qlt_bool. rewrite negb_true_iff.
  split.
  - intros H. apply Qnot_le_lt. intros L.
    apply Qle_bool_iff in L. congruence.
  - intros H. destruct (Qle_bool y x) eqn:E; [|reflexivity].
    apply Qle_bool_iff in E. exfalso. apply (Qlt_not_le _ _ H E).
Qed.


(** An accepted value lies between the bounds of the description. *)
Lemma accepts_within (p : param) (rg : bound * bound) (x : Q) :
  clip_range p = Some rg -> accepts p x = true -> within rg x.
Proof.
  destruct p as [| | | | | |m s lo hi|m s low high]; cbn; try discriminate;
    intros R; injection R as <-; rewrite andb_true_iff; intros [A B];
    unfold within; cbn; split.
  - destruct lo; cbn in A; [exact I | apply Qle_bool_iff; exact A
                           | discriminate].
  - destruct hi; cbn in B; [discriminate | apply Qle_bool_iff; exact B
                           | exact I].
  - destruct low; [|exact I]. apply Qlt_le_weak, Qlt_bool_iff. exact A.
  - destruct high; [|exact I]. apply Qlt_le_weak, Qlt_bool_iff. exact B.
Qed.

(** A returned value is one of the draws, and an accepted one. *)
Lemma sample_accepted (p : param) (draws : list Q) (x : Q) :
  sample p draws = Some x -> In x draws /\ accepts p x = true.
Proof.
  induction draws as [|y ds IH]; cbn; [discriminate|].
  destruct (accepts p y) eqn:A.
  - intros H. injection H as <-. auto.
  - intros H. destruct (IH H). auto.
Qed.

(** A draw outside the range is passed over and the next one is used. *)
Lemma sample_redraws (p : param) (rg : bound * bound) (x : Q) (draws : list Q) :
  clip_range p = Some rg -> ~ within rg x ->
  sample p (x :: draws) = sample p draws.
Proof.
  intros R W. cbn. destruct (accepts p x) eqn:A; [|reflexivity].
  exfalso. apply W. eapply accepts_within; eauto.
Qed.

(** Drawing ends as soon as the generator offers an acceptable value. *)
Lemma sample_finds (p : param) (draws : list Q) :
  (exists x, In x draws /\ accepts p x = true) ->
  exists y, sample p draws = Some y.
Proof.
  induction draws as [|y ds IH]; intros [x [I A]]; [destruct I|].
  cbn. destruct (accepts p y) eqn:Ay; [eauto|].
  apply IH. destruct I as [-> | I]; [congruence | eauto].
Qed.

Lemma sample_within (p : param) (rg : bound * bound) (draws : list Q) (x : Q) :
  clip_range p = Some rg -> sample p draws = Some x -> within rg x.
Proof.
  intros R S. apply sample_accepted in S as [_ A].
  eapply accepts_within; eauto.
Qed.

(** ** The synapse dictionaries *)

Lemma recurrent_syn_dict_run (N : network) (i j : nat) (s : state) (w d : Q) :
  index2 (weight_matrix_mean (plan N)) i j = Ok w ->
  index2 (delay_matrix_mean (net N)) i j = Ok d ->
  exists sd,
    recurrent_syn_dict N i j s = (Ok sd, s)
    /\ recurrent_syn N (resolution (kernel s)) w d sd.
Proof.
  intros Hw Hd. unfold recurrent_syn_dict, recurrent_syn, bind, lift.
  rewrite Hw, Hd.
  destruct (nest_version N); destruct (Qlt_bool w 0); cbn;
    eexists; (split; [reflexivity|]); cbn; auto.
Qed.

Lemma recurrent_syn_dict_yields (N : network) (i j : nat) (r : Q)
  (P : event -> Prop) :
  yields r P
    (fun sd => exists w d,
       index2 (weight_matrix_mean (plan N)) i j = Ok w
       /\ index2 (delay_matrix_mean (net N)) i j = Ok d
       /\ recurrent_syn N r w d sd)
    (recurrent_syn_dict N i j).
Proof.
  intros s Hr. split.
  - unfold recurrent_syn_dict, bind, lift, nest_resolution, ret.
    destruct (nest_version N);
      destruct (index2 (weight_matrix_mean (plan N)) i j) as [w|];
      cbn; try apply grows_refl;
      try destruct (Qlt_bool w 0);
      destruct (index2 (delay_matrix_mean (net N)) i j); cbn;
      apply grows_refl.
  - intros sd E.
    destruct (index2 (weight_matrix_mean (plan N)) i j) as [w|] eqn:Hw.
    + destruct (index2 (delay_matrix_mean (net N)) i j) as [d|] eqn:Hd.
      * destruct (recurrent_syn_dict_run N i j s w d Hw Hd) as [sd' [R S]].
        rewrite R in E. cbn in E. injection E as <-.
        exists w, d. rewrite <- Hr. auto.
      * exfalso. revert E.
        unfold recurrent_syn_dict, bind, lift. rewrite Hw, Hd.
        destruct (nest_version N); try destruct (Qlt_bool w 0); cbn;
          discriminate.
    + exfalso. revert E.
      unfold recurrent_syn_dict, bind, lift. rewrite Hw.
      destruct (nest_version N); cbn; discriminate.
Qed.

Section YieldsBind.

Context {r : Q} {P : event -> Prop}.

Lemma yields_bind_lift {A B} (W : B -> Prop) (x : result A) (k : A -> M B) :
  (forall a, x = Ok a -> yields r P W (k a)) ->
  yields r P W (bind (lift x) k).
Proof.
  intros H. eapply yields_bind; [apply yields_lift; intros a E; exact E|].
  exact H.
Qed.

Lemma yields_bind_any {A B} (W : B -> Prop) (m : M A) (k : A -> M B) :
  yields r P any m -> (forall a, yields r P W (k a)) ->
  yields r P W (bind m k).
Proof.
  intros Hm Hk. eapply yields_bind; [exact Hm|]. intros a _. apply Hk.
Qed.

Lemma yields_bind_resolution {B} (W : B -> Prop) (k : Q -> M B) :
  yields r P W (k r) -> yields r P W (bind nest_resolution k).
Proof.
  intros H. eapply yields_bind; [apply yields_resolution|].
  intros a ->. exact H.
Qed.

Lemma yields_rank0 (N : network) (m : M unit) :
  yields r P any m -> yields r P any (rank0 N m).
Proof. intros H. apply yields_when. intros _. exact H. Qed.

End YieldsBind.

(** One step of the routine part of such a proof. *)
Ltac yields_step :=
  lazymatch goal with
  | |- yields _ _ _ (bind (lift _) _) => apply yields_bind_lift; intros ? ?
  | |- yields _ _ _ (bind nest_resolution _) => apply yields_bind_resolution
  | |- yields _ _ _ (bind (recurrent_syn_dict _ _ _) _) => fail
  | |- yields _ _ _ (bind (thalamic_syn_dict _) _) => fail
  | |- yields _ _ _ (bind _ _) => apply yields_bind_any; [|intros ?]
  | |- yields _ _ _ (rank0 _ _) => apply yields_rank0
  | |- yields _ _ _ (when _ _) => apply yields_when; intros ?
  | |- yields _ _ _ (for_each _ _) => apply yields_for_each; intros ? ?
  | |- yields _ _ _ (ret _) => apply yields_ret; exact I
  | |- yields _ _ _ (raise _) => apply yields_raise
  | |- yields _ _ _ (print _) => apply yields_print
  | |- yields _ _ _ (set_self _) => apply yields_set_self
  | |- yields _ _ _ (write_file _ _) => apply yields_write_file
  | |- yields _ _ _ (attr _ _) => apply yields_attr
  | |- yields _ _ _ (match nest_version ?N with _ => _ end) =>
      destruct (nest_version N) eqn:?
  | |- yields _ _ _ (match ?d with DcList _ => _ | DcCollection _ => _ end) =>
      destruct d
  | |- yields _ _ _ (if ?c then _ else _) => destruct c eqn:?
  end.

(** ** C2: weight polarity *)


Lemma yields_weaken {A} (r : Q) (P P' : event -> Prop) (V : A -> Prop)
  (m : M A) :
  (forall e, P e -> P' e) -> yields r P V m -> yields r P' V m.
Proof.
  intros W H s Hr. destruct (H s Hr) as [G Va].
  split; [eapply grows_weaken; eauto | exact Va].
Qed.

Lemma connect_neuronal_populations_yields (N : network) (r : Q) :
  yields r (recurrent_connection N r) any (connect_neuronal_populations N).
Proof.
  unfold connect_neuronal_populations. repeat yields_step.
  eapply yields_bind; [apply recurrent_syn_dict_yields|].
  intros sd [w [d [Hw [Hd S]]]].
  apply yields_Connect.
  eexists _, _, sd, _, _, w, d. cbn.
  split; [reflexivity|]. split; [reflexivity|].
  split; [apply Z.leb_le; assumption|].
  split; [eassumption|]. split; [exact Hw|]. split; [exact Hd|].
  split; [reflexivity | exact S].
Qed.

Example demo_object_init :
  init demo_helpers demo_sim (demo_net 1 1 true "optimized")
    (demo_stim true true) V3 0
  = Ok (demo_object V3 (demo_net 1 1 true "optimized") (demo_stim true true),
        demo_start).
Proof. reflexivity. Qed.



(** ** C3: the delay floor *)

Lemma delay_clipped_intro (v : version) (dt d sigma lo : Q) (p : param) :
  normal_of p = Some (d, d * sigma) ->
  clip_range p = Some (Fin lo, PosInf) ->
  lo == delay_low v dt ->
  delay_clipped v dt d sigma p.
Proof.
  intros Nm Cl Lo. split; [exact Nm|]. split; [eauto|]. split.
  { intros x draws Hx. apply (sample_redraws _ _ _ _ Cl).
    intros [L _]. cbn in L. rewrite Lo in L.
    apply (Qlt_not_le _ _ Hx L). }
  split; [apply sample_finds|].
  intros draws x S. split; [apply (sample_accepted _ _ _ S)|].
  pose proof (sample_within _ _ _ _ Cl S) as [L _]. cbn in L.
  rewrite Lo in L. split; [exact L|].
  intros Hdt. eapply Qle_trans; [|exact L].
  destruct v; cbn; [|apply Qle_refl].
  apply Qle_shift_div_r; [reflexivity|]. lra.
Qed.

Lemma recurrent_delay_clipped (N : network) (w d : Q) (sd : syn_spec) :
  recurrent_syn N (sim_resolution (sim N)) w d sd ->
  exists p, syn_delay sd = Some p
            /\ delay_clipped (nest_version N) (sim_resolution (sim N))
                 d (delay_rel_std (net N)) p.
Proof.
  intros [_ [_ Hd]]. eexists. split; [exact Hd|].
  destruct (nest_version N);
    eapply delay_clipped_intro; try reflexivity.
  cbn. field.
Qed.

Lemma thalamic_syn_dict_run (N : network) (s : state) (w : Q) :
  weight_th (plan N) = Some w ->
  exists sd,
    thalamic_syn_dict N s = (Ok sd, s)
    /\ thalamic_syn N (resolution (kernel s)) w sd.
Proof.
  intros Hw. unfold thalamic_syn_dict, thalamic_syn, bind, lift.
  rewrite Hw. destruct (nest_version N); cbn;
    eexists; (split; [reflexivity|]); cbn; auto.
Qed.

Lemma thalamic_syn_dict_yields (N : network) (r : Q) (P : event -> Prop) :
  yields r P
    (fun sd => exists w, weight_th (plan N) = Some w /\ thalamic_syn N r w sd)
    (thalamic_syn_dict N).
Proof.
  intros s Hr.
  destruct (weight_th (plan N)) as [w|] eqn:Hw.
  - destruct (thalamic_syn_dict_run N s w Hw) as [sd [R S]].
    rewrite R. cbn. split; [apply grows_refl|].
    intros a E. injection E as <-. exists w. rewrite <- Hr. auto.
  - unfold thalamic_syn_dict, bind, lift. rewrite Hw.
    destruct (nest_version N); cbn;
      (split; [apply grows_refl | discriminate]).
Qed.

Lemma thalamic_delay_clipped (N : network) (w : Q) (sd : syn_spec) :
  thalamic_syn N (sim_resolution (sim N)) w sd ->
  exists p, syn_delay sd = Some p
            /\ delay_clipped (nest_version N) (sim_resolution (sim N))
                 (delay_th_mean (stim N)) (delay_th_rel_std (stim N)) p.
Proof.
  intros [_ [_ Hd]]. eexists. split; [exact Hd|].
  destruct (nest_version N);
    eapply delay_clipped_intro; try reflexivity.
  cbn. field.
Qed.

(** ** The connections [connect] makes *)

Ltac plain_connect :=
  apply yields_Connect; right; right; eexists; split; [reflexivity|];
  cbn; auto.

Lemma connect_recording_devices_yields (N : network) (r : Q) :
  yields r (connection N r) any (connect_recording_devices N).
Proof.
  unfold connect_recording_devices. repeat yields_step; plain_connect.
Qed.

Lemma connect_poisson_bg_input_yields (N : network) (r : Q) :
  yields r (connection N r) any (connect_poisson_bg_input N).
Proof.
  unfold connect_poisson_bg_input. repeat yields_step; plain_connect.
Qed.

Lemma connect_dc_stim_input_yields (N : network) (r : Q) :
  yields r (connection N r) any (connect_dc_stim_input N).
Proof.
  unfold connect_dc_stim_input. repeat yields_step; plain_connect.
Qed.

Lemma connect_thalamic_stim_input_yields (N : network) (r : Q) :
  yields r (connection N r) any (connect_thalamic_stim_input N).
Proof.
  unfold connect_thalamic_stim_input. repeat yields_step; try plain_connect.
  eapply yields_bind; [apply thalamic_syn_dict_yields|].
  intros sd [w [Hw S]]. repeat yields_step.
  apply yields_Connect. right; left.
  eexists _, _, sd, w. cbn.
  split; [reflexivity|]. split; [reflexivity|]. split; [reflexivity|].
  split; [exact Hw | exact S].
Qed.

Lemma connect_steps_yields (N : network) (r : Q) :
  yields r (connection N r) any (connect_steps N).
Proof.
  unfold connect_steps.
  repeat yields_step;
    auto using connect_recording_devices_yields,
      connect_poisson_bg_input_yields, connect_thalamic_stim_input_yields,
      connect_dc_stim_input_yields.
  eapply yields_weaken; [|apply connect_neuronal_populations_yields].
  intros e H. left. exact H.
Qed.

Lemma connect_unfold (N : network) (s : state) :
  connect N s = (connect_steps N ;; nest_Prepare) s.
Proof.
  unfold connect, connect_steps, bind.
  repeat match goal with
         | |- context [match ?m s with _ => _ end] =>
             destruct (m s) as [[[]|?] ?]
         | |- context [match ?m ?s' with _ => _ end] =>
             destruct (m s') as [[[]|?] ?]
         end; reflexivity.
Qed.

Lemma kernel_Prepare_fresh (k : nest_kernel) :
  prepared k = false ->
  kernel_Prepare k =
  Ok {| resolution := resolution k; network_size := network_size k;
        prepared := true; biological_time := biological_time k;
        trace := trace k ++ [EvPrepare] |}.
Proof. unfold kernel_Prepare. intros ->. reflexivity. Qed.

(** How [connect] runs: the connection steps add connections only; if
    one of them raises, [connect] raises with it and [nest.Prepare()] is
    not reached; otherwise [nest.Prepare()] is called on what they left. *)
Lemma connect_run (N : network) (s : state) :
  let s1 := exec (connect_steps N) s in
  grows (connection N (resolution (kernel s))) (kernel s) (kernel s1)
  /\ match outcome (connect_steps N) s with
     | Raise e => connect N s = (Raise e, s1)
     | Ok _ => connect N s = nest_Prepare s1
     end.
Proof.
  intros s1. split.
  - apply (connect_steps_yields N _ s eq_refl).
  - rewrite connect_unfold. subst s1. unfold outcome, exec, bind.
    destruct (connect_steps N s) as [[[]|e] s']; reflexivity.
Qed.

(** What [connect] adds to the trace: connections, then [EvPrepare] when
    it completes. *)
Lemma connect_trace (N : network) (s : state) :
  exists evs,
    Forall (connection N (resolution (kernel s))) evs
    /\ (trace (kernel (exec (connect N) s)) = trace (kernel s) ++ evs
        \/ trace (kernel (exec (connect N) s)) =
           trace (kernel s) ++ evs ++ [EvPrepare]).
Proof.
  destruct (connect_run N s) as [[_ [_ [_ [evs [E F]]]]] C].
  exists evs. split; [exact F|].
  change (exec (connect N) s) with (snd (connect N s)).
  destruct (outcome (connect_steps N) s).
  - rewrite C. unfold nest_Prepare, kernel_call, kernel_Prepare.
    destruct (prepared (kernel (exec (connect_steps N) s))); cbn.
    + left. exact E.
    + right. rewrite E, app_assoc. reflexivity.
  - rewrite C. cbn. left. exact E.
Qed.

Lemma connection_delay_floored (N : network) (e : event) :
  connection N (sim_resolution (sim N)) e -> delay_floored N e.
Proof.
  intros [R | [T | Pl]] c n He Hc.
  - destruct R as [c' [n' [sd [i [j [w [d [He' [_ [_ [_ [_ [_ [Hs S]]]]]]]]]]]]]].
    assert (c' = c) by congruence. subst c'.
    destruct (recurrent_delay_clipped _ _ _ _ S) as [p [Hp K]].
    exists sd, p, d, (delay_rel_std (net N)). auto.
  - destruct T as [c' [n' [sd [w [He' [_ [Hs [_ S]]]]]]]].
    assert (c' = c) by congruence. subst c'.
    destruct (thalamic_delay_clipped _ _ _ S) as [p [Hp K]].
    exists sd, p, (delay_th_mean (stim N)), (delay_th_rel_std (stim N)). auto.
  - destruct Pl as [c' [He' [H | H]]];
      assert (c' = c) by congruence; subst c'; congruence.
Qed.

(** C3, as the code has it.  On a kernel whose resolution is the
    configured [sim_resolution] = dt, the delay of every recurrent and
    thalamic synapse dictionary is normal with the configured mean and
    mean times relative spread, clipped below and unbounded above; the
    lower end is dt/2 under engine revision 3 and dt under revision 2; a
    draw below it is passed over for the next draw; and every delay
    drawn is at least that lower end, hence at least dt/2 when dt is not
    negative.  Every connection with a fixed total number of synapses
    that [connect] makes carries such a delay. *)
Theorem C3_delay_floor (N : network) (s : state) :
  resolution (kernel s) = sim_resolution (sim N) ->
  let dt := sim_resolution (sim N) in
  let v := nest_version N in
  (forall i j w d,
     index2 (weight_matrix_mean (plan N)) i j = Ok w ->
     index2 (delay_matrix_mean (net N)) i j = Ok d ->
     exists sd p,
       recurrent_syn_dict N i j s = (Ok sd, s)
       /\ syn_delay sd = Some p
       /\ delay_clipped v dt d (delay_rel_std (net N)) p)
  /\ (forall w,
        weight_th (plan N) = Some w ->
        exists sd p,
          thalamic_syn_dict N s = (Ok sd, s)
          /\ syn_delay sd = Some p
          /\ delay_clipped v dt (delay_th_mean (stim N))
               (delay_th_rel_std (stim N)) p)
  /\ exists evs,
       trace (kernel (exec (connect N) s)) = trace (kernel s) ++ evs
       /\ Forall (delay_floored N) evs.
Proof.
  intros Hr dt v. split; [|split].
  - intros i j w d Hw Hd.
    destruct (recurrent_syn_dict_run N i j s w d Hw Hd) as [sd [R S]].
    rewrite Hr in S.
    destruct (recurrent_delay_clipped _ _ _ _ S) as [p [Hp K]].
    exists sd, p. auto.
  - intros w Hw.
    destruct (thalamic_syn_dict_run N s w Hw) as [sd [R S]].
    rewrite Hr in S.
    destruct (thalamic_delay_clipped _ _ _ S) as [p [Hp K]].
    exists sd, p. auto.
  - destruct (connect_trace N s) as [evs [F E]]. rewrite Hr in F.
    assert (F' : Forall (delay_floored N) evs).
    { eapply Forall_impl; [|exact F]. apply connection_delay_floored. }
    destruct E as [E | E].
    + exists evs. auto.
    + exists (evs ++ [EvPrepare]). split; [exact E|].
      apply Forall_app. split; [exact F'|].
      constructor; [|constructor]. intros c n He. discriminate He.
Qed.

Lemma C3_delay_floor_witness :
  let N := demo_object V3 (demo_net 1 1 true "optimized")
             (demo_stim true false) in
  exists sd p,
    recurrent_syn_dict N 0 1 demo_start = (Ok sd, demo_start)
    /\ syn_delay sd = Some p
    /\ sample p [0.01; 0.05; 2] = Some 0.05
    /\ forall draws x, sample p draws = Some x -> sim_resolution (sim N) / 2 <= x.
Proof.
  intros N.
  assert (W : { w | index2 (weight_matrix_mean (plan N)) 0 1 = Ok w }).
  { eexists. vm_compute. reflexivity. }
  assert (D : { d | index2 (delay_matrix_mean (net N)) 0 1 = Ok d }).
  { eexists. vm_compute. reflexivity. }
  destruct W as [w W], D as [d D].
  destruct (proj1 (C3_delay_floor N demo_start eq_refl) 0%nat 1%nat w d W D)
    as [sd [p [R [Hp K]]]].
  exists sd, p. split; [exact R|]. split; [exact Hp|].
  split.
  - vm_compute in R. injection R as <-.
    cbn in Hp. injection Hp as <-. vm_compute. reflexivity.
  - intros draws x S.
    destruct K as [_ [_ [_ [_ K]]]].
    apply (K draws x S). vm_compute. discriminate.
Defined.

(** The claim as worded fails under engine revision 2: with a resolution
    of 0.1 the lower end of the recurrent delay range is 0.1, not 0.05,
    so a draw of 0.075, which lies in [dt/2, inf), is passed over. *)
Lemma C3_counterexample :
  let N := demo_object V2 (demo_net 1 1 true "optimized")
             (demo_stim true false) in
  exists sd p,
    recurrent_syn_dict N 0 1 demo_start = (Ok sd, demo_start)
    /\ syn_delay sd = Some p
    /\ clip_range p = Some (Fin (sim_resolution (sim N)), PosInf)
    /\ ~ sim_resolution (sim N) == sim_resolution (sim N) / 2
    /\ sim_resolution (sim N) / 2 <= 0.075
    /\ sample p [0.075; 1] = Some 1.
Proof.
  intros N. eexists. eexists.
  split; [vm_compute; reflexivity|].
  split; [reflexivity|].
  split; [reflexivity|].
  split; [vm_compute; discriminate|].
  split; [vm_compute; discriminate|].
  vm_compute. reflexivity.
Qed.

(** ** C7: simulating more than once *)

(** [simulate] always completes: the engine is prepared on the spot or
    its refusal is caught, then run, then cleaned up. *)
Lemma simulate_run (N : network) (t : Q) (s : state) :
  simulate N t s =
  (Ok tt,
   {| kernel :=
        {| resolution := resolution (kernel s);
           network_size := network_size (kernel s);
           prepared := false;
           biological_time := biological_time (kernel s) + t;
           trace := trace (kernel s) ++ sim_events (prepared (kernel s)) t |};
      self := self s;
      stdout := stdout s ++ sim_output N (prepared (kernel s));
      files := files s |}).
Proof.
  unfold simulate, sim_events, sim_output, rank0, when, bind, try_except,
    nest_Prepare, nest_Run, nest_Cleanup, kernel_call, kernel_Prepare,
    kernel_Run, kernel_Cleanup, print, ret, with_kernel.
  destruct s as [[r n p tm tr] a out fs].
  destruct (rank N =? 0)%Z, p; cbn;
    rewrite <- ?app_assoc, ?app_nil_r; reflexivity.
Qed.

Lemma count_app (p : event -> bool) (a b : list event) :
  count p (a ++ b) = (count p a + count p b)%nat.
Proof. unfold count. rewrite filter_app, length_app. reflexivity. Qed.

Lemma simulate_all_run (N : network) (ts : list Q) (s : state) :
  outcome (simulate_all N ts) s = Ok tt
  /\ biological_time (kernel (exec (simulate_all N ts) s))
     = clock_after (biological_time (kernel s)) ts
  /\ trace (kernel (exec (simulate_all N ts) s))
     = trace (kernel s) ++ sim_events_all (prepared (kernel s)) ts
  /\ self (exec (simulate_all N ts) s) = self s.
Proof.
  revert s. induction ts as [|t ts IH]; intros s.
  - cbn. rewrite app_nil_r. auto.
  - unfold simulate_all, outcome, exec in *. cbn [for_each]. unfold bind.
    rewrite simulate_run.
    match goal with
    | |- context [for_each ts (simulate N) ?s1] =>
        specialize (IH s1); destruct (for_each ts (simulate N) s1) as [o s2]
    end.
    cbn in *. destruct IH as [O [T [Tr Sf]]].
    split; [exact O|]. split; [exact T|]. split; [|exact Sf].
    rewrite Tr, <- app_assoc. f_equal. f_equal.
    destruct ts; reflexivity.
Qed.

Lemma count_sim_events (b : bool) (t : Q) :
  count is_cleanup (sim_events b t) = 1%nat
  /\ count is_run (sim_events b t) = 1%nat.
Proof. destruct b; auto. Qed.

Lemma count_flat_sim_events (ts : list Q) :
  count is_cleanup (flat_map (sim_events false) ts) = List.length ts
  /\ count is_run (flat_map (sim_events false) ts) = List.length ts.
Proof.
  induction ts as [|t ts [IH1 IH2]]; [auto|].
  cbn [flat_map]. rewrite !count_app, IH1, IH2. auto.
Qed.

Lemma count_sim_events_all (b : bool) (ts : list Q) :
  count is_cleanup (sim_events_all b ts) = List.length ts
  /\ count is_run (sim_events_all b ts) = List.length ts.
Proof.
  destruct ts as [|t ts]; [auto|].
  cbn [sim_events_all].
  rewrite !count_app.
  destruct (count_sim_events b t) as [-> ->].
  destruct (count_flat_sim_events ts) as [-> ->]. auto.
Qed.

(** C7, as the code has it.  Any number of [simulate] calls in a row
    complete; the clock ends at its start plus the requested durations,
    each call adding its own; and each call ends with its run followed
    by a clean-up of its own, after preparing anew unless it found the
    kernel prepared, so that there are as many clean-ups as calls. *)
Theorem C7_simulate_repeatable (N : network) (ts : list Q) (s : state) :
  outcome (simulate_all N ts) s = Ok tt
  /\ biological_time (kernel (exec (simulate_all N ts) s))
     = clock_after (biological_time (kernel s)) ts
  /\ (forall t s0,
        biological_time (kernel (exec (simulate N t) s0))
        = biological_time (kernel s0) + t
        /\ trace (kernel (exec (simulate N t) s0))
           = trace (kernel s0)
             ++ (if prepared (kernel s0) then [] else [EvPrepare])
             ++ [EvRun t; EvCleanup])
  /\ trace (kernel (exec (simulate_all N ts) s))
     = trace (kernel s) ++ sim_events_all (prepared (kernel s)) ts
  /\ count is_cleanup (sim_events_all (prepared (kernel s)) ts)
     = List.length ts
  /\ count is_run (sim_events_all (prepared (kernel s)) ts) = List.length ts.
Proof.
  destruct (simulate_all_run N ts s) as [O [T [Tr _]]].
  destruct (count_sim_events_all (prepared (kernel s)) ts) as [C R].
  split; [exact O|]. split; [exact T|]. split.
  { intros t s0. unfold exec. rewrite simulate_run. cbn. auto. }
  auto.
Qed.

Example clock_after_two : Qred (clock_after 0 [10; 20]) = 30.
Proof. reflexivity. Qed.

(** The claim as worded fails on the second call: two [simulate] calls
    after construction clean up twice, the first time before the last
    run. *)
Lemma C7_counterexample :
  let N := demo_object V3 (demo_net 1 1 true "optimized")
             (demo_stim true true) in
  let run := create N ;; connect N ;; simulate N 10 ;; simulate N 20 in
  outcome run demo_start = Ok tt
  /\ count is_cleanup (trace (kernel (exec run demo_start))) = 2%nat
  /\ firstn 5 (rev (trace (kernel (exec run demo_start))))
     = [EvCleanup; EvRun 20; EvPrepare; EvCleanup; EvRun 10].
Proof.
  intros N run. split; [|split]; vm_compute; reflexivity.
Qed.

(** ** Creating adds nodes and settings only *)

Ltac creation_step :=
  first [ apply yields_Create; reflexivity
        | apply yields_SetStatus; reflexivity ].

Lemma set_V_m_yields (N : network) (r : Q) (c : node_collection)
  (mean std : result Q) :
  yields r creation any (set_V_m N c mean std).
Proof.
  unfold set_V_m. repeat yields_step; creation_step.
Qed.

Lemma create_population_yields (N : network) (r : Q) (i : nat) :
  yields r creation any (create_population N i).
Proof.
  unfold create_population.
  repeat yields_step; try creation_step; apply set_V_m_yields.
Qed.

Lemma create_neuronal_populations_yields (N : network) (r : Q) :
  yields r creation any (create_neuronal_populations N).
Proof.
  unfold create_neuronal_populations.
  repeat yields_step. apply create_population_yields.
Qed.

Lemma create_recording_devices_yields (N : network) (r : Q) :
  yields r creation any (create_recording_devices N).
Proof.
  unfold create_recording_devices. repeat yields_step; creation_step.
Qed.

Lemma create_poisson_bg_input_yields (N : network) (r : Q) :
  yields r creation any (create_poisson_bg_input N).
Proof.
  unfold create_poisson_bg_input. repeat yields_step; creation_step.
Qed.

Lemma create_thalamic_stim_input_yields (N : network) (r : Q) :
  yields r creation any (create_thalamic_stim_input N).
Proof.
  unfold create_thalamic_stim_input. repeat yields_step; creation_step.
Qed.

Lemma create_dc_stim_input_yields (N : network) (r : Q) :
  yields r creation any (create_dc_stim_input N).
Proof.
  unfold create_dc_stim_input, set_dc_stim_input.
  repeat yields_step; creation_step.
Qed.

Lemma create_yields (N : network) (r : Q) :
  yields r creation any (create N).
Proof.
  unfold create.
  repeat yields_step;
    auto using create_neuronal_populations_yields,
      create_recording_devices_yields, create_poisson_bg_input_yields,
      create_thalamic_stim_input_yields, create_dc_stim_input_yields.
Qed.

(** ** The whole sequence *)

Lemma nest_Prepare_fresh (s : state) :
  prepared (kernel s) = false ->
  nest_Prepare s =
  (Ok tt,
   with_kernel s
     {| resolution := resolution (kernel s);
        network_size := network_size (kernel s);
        prepared := true;
        biological_time := biological_time (kernel s);
        trace := trace (kernel s) ++ [EvPrepare] |}).
Proof.
  intros H. unfold nest_Prepare, kernel_call.
  rewrite (kernel_Prepare_fresh _ H). reflexivity.
Qed.

Lemma nest_Prepare_twice (s : state) :
  prepared (kernel s) = true ->
  nest_Prepare s = (Raise (KernelException "Prepare called twice."), s).
Proof.
  intros H. unfold nest_Prepare, kernel_call, kernel_Prepare.
  rewrite H. reflexivity.
Qed.

(** How [connect] ends on a kernel that was not prepared. *)
Lemma connect_fresh (N : network) (s : state) :
  prepared (kernel s) = false ->
  exists ks,
    Forall (connection N (resolution (kernel s))) ks
    /\ match outcome (connect N) s with
       | Ok _ =>
           outcome (connect_steps N) s = Ok tt
           /\ trace (kernel (exec (connect N) s))
              = trace (kernel s) ++ ks ++ [EvPrepare]
           /\ prepared (kernel (exec (connect N) s)) = true
       | Raise e =>
           outcome (connect_steps N) s = Raise e
           /\ trace (kernel (exec (connect N) s)) = trace (kernel s) ++ ks
           /\ prepared (kernel (exec (connect N) s)) = false
       end
    /\ biological_time (kernel (exec (connect N) s))
       = biological_time (kernel s)
    /\ resolution (kernel (exec (connect N) s)) = resolution (kernel s).
Proof.
  intros Hp.
  destruct (connect_run N s) as [[R [P [T [ks [E F]]]]] C].
  exists ks. split; [exact F|].
  unfold outcome at 1, exec.
  destruct (outcome (connect_steps N) s) as [[]|e] eqn:O; rewrite C.
  - rewrite nest_Prepare_fresh by congruence. cbn.
    rewrite E, <- app_assoc. auto.
  - cbn. rewrite P, Hp. auto.
Qed.

Lemma connection_is_connect (N : network) (r : Q) (e : event) :
  connection N r e -> is_connect e = true.
Proof.
  intros [[c [n [sd [i [j [w [d [-> _]]]]]]]]
         | [[c [n [sd [w [-> _]]]]] | [c [-> _]]]]; reflexivity.
Qed.

(** The trace of the whole sequence from a kernel that was not prepared:
    nodes and settings, then connections, then prepare, run, clean-up;
    when a stage raises, what follows it is missing. *)
Lemma build_and_run_trace (N : network) (t : Q) (s : state) :
  prepared (kernel s) = false ->
  exists cs ks tl,
    trace (kernel (exec (build_and_run N t) s))
    = trace (kernel s) ++ cs ++ ks ++ tl
    /\ Forall creation cs
    /\ Forall (connection N (resolution (kernel s))) ks
    /\ match outcome (build_and_run N t) s with
       | Ok _ => tl = [EvPrepare; EvRun t; EvCleanup]
       | Raise _ => tl = []
       end.
Proof.
  intros Hp. unfold build_and_run, outcome, exec, bind.
  destruct (create_yields N _ s eq_refl) as [[R [P [T [cs [E F]]]]] _].
  destruct (create N s) as [[[]|e] s1]; cbn in *.
  - assert (Hp1 : prepared (kernel s1) = false) by congruence.
    destruct (connect_fresh N s1 Hp1) as [ks [Fk [C _]]].
    rewrite R in Fk. unfold outcome, exec in C.
    destruct (connect N s1) as [[[]|e] s2]; cbn in *.
    + destruct C as [_ [Tr Pr]].
      rewrite simulate_run. cbn. rewrite Pr. cbn.
      exists cs, ks, [EvPrepare; EvRun t; EvCleanup].
      rewrite Tr, E, <- !app_assoc. auto.
    + destruct C as [_ [Tr Pr]].
      exists cs, ks, []. rewrite Tr, E, app_nil_r, <- app_assoc. auto.
  - exists cs, [], []. rewrite E. cbn. rewrite app_nil_r. auto.
Qed.

(** The state [__init__] leaves: a kernel of the configured resolution,
    not prepared, with nothing in it, and no population on the object. *)
Lemma init_state (h : helpers) (sd : sim_dict) (nd : net_dict) (st : stim_dict)
  (v : version) (rk : Z) (N : network) (s : state) :
  init h sd nd st v rk = Ok (N, s) ->
  resolution (kernel s) = sim_resolution (sim N)
  /\ prepared (kernel s) = false
  /\ trace (kernel s) = []
  /\ pops (self s) = None
  /\ derive_parameters h nd st = Ok (plan N).
Proof.
  unfold init. destruct (derive_parameters h nd st) as [p|e]; [|discriminate].
  intros H. injection H as <- <-. cbn. auto.
Qed.

(** [create] leaves the resolution and the prepared flag as they were. *)
Lemma create_keeps (N : network) (s : state) :
  resolution (kernel (exec (create N) s)) = resolution (kernel s)
  /\ prepared (kernel (exec (create N) s)) = prepared (kernel s).
Proof.
  destruct (create_yields N _ s eq_refl) as [[R [P _]] _]. auto.
Qed.

(** ** C6: preparing once *)







(** ** C8: the order of the stages *)

Lemma connect_before_create (N : network) (s : state) :
  pops (self s) = None ->
  outcome (connect N) s = Raise (AttributeError "pops")
  /\ kernel (exec (connect N) s) = kernel s.
Proof.
  intros H. unfold outcome, exec. rewrite connect_unfold.
  unfold connect_steps, connect_neuronal_populations, bind, rank0, when,
    attr, print, ret.
  destruct (rank N =? 0)%Z; cbn; rewrite H; cbn; auto.
Qed.

Lemma filter_sim_events (b : bool) (t : Q) :
  filter is_connect (sim_events b t) = [].
Proof. destruct b; reflexivity. Qed.

(** C8, as the code has it.  [connect] before [create] raises an
    attribute error for the missing populations and leaves the kernel as
    it was: no connection, no prepare.  [simulate] is not refused on any
    state, before [create] either: it completes and makes no connection.
    In the sequence create, connect, simulate on a kernel that was not
    prepared, all nodes and settings come before all connections, these
    before the prepare, and the prepare before the run; when a stage
    raises, the later stages leave no trace. *)
Theorem C8_stage_order (N : network) (t : Q) (s : state) :
  (pops (self s) = None ->
   outcome (connect N) s = Raise (AttributeError "pops")
   /\ kernel (exec (connect N) s) = kernel s)
  /\ (outcome (simulate N t) s = Ok tt
      /\ connections (kernel (exec (simulate N t) s)) = connections (kernel s))
  /\ (prepared (kernel s) = false ->
      exists cs ks tl,
        trace (kernel (exec (build_and_run N t) s))
        = trace (kernel s) ++ cs ++ ks ++ tl
        /\ Forall (fun e => is_create e = true) cs
        /\ Forall (fun e => is_connect e = true) ks
        /\ match outcome (build_and_run N t) s with
           | Ok _ => tl = [EvPrepare; EvRun t; EvCleanup]
           | Raise _ => tl = []
           end).
Proof.
  split; [apply connect_before_create|]. split.
  - unfold outcome, exec, connections. rewrite simulate_run. cbn.
    rewrite filter_app, filter_sim_events, app_nil_r. auto.
  - intros Hp.
    destruct (build_and_run_trace N t s Hp) as [cs [ks [tl [Tr [Fc [Fk L]]]]]].
    exists cs, ks, tl. split; [exact Tr|]. split; [exact Fc|].
    split; [|exact L].
    eapply Forall_impl; [|exact Fk]. apply connection_is_connect.
Qed.

Lemma C8_stage_order_witness :
  let N := demo_object V3 (demo_net 1 1 true "optimized")
             (demo_stim true true) in
  (outcome (connect N) demo_start = Raise (AttributeError "pops")
   /\ kernel (exec (connect N) demo_start) = kernel demo_start)
  /\ exists cs ks,
       trace (kernel (exec (build_and_run N 10) demo_start))
       = cs ++ ks ++ [EvPrepare; EvRun 10; EvCleanup]
       /\ Forall (fun e => is_create e = true) cs
       /\ Forall (fun e => is_connect e = true) ks.
Proof.
  intros N.
  pose proof (C8_stage_order N 10 demo_start) as [A [_ B]].
  split; [exact (A eq_refl)|].
  destruct (B eq_refl) as [cs [ks [tl [Tr [Fc [Fk L]]]]]].
  assert (O : outcome (build_and_run N 10) demo_start = Ok tt)
    by (vm_compute; reflexivity).
  rewrite O in L. subst tl. exists cs, ks. auto.
Defined.

(** The claim as worded fails for [simulate]: before [create], with no
    population in sight, it completes. *)
Lemma C8_counterexample :
  let N := demo_object V3 (demo_net 1 1 true "optimized")
             (demo_stim true true) in
  pops (self demo_start) = None
  /\ network_size (kernel demo_start) = 0%Z
  /\ outcome (simulate N 5) demo_start = Ok tt.
Proof. intros N. repeat split. Qed.

(** ** C9: an unsupported initial-voltage mode *)

(** C9, as the code has it.  With a [V0_type] that is neither
    "optimized" nor "original" and at least one population, [create]
    raises the exception for the incorrect [V0_type], and it does so
    after the first population has been created in the kernel and given
    its neuron parameters: the kernel then holds those nodes, nothing
    else, the list of populations is empty and no file was written.
    With no population at all, the mode is never looked at. *)
Theorem C9_unsupported_V0_type (N : network) (s : state) (m : nat)
  (n0 : Z) (I0 : Q) :
  String.eqb (V0_type (net N)) "optimized" = false ->
  String.eqb (V0_type (net N)) "original" = false ->
  (num_pops (plan N) = S m ->
   index (num_neurons (plan N)) 0 = Ok n0 ->
   index (DC_amp (plan N)) 0 = Ok I0 ->
   let s' := exec (create N) s in
   outcome (create N) s = Raise (PyException V0_type_message)
   /\ trace (kernel s')
      = trace (kernel s)
        ++ [EvCreate (neuron_model (net N)) n0 [];
            EvSetStatus {| nc_first := network_size (kernel s) + 1;
                           nc_n := n0 |}
              (neuron_status N I0)]
   /\ network_size (kernel s') = (network_size (kernel s) + n0)%Z
   /\ pops (self s') = Some []
   /\ files s' = files s)
  /\ (num_pops (plan N) = 0%nat ->
      outcome (create_neuronal_populations N) s = Ok tt).
Proof.
  intros Ho Hg. split.
  - intros Hn Hi Hd s'. subst s'.
    unfold outcome, exec, create, create_neuronal_populations.
    rewrite Hn. cbn [seq for_each].
    unfold create_population, bind, rank0, when, lift, print, set_self,
      nest_Create, nest_SetStatus, kernel_Create, raise, ret, with_kernel,
      record.
    rewrite Hi, Hd, Ho, Hg.
    destruct (rank N =? 0)%Z, (nest_version N); cbn;
      rewrite <- ?app_assoc; cbn; auto.
  - intros Hn.
    unfold outcome, create_neuronal_populations.
    rewrite Hn. cbn [seq for_each].
    unfold bind, rank0, when, print, set_self, attr, lift, write_file, ret.
    destruct (rank N =? 0)%Z; reflexivity.
Qed.

Lemma C9_unsupported_V0_type_witness :
  let N := demo_object V2 (demo_net 1 1 true "optimised")
             (demo_stim true true) in
  outcome (create N) demo_start = Raise (PyException V0_type_message)
  /\ network_size (kernel (exec (create N) demo_start)) = 100%Z
  /\ pops (self (exec (create N) demo_start)) = Some [].
Proof.
  intros N.
  assert (I : { I0 | index (DC_amp (plan N)) 0 = Ok I0 }).
  { eexists. vm_compute. reflexivity. }
  destruct I as [I0 I].
  destruct (proj1 (C9_unsupported_V0_type N demo_start 1 100 I0
                     eq_refl eq_refl) eq_refl eq_refl I)
    as [O [_ [Sz [Ps _]]]].
  auto.
Defined.

(** The claim as worded fails on the first population: when the
    exception for the unsupported mode is raised, the kernel already
    holds the 100 neurons of the first population. *)
Lemma C9_counterexample :
  let N := demo_object V3 (demo_net 1 1 true "optimised")
             (demo_stim true true) in
  outcome (create N) demo_start = Raise (PyException V0_type_message)
  /\ network_size (kernel demo_start) = 0%Z
  /\ network_size (kernel (exec (create N) demo_start)) = 100%Z
  /\ count is_create (trace (kernel (exec (create N) demo_start))) = 2%nat.
Proof. intros N. repeat split. Qed.

(** * Further properties *)

(** ** Pre- and postconditions *)

Section Hoare.

Context {Err : exn -> state -> Prop}.

Lemma hoare_ret {A} (Pre : state -> Prop) (Post : A -> state -> Prop) (a : A) :
  (forall s, Pre s -> Post a s) -> hoare Pre (ret a) Post Err.
Proof. intros H s Hs. cbn. auto. Qed.

Lemma hoare_raise {A} (Pre : state -> Prop) (Post : A -> state -> Prop)
  (e : exn) :
  (forall s, Pre s -> Err e s) -> hoare Pre (raise e) Post Err.
Proof. intros H s Hs. cbn. auto. Qed.

Lemma hoare_lift {A} (Pre : state -> Prop) (Post : A -> state -> Prop)
  (x : result A) :
  (forall a s, x = Ok a -> Pre s -> Post a s) ->
  (forall e s, x = Raise e -> Pre s -> Err e s) ->
  hoare Pre (lift x) Post Err.
Proof. intros H1 H2 s Hs. unfold lift. destruct x; auto. Qed.

Lemma hoare_bind {A B} (Pre : state -> Prop) (Mid : A -> state -> Prop)
  (Post : B -> state -> Prop) (m : M A) (k : A -> M B) :
  hoare Pre m Mid Err -> (forall a, hoare (Mid a) (k a) Post Err) ->
  hoare Pre (bind m k) Post Err.
Proof.
  intros Hm Hk s Hs. unfold bind. specialize (Hm s Hs).
  destruct (m s) as [[a|e] s']; [apply Hk; exact Hm | exact Hm].
Qed.

Lemma hoare_pre {A} (Pre Pre' : state -> Prop) (Post : A -> state -> Prop)
  (m : M A) :
  (forall s, Pre' s -> Pre s) -> hoare Pre m Post Err -> hoare Pre' m Post Err.
Proof. intros W H s Hs. apply H. auto. Qed.

Lemma hoare_post {A} (Pre : state -> Prop) (Post Post' : A -> state -> Prop)
  (m : M A) :
  (forall a s, Post a s -> Post' a s) ->
  hoare Pre m Post Err -> hoare Pre m Post' Err.
Proof.
  intros W H s Hs. specialize (H s Hs).
  destruct (m s) as [[a|e] s']; auto.
Qed.

Lemma hoare_when (Pre : state -> Prop) (Post : unit -> state -> Prop)
  (c : bool) (m : M unit) :
  (c = true -> hoare Pre m Post Err) ->
  (c = false -> forall s, Pre s -> Post tt s) ->
  hoare Pre (when c m) Post Err.
Proof.
  destruct c; cbn; intros H1 H2; [auto | apply hoare_ret; auto].
Qed.

Lemma hoare_for_each {A} (I : state -> Prop) (l : list A) (body : A -> M unit) :
  (forall x, In x l -> hoare I (body x) (fun _ => I) Err) ->
  hoare I (for_each l body) (fun _ => I) Err.
Proof.
  induction l as [|x l IH]; intros H; cbn [for_each].
  - apply hoare_ret. auto.
  - eapply hoare_bind; [apply H; left; reflexivity|].
    intros u. apply IH. intros y Hy. apply H. right. exact Hy.
Qed.

(** A loop over [a, a+1, ..., a+n-1] whose invariant counts the rounds. *)
Lemma hoare_for_seq (n : nat) (body : nat -> M unit) :
  forall (I : nat -> state -> Prop) (a : nat),
    (forall k, (k < n)%nat ->
               hoare (I k) (body (a + k)%nat) (fun _ => I (S k)) Err) ->
    hoare (I 0%nat) (for_each (seq a n) body) (fun _ => I n) Err.
Proof.
  induction n as [|n IH]; intros I a H; cbn [seq for_each].
  - apply hoare_ret. auto.
  - eapply hoare_bind.
    + specialize (H 0%nat). rewrite Nat.add_0_r in H. apply H. lia.
    + intros u. apply (IH (fun k => I (S k)) (S a)).
      intros k Hk. replace (S a + k)%nat with (a + S k)%nat by lia.
      apply H. lia.
Qed.

End Hoare.

(** ** Invariants *)

Section Keeps.

Context {I : state -> Prop} {E : exn -> Prop}.

Lemma keeps_step {A} (m : M A) :
  (forall s, I s -> I (snd (m s)) /\ forall e, fst (m s) = Raise e -> E e) ->
  keeps I E m.
Proof.
  intros H s Hs. destruct (H s Hs) as [Hi He].
  destruct (m s) as [[a|e] s']; cbn in *; auto.
Qed.

Lemma keeps_run {A} (m : M A) (s : state) :
  keeps I E m -> I s ->
  I (exec m s) /\ forall e, outcome m s = Raise e -> E e.
Proof.
  intros H Hs. specialize (H s Hs). unfold exec, outcome.
  destruct (m s) as [[a|e] s']; cbn.
  - split; [exact H | discriminate].
  - destruct H as [Hi He]. split; [exact Hi|].
    intros e' X. injection X as <-. exact He.
Qed.

Lemma keeps_ret {A} (a : A) : keeps I E (ret a).
Proof. apply hoare_ret. auto. Qed.

Lemma keeps_raise {A} (e : exn) : E e -> keeps I E (@raise A e).
Proof. intros H. apply hoare_raise. auto. Qed.

Lemma keeps_lift {A} (x : result A) :
  (forall e, x = Raise e -> E e) -> keeps I E (lift x).
Proof. intros H. apply hoare_lift; eauto. Qed.

Lemma keeps_bind {A B} (m : M A) (k : A -> M B) :
  keeps I E m -> (forall a, keeps I E (k a)) -> keeps I E (bind m k).
Proof.
  intros Hm Hk. eapply hoare_bind; [exact Hm|]. intros a. apply Hk.
Qed.

Lemma keeps_bind_lift {A B} (x : result A) (k : A -> M B) :
  (forall e, x = Raise e -> E e) ->
  (forall a, x = Ok a -> keeps I E (k a)) ->
  keeps I E (bind (lift x) k).
Proof.
  intros He Hk s Hs. unfold bind, lift.
  destruct x as [a|e]; [apply (Hk a eq_refl s Hs) | auto].
Qed.

Lemma keeps_when (c : bool) (m : M unit) :
  (c = true -> keeps I E m) -> keeps I E (when c m).
Proof.
  intros H. apply hoare_when; [exact H | auto].
Qed.

Lemma keeps_rank0 (N : network) (m : M unit) :
  ((rank N =? 0)%Z = true -> keeps I E m) -> keeps I E (rank0 N m).
Proof. apply keeps_when. Qed.

Lemma keeps_for_each {A} (l : list A) (body : A -> M unit) :
  (forall x, In x l -> keeps I E (body x)) -> keeps I E (for_each l body).
Proof. apply hoare_for_each. Qed.

Lemma keeps_attr {A} (name : string) (get : attrs -> option A) :
  (forall s, I s -> get (self s) = None -> E (AttributeError name)) ->
  keeps I E (attr name get).
Proof.
  intros H s Hs. unfold attr.
  destruct (get (self s)) eqn:G; cbn; eauto.
Qed.

Lemma keeps_resolution : keeps I E nest_resolution.
Proof. intros s Hs. exact Hs. Qed.

Lemma keeps_try_except (m handler : M unit) (E' : exn -> Prop) :
  hoare I m (fun _ => I) (fun e s => I s /\ E' e) ->
  keeps I E handler -> keeps I E (try_except m handler).
Proof.
  intros Hm Hh s Hs. unfold try_except. specialize (Hm s Hs).
  destruct (m s) as [[a|e] s']; [exact Hm|].
  destruct Hm as [Hi _]. apply (Hh s' Hi).
Qed.

End Keeps.

(** One step of the routine part of an invariant proof; what is left are
    the calls that change the state. *)
Ltac keeps_step :=
  lazymatch goal with
  | |- keeps _ _ (bind (lift _) _) =>
      apply keeps_bind_lift; [intros ? ? | intros ? ?]
  | |- keeps _ _ (bind _ _) => apply keeps_bind; [|intros ?]
  | |- keeps _ _ (rank0 _ _) => apply keeps_rank0; intros ?
  | |- keeps _ _ (when _ _) => apply keeps_when; intros ?
  | |- keeps _ _ (for_each _ _) => apply keeps_for_each; intros ? ?
  | |- keeps _ _ (ret _) => apply keeps_ret
  | |- keeps _ _ (lift _) => apply keeps_lift; intros ? ?
  | |- keeps _ _ nest_resolution => apply keeps_resolution
  | |- keeps _ _ (attr _ _) => apply keeps_attr; intros ? ? ?
  | |- keeps _ _ (match nest_version ?N with _ => _ end) =>
      destruct (nest_version N) eqn:?
  | |- keeps _ _ (match ?d with DcList _ => _ | DcCollection _ => _ end) =>
      destruct d
  | |- keeps _ _ (if ?c then _ else _) => destruct c eqn:?
  | |- keeps _ _ (let '(_, _) := ?c in _) => destruct c
  end.

(** Unfolding the methods down to the calls that change the state. *)
Ltac unfold_connect :=
  unfold connect, connect_steps, connect_neuronal_populations,
    connect_recording_devices, connect_poisson_bg_input,
    connect_thalamic_stim_input, connect_dc_stim_input,
    recurrent_syn_dict, thalamic_syn_dict.

Ltac unfold_create :=
  unfold create, create_neuronal_populations, create_population, set_V_m,
    create_recording_devices, create_poisson_bg_input,
    create_thalamic_stim_input, create_dc_stim_input, set_dc_stim_input.

(** A call that leaves alone what the invariant speaks of. *)
Ltac frame_call :=
  apply keeps_step;
  let s := fresh "s" in
  let Hs := fresh "Hs" in
  intros s Hs; cbn;
  split; [try exact Hs; auto | intros; try exact Logic.I; try discriminate].

Lemma connect_steps_keeps_size (N : network) (z : Z) :
  keeps (fun s => network_size (kernel s) = z) any_exn (connect_steps N).
Proof.
  unfold_connect. repeat keeps_step; try exact Logic.I; frame_call.
Qed.

(** ** What [create] and [connect] leave alone *)

Lemma filter_none (p : event -> bool) (l : list event) :
  Forall (fun e => p e = false) l -> filter p l = [].
Proof.
  induction 1 as [|e l He _ IH]; cbn; [reflexivity|].
  rewrite He. exact IH.
Qed.

Lemma creation_no_connect (cs : list event) :
  Forall creation cs -> Forall (fun e => is_connect e = false) cs.
Proof.
  intros F. eapply Forall_impl; [|exact F].
  intros [] H; try reflexivity; discriminate H.
Qed.

(** X1.  [create] only adds nodes and their settings to the kernel,
    whether it completes or raises: it makes no connection, does not
    prepare or run the kernel, and leaves the clock and the resolution
    as they were. *)
Theorem create_only_creates (N : network) (s : state) :
  let s' := exec (create N) s in
  prepared (kernel s') = prepared (kernel s)
  /\ biological_time (kernel s') = biological_time (kernel s)
  /\ resolution (kernel s') = resolution (kernel s)
  /\ connections (kernel s') = connections (kernel s)
  /\ exists evs,
       trace (kernel s') = trace (kernel s) ++ evs
       /\ Forall (fun e => is_create e = true) evs.
Proof.
  intros s'.
  destruct (create_yields N _ s eq_refl) as [[R [P [T [evs [E F]]]]] _].
  fold (exec (create N) s) in R, P, T, E. fold s' in R, P, T, E.
  repeat (split; [assumption|]). split.
  - unfold connections. rewrite E, filter_app.
    rewrite (filter_none _ _ (creation_no_connect _ F)), app_nil_r.
    reflexivity.
  - exists evs. auto.
Qed.

Lemma nest_Prepare_size (s : state) :
  network_size (kernel (snd (nest_Prepare s))) = network_size (kernel s)
  /\ biological_time (kernel (snd (nest_Prepare s)))
     = biological_time (kernel s)
  /\ resolution (kernel (snd (nest_Prepare s))) = resolution (kernel s).
Proof.
  unfold nest_Prepare, kernel_call, kernel_Prepare.
  destruct (prepared (kernel s)); cbn; auto.
Qed.

(** X2.  [connect] creates no node, whether it completes or raises: the
    size of the network, the clock and the resolution stay as they
    were, and all it adds to the kernel are connections, followed by at
    most one prepare. *)
Theorem connect_only_connects (N : network) (s : state) :
  let s' := exec (connect N) s in
  network_size (kernel s') = network_size (kernel s)
  /\ biological_time (kernel s') = biological_time (kernel s)
  /\ resolution (kernel s') = resolution (kernel s)
  /\ exists ks tl,
       trace (kernel s') = trace (kernel s) ++ ks ++ tl
       /\ Forall (fun e => is_connect e = true) ks
       /\ (tl = [] \/ tl = [EvPrepare]).
Proof.
  intros s'.
  destruct (connect_run N s) as [[R [_ [T _]]] C].
  pose proof (keeps_run _ s (connect_steps_keeps_size N _) eq_refl) as [Z _].
  assert (K : kernel s' = kernel (exec (connect_steps N) s)
              \/ s' = snd (nest_Prepare (exec (connect_steps N) s))).
  { subst s'. change (exec (connect N) s) with (snd (connect N s)).
    destruct (outcome (connect_steps N) s); rewrite C;
      [right | left]; reflexivity. }
  split; [|split; [|split]].
  - destruct K as [-> | ->]; [|rewrite (proj1 (nest_Prepare_size _))];
      exact Z.
  - destruct K as [-> | ->];
      [|rewrite (proj1 (proj2 (nest_Prepare_size _)))]; exact T.
  - destruct K as [-> | ->];
      [|rewrite (proj2 (proj2 (nest_Prepare_size _)))]; exact R.
  - destruct (connect_trace N s) as [ks [F Tr]].
    assert (F' : Forall (fun e => is_connect e = true) ks).
    { eapply Forall_impl; [|exact F]. apply connection_is_connect. }
    fold s' in Tr. destruct Tr as [Tr | Tr].
    + exists ks, []. rewrite app_nil_r. auto.
    + exists ks, [EvPrepare]. auto.
Qed.

(** ** The size of the network *)











Example network_size_after_session :
  let N := demo_object V3 (demo_net 1 1 true "optimized")
             (demo_stim true true) in
  outcome get_network_size
    (session N [CallCreate; CallConnect; CallSimulate 10; CallSimulate 20]
       demo_start)
  = Ok 141%Z.
Proof. reflexivity. Qed.

(** ** The populations and their identifiers *)

Lemma keeps_hoare {A} (I : state -> Prop) (E : exn -> Prop) (m : M A) :
  keeps I E m -> hoare I m (fun _ => I) anyhow.
Proof.
  intros H s Hs. specialize (H s Hs).
  destruct (m s) as [[a|e] s']; [exact H | exact Logic.I].
Qed.

Lemma hoare_bind_keeps {A B} (I : state -> Prop) (E : exn -> Prop)
  (Post : B -> state -> Prop) (m : M A) (k : A -> M B) :
  keeps I E m -> (forall a, hoare I (k a) Post anyhow) ->
  hoare I (bind m k) Post anyhow.
Proof.
  intros Hm Hk. eapply hoare_bind; [apply (keeps_hoare _ _ _ Hm)|].
  intros a. apply Hk.
Qed.

Lemma allocate_app (first : Z) (a b : list Z) :
  allocate first (a ++ b) = allocate first a ++ allocate (first + total a) b.
Proof.
  revert first. induction a as [|n a IH]; intros first;
    cbn [allocate app].
  - f_equal. unfold total. cbn. lia.
  - rewrite IH. do 3 f_equal. unfold total. cbn [fold_right]. lia.
Qed.

Lemma total_app (a b : list Z) : total (a ++ b) = (total a + total b)%Z.
Proof.
  unfold total. induction a as [|n a IH]; cbn; [reflexivity|].
  rewrite IH. lia.
Qed.

Lemma firstn_succ {A} (l : list A) (k : nat) (x : A) :
  nth_error l k = Some x -> firstn (S k) l = firstn k l ++ [x].
Proof.
  revert k. induction l as [|y l IH]; intros [|k] H; cbn in *;
    try discriminate.
  - injection H as ->. reflexivity.
  - rewrite (IH _ H). reflexivity.
Qed.

Lemma index_Some {A} (l : list A) (i : nat) (x : A) :
  index l i = Ok x -> nth_error l i = Some x.
Proof.
  unfold index. destruct (nth_error l i); [|discriminate].
  intros H. injection H as ->. reflexivity.
Qed.

(** The lines of consecutively numbered collections are contiguous. *)
Lemma allocate_contiguous (first : Z) (ns : list Z) :
  contiguous first (map id_line (allocate first ns)).
Proof.
  revert first. induction ns as [|n ns IH]; intros first; cbn; [exact Logic.I|].
  split; [reflexivity|].
  replace (first + n - 1 + 1)%Z with (first + n)%Z by lia. apply IH.
Qed.

Lemma map_nc_n_allocate (first : Z) (ns : list Z) :
  map nc_n (allocate first ns) = ns.
Proof.
  revert first. induction ns as [|n ns IH]; intros first; cbn;
    [|rewrite IH]; reflexivity.
Qed.

Lemma create_population_round (N : network) (z0 : Z)
  (fs0 : list (string * list (Z * Z))) (k : nat) :
  hoare (populated N z0 fs0 k) (create_population N k)
    (fun _ => populated N z0 fs0 (S k)) anyhow.
Proof.
  unfold create_population.
  eapply hoare_bind with
    (Mid := fun n s => nth_error (num_neurons (plan N)) k = Some n
                       /\ populated N z0 fs0 k s).
  { apply hoare_lift.
    - intros n s Hn Hs. split; [apply index_Some; exact Hn | exact Hs].
    - intros; exact Logic.I. }
  intros n.
  eapply hoare_bind with (Mid := populating N z0 fs0 k n).
  { intros s [Hn [L [Pp [Sz Fl]]]]. cbn.
    unfold populating. cbn. rewrite Sz. auto 10. }
  intros pop.
  eapply hoare_bind_keeps with (E := any_exn).
  { apply keeps_lift. intros; exact Logic.I. }
  intros I_e.
  eapply hoare_bind_keeps with (E := any_exn).
  { destruct (nest_version N); frame_call. }
  intros u1.
  eapply hoare_bind_keeps with (E := any_exn).
  { unfold set_V_m. repeat keeps_step; try exact Logic.I; frame_call. }
  intros u2 s [Hn [L [Hpop [Pp [Sz Fl]]]]].
  unfold bind, attr, set_self. rewrite Pp. cbv beta iota.
  unfold populated. cbn [self pops kernel network_size files].
  rewrite (firstn_succ _ _ _ Hn), length_app, L, allocate_app, total_app.
  cbn [List.length allocate]. subst pop.
  split; [lia|]. split; [|split; [|exact Fl]].
  - do 4 f_equal. lia.
  - rewrite Sz. change (total [n]) with (n + 0)%Z. lia.
Qed.

Lemma all_ok_first_last (ps : list node_collection) (lines : list (Z * Z)) :
  all_ok first_last ps = Ok lines ->
  lines = map id_line ps /\ Forall (fun c => (0 < nc_n c)%Z) ps.
Proof.
  revert lines. induction ps as [|c ps IH]; intros lines; cbn.
  - intros H. injection H as <-. auto.
  - unfold first_last at 1. destruct (0 <? nc_n c)%Z eqn:Pos; [|discriminate].
    destruct (all_ok first_last ps) as [ls|]; [|discriminate].
    intros H. injection H as <-.
    destruct (IH ls eq_refl) as [-> F].
    split; [reflexivity|]. constructor; [apply Z.ltb_lt; exact Pos | exact F].
Qed.

(** [__create_neuronal_populations], from a kernel of size [z0] and
    files [fs0]. *)
Lemma create_neuronal_populations_populates (N : network) (z0 : Z)
  (fs0 : list (string * list (Z * Z))) :
  let ns := firstn (num_pops (plan N)) (num_neurons (plan N)) in
  let ps := allocate (z0 + 1) ns in
  hoare (fun s1 => network_size (kernel s1) = z0 /\ files s1 = fs0)
    (create_neuronal_populations N)
    (fun _ s1 =>
       List.length ns = num_pops (plan N)
       /\ pops (self s1) = Some ps
       /\ network_size (kernel s1) = (z0 + total ns)%Z
       /\ if (rank N =? 0)%Z
          then Forall (fun n => (0 < n)%Z) ns
               /\ files s1
                  = fs0 ++ [(path_join (data_path (sim N))
                               "population_nodeids.dat",
                             map id_line ps)]
          else files s1 = fs0)
    anyhow.
Proof.
  intros ns ps.
  unfold create_neuronal_populations.
  eapply hoare_bind_keeps with (E := any_exn).
  { repeat keeps_step. frame_call. }
  intros u0.
  eapply hoare_bind with (Mid := fun _ => populated N z0 fs0 0).
  { intros s1 [Sz Fl]. cbn. unfold populated. cbn.
    rewrite Sz, Fl. unfold total. cbn. repeat split. lia. }
  intros u1.
  eapply hoare_bind with (Mid := fun _ => populated N z0 fs0 (num_pops (plan N))).
  { apply (hoare_for_seq (num_pops (plan N)) (create_population N)
             (populated N z0 fs0) 0).
    intros k _. apply create_population_round. }
  intros u2 s1 [L [Pp [Sz Fl]]]. fold ns in L, Pp, Sz. fold ps in Pp.
  unfold rank0, when.
  destruct (rank N =? 0)%Z; [|cbn; auto].
  unfold bind, attr, lift, write_file. rewrite Pp. cbv beta iota.
  destruct (all_ok first_last ps) as [lines|] eqn:A; [|exact Logic.I].
  cbn. destruct (all_ok_first_last _ _ A) as [-> F].
  rewrite Fl. repeat (split; [assumption|]). split; [|reflexivity].
  rewrite <- (map_nc_n_allocate (z0 + 1) ns). fold ps.
  apply Forall_map. exact F.
Qed.

(** X4.  When [__create_neuronal_populations] completes, the object
    holds one population per entry of [num_neurons] up to the number of
    populations, of that size each, numbered one after the other from
    the first free identifier on, and the network has grown by their
    total; on rank 0 every population then has at least one neuron and
    the file of node identifiers has got one line per population, first
    and last identifier, each line starting right after the one before;
    on the other ranks no file is written. *)
Theorem populations_numbered (N : network) (s : state) :
  outcome (create_neuronal_populations N) s = Ok tt ->
  let s' := exec (create_neuronal_populations N) s in
  let ns := firstn (num_pops (plan N)) (num_neurons (plan N)) in
  let ps := allocate (network_size (kernel s) + 1) ns in
  List.length ns = num_pops (plan N)
  /\ pops (self s') = Some ps
  /\ map nc_n ps = ns
  /\ network_size (kernel s') = (network_size (kernel s) + total ns)%Z
  /\ contiguous (network_size (kernel s) + 1) (map id_line ps)
  /\ if (rank N =? 0)%Z
     then Forall (fun n => (0 < n)%Z) ns
          /\ files s'
             = files s
               ++ [(path_join (data_path (sim N)) "population_nodeids.dat",
                    map id_line ps)]
     else files s' = files s.
Proof.
  intros O s' ns ps.
  set (z0 := network_size (kernel s)) in *.
  set (fs0 := files s) in *.
  pose proof (create_neuronal_populations_populates N z0 fs0) as H.
  cbv zeta in H. fold ns in H. fold ps in H.
  specialize (H s (conj eq_refl eq_refl)).
  unfold outcome in O. subst s'. unfold exec.
  destruct (create_neuronal_populations N s) as [[[]|e] s1]; cbn in *;
    [|discriminate].
  destruct H as [L [Pp [Sz Fl]]].
  split; [exact L|]. split; [exact Pp|].
  split; [apply map_nc_n_allocate|]. split; [exact Sz|].
  split; [apply allocate_contiguous | exact Fl].
Qed.

Example populations_numbered_demo :
  let N := demo_object V2 (demo_net 1 1 true "original")
             (demo_stim false false) in
  files (exec (create_neuronal_populations N) demo_start)
  = [("data/population_nodeids.dat"%string, [(1, 100); (101, 125)]%Z)].
Proof. reflexivity. Qed.

Lemma populations_numbered_witness :
  let N := demo_object V3 (demo_net 1 1 true "optimized")
             (demo_stim false false) in
  pops (self (exec (create_neuronal_populations N) demo_start))
  = Some [{| nc_first := 1; nc_n := 100 |}; {| nc_first := 101; nc_n := 25 |}]
  /\ network_size (kernel (exec (create_neuronal_populations N) demo_start))
     = 125%Z.
Proof.
  intros N.
  destruct (populations_numbered N demo_start eq_refl)
    as [_ [Pp [_ [Sz _]]]].
  split; [exact Pp | exact Sz].
Defined.

(** ** Connecting twice *)

(** X5.  A [connect] that completes leaves the kernel prepared, and on a
    prepared kernel [connect] never completes: when its connection steps
    go through, having made their connections once more, its closing
    [nest.Prepare()] is refused and, unlike in [simulate], nothing
    catches the refusal.  So a second [connect] always raises. *)
Theorem connect_twice_raises (N : network) (s : state) :
  (outcome (connect N) s = Ok tt ->
   prepared (kernel (exec (connect N) s)) = true)
  /\ (prepared (kernel s) = true ->
      (exists e, outcome (connect N) s = Raise e)
      /\ (outcome (connect_steps N) s = Ok tt ->
          outcome (connect N) s
          = Raise (KernelException "Prepare called twice.")
          /\ kernel (exec (connect N) s) = kernel (exec (connect_steps N) s)))
  /\ (outcome (connect N) s = Ok tt ->
      exists e, outcome (connect N) (exec (connect N) s) = Raise e).
Proof.
  assert (A : forall s0, outcome (connect N) s0 = Ok tt ->
                         prepared (kernel (exec (connect N) s0)) = true).
  { intros s0. destruct (connect_run N s0) as [_ C].
    unfold outcome at 1, exec at 1.
    destruct (outcome (connect_steps N) s0); rewrite C; [|discriminate].
    unfold nest_Prepare, kernel_call, kernel_Prepare.
    destruct (prepared (kernel (exec (connect_steps N) s0))); cbn;
      [discriminate | reflexivity]. }
  assert (B : forall s0, prepared (kernel s0) = true ->
    (exists e, outcome (connect N) s0 = Raise e)
    /\ (outcome (connect_steps N) s0 = Ok tt ->
        outcome (connect N) s0
        = Raise (KernelException "Prepare called twice.")
        /\ kernel (exec (connect N) s0) = kernel (exec (connect_steps N) s0))).
  { intros s0 Hp. destruct (connect_run N s0) as [[_ [P _]] C].
    unfold outcome at 1 3, exec at 1.
    destruct (outcome (connect_steps N) s0) as [[]|e]; rewrite C.
    - rewrite nest_Prepare_twice by congruence. cbn. eauto.
    - cbn. split; [eauto | discriminate]. }
  split; [apply A|]. split; [apply B|].
  intros O. apply B. apply A. exact O.
Qed.

Lemma connect_twice_raises_witness :
  let N := demo_object V3 (demo_net 1 1 true "optimized")
             (demo_stim true true) in
  let s := exec (create N) demo_start in
  outcome (connect N) s = Ok tt
  /\ outcome (connect N) (exec (connect N) s)
     = Raise (KernelException "Prepare called twice.")
  /\ count is_connect (trace (kernel (exec (connect N) (exec (connect N) s))))
     = 26%nat.
Proof.
  intros N s.
  assert (O : outcome (connect N) s = Ok tt) by reflexivity.
  destruct (connect_twice_raises N (exec (connect N) s)) as [_ [B _]].
  destruct (B eq_refl) as [_ B2]. destruct (B2 eq_refl) as [R _].
  split; [exact O|]. split; [exact R | reflexivity].
Defined.

(** ** From [create] to [connect] *)

Lemma hoare_set_self (I I' : state -> Prop) (f : attrs -> attrs) :
  (forall s, I s ->
             I' {| kernel := kernel s; self := f (self s);
                   stdout := stdout s; files := files s |}) ->
  hoare I (set_self f) (fun _ => I') anyhow.
Proof. intros H s Hs. cbn. auto. Qed.

Ltac have_solve :=
  unfold have in *; cbn in *;
  intuition (try discriminate; try congruence; auto).

(** A call under an invariant on the attributes. *)
Ltac attrs_call :=
  apply keeps_step;
  let s := fresh "s" in
  let Hs := fresh "Hs" in
  intros s Hs; cbn;
  split; [first [exact Hs | have_solve]
         | intros; try exact Logic.I; try discriminate].

Ltac keeps_attrs :=
  repeat keeps_step; try exact Logic.I; attrs_call.

(** The next call keeps the invariant on the attributes. *)
Ltac kp :=
  eapply hoare_bind_keeps with (E := any_exn); [keeps_attrs | intros ?].

(** The next call assigns an attribute. *)
Ltac assign M :=
  eapply hoare_bind with (Mid := fun _ s => M (self s));
  [apply hoare_set_self; intros; have_solve | intros ?].

Ltac rest_keeps :=
  cbv zeta; apply keeps_hoare with (E := any_exn); keeps_attrs.

Section Have.

Context (N : network) (p1 p2 p3 p4 p5 p6 p7 : Prop).

Lemma create_neuronal_populations_have :
  hoare (fun s => have p1 p2 p3 p4 p5 p6 p7 (self s))
    (create_neuronal_populations N)
    (fun _ s => have True p2 p3 p4 p5 p6 p7 (self s)) anyhow.
Proof.
  unfold create_neuronal_populations. kp.
  assign (have True p2 p3 p4 p5 p6 p7).
  unfold create_population, set_V_m. rest_keeps.
Qed.

Lemma create_recording_devices_have :
  hoare (fun s => have p1 p2 p3 p4 p5 p6 p7 (self s))
    (create_recording_devices N)
    (fun _ s =>
       have p1 (elem "spike_recorder" (rec_dev (sim N)) = true)
         (elem "voltmeter" (rec_dev (sim N)) = true) p4 p5 p6 p7 (self s))
    anyhow.
Proof.
  unfold create_recording_devices. kp.
  eapply hoare_bind with
    (Mid := fun _ s =>
       have p1 (elem "spike_recorder" (rec_dev (sim N)) = true)
         False p4 p5 p6 p7 (self s)).
  { apply hoare_when; [intros Hc | intros Hc s Hs; have_solve].
    kp. kp. apply hoare_set_self. intros; have_solve. }
  intros u.
  apply hoare_when; [intros Hc | intros Hc s Hs; have_solve].
  kp. cbv zeta. kp. apply hoare_set_self. intros; have_solve.
Qed.

Lemma create_poisson_bg_input_have :
  hoare (fun s => have p1 p2 p3 p4 p5 p6 p7 (self s))
    (create_poisson_bg_input N)
    (fun _ s => have p1 p2 p3 True p5 p6 p7 (self s)) anyhow.
Proof.
  unfold create_poisson_bg_input. kp. kp.
  assign (have p1 p2 p3 True p5 p6 p7). rest_keeps.
Qed.

Lemma create_thalamic_stim_input_have :
  hoare (fun s => have p1 p2 p3 p4 p5 p6 p7 (self s))
    (create_thalamic_stim_input N)
    (fun _ s => have p1 p2 p3 p4 True True p7 (self s)) anyhow.
Proof.
  unfold create_thalamic_stim_input. kp. kp.
  assign (have p1 p2 p3 p4 True p6 p7). kp.
  assign (have p1 p2 p3 p4 True True p7). rest_keeps.
Qed.

Lemma create_dc_stim_input_have :
  hoare (fun s => have p1 p2 p3 p4 p5 p6 p7 (self s))
    (create_dc_stim_input N)
    (fun _ s => have p1 p2 p3 p4 p5 p6 True (self s)) anyhow.
Proof.
  unfold create_dc_stim_input, set_dc_stim_input. cbv zeta. kp.
  destruct (nest_version N).
  - assign (have p1 p2 p3 p4 p5 p6 True). rest_keeps.
  - kp. apply hoare_set_self. intros; have_solve.
Qed.

End Have.

Lemma elem_none (x : string) (l : list string) :
  (0 <? List.length l)%nat = false -> elem x l = false.
Proof. destruct l; [reflexivity | discriminate]. Qed.

(** When [create] completes, every attribute that [connect] will read
    has been assigned. *)
Lemma create_ready (N : network) :
  hoare (fun _ => True) (create N) (fun _ s => ready N (self s)) anyhow.
Proof.
  unfold create, ready.
  eapply hoare_bind with
    (Mid := fun _ s => have True False False False False False False (self s)).
  { eapply hoare_pre;
      [|apply (create_neuronal_populations_have N
                 False False False False False False False)].
    intros; have_solve. }
  intros u1.
  eapply hoare_bind with
    (Mid := fun _ s =>
       have True (elem "spike_recorder" (rec_dev (sim N)) = true)
         (elem "voltmeter" (rec_dev (sim N)) = true)
         False False False False (self s)).
  { apply hoare_when; [intros Hc; apply create_recording_devices_have|].
    intros Hc s Hs.
    pose proof (elem_none "spike_recorder" _ Hc).
    pose proof (elem_none "voltmeter" _ Hc). have_solve. }
  intros u2.
  eapply hoare_bind with
    (Mid := fun _ s =>
       have True (elem "spike_recorder" (rec_dev (sim N)) = true)
         (elem "voltmeter" (rec_dev (sim N)) = true)
         (poisson_input (net N) = true) False False False (self s)).
  { apply hoare_when; [intros Hc | intros Hc s Hs; have_solve].
    eapply hoare_post; [|apply create_poisson_bg_input_have].
    intros; have_solve. }
  intros u3.
  eapply hoare_bind with
    (Mid := fun _ s =>
       have True (elem "spike_recorder" (rec_dev (sim N)) = true)
         (elem "voltmeter" (rec_dev (sim N)) = true)
         (poisson_input (net N) = true) (thalamic_input (stim N) = true)
         (thalamic_input (stim N) = true) False (self s)).
  { apply hoare_when; [intros Hc | intros Hc s Hs; have_solve].
    eapply hoare_post; [|apply create_thalamic_stim_input_have].
    intros; have_solve. }
  intros u4.
  apply hoare_when; [intros Hc | intros Hc s Hs; have_solve].
  eapply hoare_post; [|apply create_dc_stim_input_have].
  intros; have_solve.
Qed.

Lemma nc_index_raise (c : node_collection) (i : nat) (e : exn) :
  nc_index c i = Raise e -> e = IndexError.
Proof.
  unfold nc_index. destruct (_ <? _)%Z; [discriminate|].
  intros H. injection H as <-. reflexivity.
Qed.

(** An exception coming from a subscript. *)
Ltac from_subscript :=
  unfold only_index;
  lazymatch goal with
  | H : index _ _ = Raise _ |- _ => exact (index_raise _ _ _ H)
  | H : index2 _ _ _ = Raise _ |- _ => exact (index2_raise _ _ _ _ H)
  | H : nc_index _ _ = Raise _ |- _ => exact (nc_index_raise _ _ _ H)
  | H : match ?d with DcCollection _ => _ | DcList _ => _ end = Raise _ |- _ =>
      destruct d;
      [exact (nc_index_raise _ _ _ H) | exact (index_raise _ _ _ H)]
  end.

(** On an object whose attributes are ready, the connection steps raise
    nothing but a subscript out of range, and leave the attributes as
    they are. *)
Lemma connect_steps_ready (N : network) :
  thalamic_derived N ->
  keeps (fun s => ready N (self s)) only_index (connect_steps N).
Proof.
  intros TD. unfold_connect.
  repeat keeps_step;
    try from_subscript;
    try (exfalso; unfold ready in *; have_solve; fail);
    try attrs_call;
    match goal with
    | H : thalamic_input (stim N) = true |- _ =>
        destruct (TD H) as [W C];
        destruct (num_th_synapses (plan N)), (weight_th (plan N));
        try discriminate; contradiction
    end.
Qed.

(** X6.  On the object [__init__] builds, once [create] has completed,
    [connect] reads no attribute that is missing and is not refused by
    the engine: it either completes or raises for a subscript out of
    range, the shapes of the configured arrays being all that can still
    be wrong. *)
Theorem connect_after_create (h : helpers) (sd : sim_dict) (nd : net_dict)
  (st : stim_dict) (v : version) (rk : Z) (N : network) (s0 : state) :
  init h sd nd st v rk = Ok (N, s0) ->
  outcome (create N) s0 = Ok tt ->
  let s1 := exec (create N) s0 in
  ready N (self s1)
  /\ (outcome (connect N) s1 = Ok tt
      \/ outcome (connect N) s1 = Raise IndexError).
Proof.
  intros Hi Oc s1.
  destruct (init_state _ _ _ _ _ _ _ _ Hi) as [_ [Hp [_ [_ D]]]].
  assert (TD : thalamic_derived N).
  { assert (Est : stim N = st /\ net N = nd).
    { unfold init in Hi. destruct (derive_parameters h nd st); [|discriminate].
      injection Hi as <- _. auto. }
    destruct Est as [Es En]. unfold thalamic_derived. rewrite Es.
    intros T.
    pose proof (derive_thalamic h nd st) as Th. rewrite D, T in Th.
    cbn in Th. destruct (expected_th h nd st); [|discriminate].
    destruct (neq1 (K_scaling nd)); injection Th as -> ->;
      split; discriminate. }
  assert (R : ready N (self s1)).
  { pose proof (create_ready N s0 Logic.I) as H.
    unfold outcome in Oc. subst s1. unfold exec.
    destruct (create N s0) as [[[]|e] s']; [exact H | discriminate]. }
  split; [exact R|].
  assert (P1 : prepared (kernel s1) = false).
  { subst s1. rewrite (proj2 (create_keeps N s0)). exact Hp. }
  destruct (keeps_run _ s1 (connect_steps_ready N TD) R) as [_ E].
  destruct (connect_run N s1) as [_ C].
  unfold outcome at 1 2.
  destruct (outcome (connect_steps N) s1) as [[]|e] eqn:O; rewrite C.
  - left. destruct (connect_run N s1) as [[_ [P _]] _].
    rewrite nest_Prepare_fresh by congruence. reflexivity.
  - right. cbn. rewrite (E e eq_refl). reflexivity.
Qed.

Lemma connect_after_create_witness :
  let N := demo_object V2 (demo_net 1 (1 # 4) false "original")
             (demo_stim true true) in
  outcome (connect N) (exec (create N) demo_start) = Ok tt
  \/ outcome (connect N) (exec (create N) demo_start) = Raise IndexError.
Proof.
  intros N.
  exact (proj2 (connect_after_create demo_helpers demo_sim
                  (demo_net 1 (1 # 4) false "original") (demo_stim true true)
                  V2 0 N demo_start eq_refl eq_refl)).
Defined.

(** ** Thalamic weights *)

Lemma thalamic_weight_clipped (N : network) (res w : Q) (sd : syn_spec) :
  thalamic_syn N res w sd ->
  exists p,
    syn_weight sd = Some p
    /\ normal_of p = Some (w, w * weight_rel_std (net N))
    /\ clip_range p = Some (Fin 0, PosInf)
    /\ forall draws x, sample p draws = Some x -> 0 <= x.
Proof.
  intros [_ [Hw _]]. eexists. split; [exact Hw|].
  set (p := match nest_version N with V3 => _ | V2 => _ end).
  assert (Nm : normal_of p = Some (w, w * weight_rel_std (net N)))
    by (subst p; destruct (nest_version N); reflexivity).
  assert (Cl : clip_range p = Some (Fin 0, PosInf))
    by (subst p; destruct (nest_version N); reflexivity).
  split; [exact Nm|]. split; [exact Cl|].
  intros draws x S. exact (proj1 (sample_within _ _ _ _ Cl S)).
Qed.

Lemma connect_thalamic_weights (N : network) (r : Q) :
  yields r (thalamic_weight_kept N) any (connect_thalamic_stim_input N).
Proof.
  unfold connect_thalamic_stim_input. repeat yields_step.
  - apply yields_Connect. intros c n He Hc.
    injection He as <-. discriminate Hc.
  - eapply yields_bind; [apply thalamic_syn_dict_yields|].
    intros sd [w [Hw S]]. repeat yields_step.
    apply yields_Connect. intros c n He Hc. injection He as <-. cbn.
    destruct (thalamic_weight_clipped _ _ _ _ S) as [p [Hp [Nm [Cl K]]]].
    exists sd, p, w. auto 10.
Qed.

(** X7.  The weights of the thalamic connections are drawn from a normal
    distribution with the thalamic weight as mean and that weight times
    the relative spread as standard deviation, bounded below by 0 and
    unbounded above under both engine revisions, whatever the sign of
    the mean: no drawn thalamic weight is negative.  Building the
    dictionary fails for a missing attribute when the thalamic weight
    was not derived.  Every connection with a fixed total number of
    synapses that [__connect_thalamic_stim_input] makes carries such a
    weight. *)
Theorem thalamic_weights_not_negative (N : network) (s : state) :
  (forall w,
     weight_th (plan N) = Some w ->
     exists sd p,
       thalamic_syn_dict N s = (Ok sd, s)
       /\ syn_weight sd = Some p
       /\ normal_of p = Some (w, w * weight_rel_std (net N))
       /\ clip_range p = Some (Fin 0, PosInf)
       /\ forall draws x, sample p draws = Some x -> 0 <= x)
  /\ (weight_th (plan N) = None ->
      thalamic_syn_dict N s = (Raise (AttributeError "weight_th"), s))
  /\ exists evs,
       trace (kernel (exec (connect_thalamic_stim_input N) s))
       = trace (kernel s) ++ evs
       /\ Forall (thalamic_weight_kept N) evs.
Proof.
  split; [|split].
  - intros w Hw.
    destruct (thalamic_syn_dict_run N s w Hw) as [sd [R S]].
    destruct (thalamic_weight_clipped _ _ _ _ S) as [p [Hp K]].
    exists sd, p. auto.
  - intros Hw. unfold thalamic_syn_dict, bind, lift. rewrite Hw.
    destruct (nest_version N); reflexivity.
  - destruct (connect_thalamic_weights N _ s eq_refl) as [[_ [_ [_ G]]] _].
    exact G.
Qed.

Lemma thalamic_weights_not_negative_witness :
  let N := demo_object V2 (demo_net 1 (1 # 4) true "optimized")
             (demo_stim true false) in
  exists sd p,
    thalamic_syn_dict N demo_start = (Ok sd, demo_start)
    /\ syn_weight sd = Some p
    /\ sample p [-1; 0; 14] = Some 14
    /\ forall draws x, sample p draws = Some x -> 0 <= x.
Proof.
  intros N.
  assert (W : { w | weight_th (plan N) = Some w }).
  { eexists. vm_compute. reflexivity. }
  destruct W as [w W].
  destruct (proj1 (thalamic_weights_not_negative N demo_start) w W)
    as [sd [p [R [Hp [_ [_ K]]]]]].
  exists sd, p. split; [exact R|]. split; [exact Hp|]. split; [|exact K].
  vm_compute in R. injection R as <-. cbn in Hp. injection Hp as <-.
  vm_compute. reflexivity.
Defined.

(** ** Seeds *)

Lemma seq_from (a n : nat) : seq a n = map (fun i => (a + i)%nat) (seq 0 n).
Proof.
  revert a. induction n as [|n IH]; intros a; cbn; [reflexivity|].
  rewrite Nat.add_0_r. f_equal.
  rewrite <- (seq_shift n 0), map_map, (IH (S a)).
  apply map_ext. intros i. lia.
Qed.

Lemma py_range_length (a : Z) (n : nat) :
  py_range a (a + Z.of_nat n)
  = map (fun i => (a + Z.of_nat i)%Z) (seq 0 n).
Proof.
  unfold py_range. replace (a + Z.of_nat n - a)%Z with (Z.of_nat n) by lia.
  rewrite Nat2Z.id. reflexivity.
Qed.

Lemma NoDup_map_injective {A B} (f : A -> B) (l : list A) :
  (forall x y, f x = f y -> x = y) -> NoDup l -> NoDup (map f l).
Proof.
  intros Inj. induction 1 as [|x l Hx _ IH]; cbn; constructor; [|exact IH].
  intros H. apply in_map_iff in H as [y [E Hy]].
  apply Inj in E. subst y. exact (Hx Hy).
Qed.

Lemma all_seeds_consecutive (master_seed : Z) (N_vp : nat) :
  all_seeds (setup_seeds master_seed N_vp)
  = map (fun i => (master_seed + Z.of_nat i)%Z) (seq 0 (N_vp + S N_vp)).
Proof.
  unfold all_seeds, setup_seeds. cbn [pyrng_seeds grng_seed rng_seeds].
  rewrite py_range_length, seq_app, map_app. f_equal.
  cbn [seq map Nat.add]. f_equal.
  rewrite (seq_from (S N_vp) N_vp), map_map.
  apply map_ext. intros i. lia.
Qed.

(** X8.  Under engine revision 2 the seeds derived from the master seed
    and the number of virtual processes, those of the Python
    generators, that of the global generator and those of the
    per-process generators, are the consecutive integers from the master
    seed on, twice the number of processes plus one of them: no two of
    them are equal. *)
Theorem seeds_distinct (master_seed : Z) (N_vp : nat) :
  let sd := setup_seeds master_seed N_vp in
  all_seeds sd = py_range master_seed (master_seed + 2 * Z.of_nat N_vp + 1)
  /\ NoDup (all_seeds sd)
  /\ List.length (pyrng_seeds sd) = N_vp
  /\ List.length (rng_seeds sd) = N_vp
  /\ ~ In (grng_seed sd) (pyrng_seeds sd)
  /\ ~ In (grng_seed sd) (rng_seeds sd)
  /\ forall x, In x (pyrng_seeds sd) -> ~ In x (rng_seeds sd).
Proof.
  intros sd.
  assert (E : all_seeds sd
              = map (fun i => (master_seed + Z.of_nat i)%Z)
                  (seq 0 (N_vp + S N_vp)))
    by apply all_seeds_consecutive.
  assert (D : NoDup (all_seeds sd)).
  { rewrite E. apply NoDup_map_injective; [|apply seq_NoDup].
    intros i j H. lia. }
  split.
  { rewrite E. replace (master_seed + 2 * Z.of_nat N_vp + 1)%Z
      with (master_seed + Z.of_nat (N_vp + S N_vp))%Z by lia.
    symmetry. apply py_range_length. }
  split; [exact D|].
  split.
  { subst sd. cbn [setup_seeds pyrng_seeds].
    rewrite py_range_length, length_map, length_seq. reflexivity. }
  split.
  { subst sd. cbn [setup_seeds rng_seeds].
    rewrite length_map, length_seq. reflexivity. }
  unfold all_seeds in D.
  apply NoDup_remove in D as [D1 D2].
  split; [|split].
  - intros H. apply D2. apply in_or_app. left. exact H.
  - intros H. apply D2. apply in_or_app. right. exact H.
  - intros x Hx Hy.
    assert (D3 : NoDup (pyrng_seeds sd ++ rng_seeds sd)) by exact D1.
    clear D1 D2. induction (pyrng_seeds sd) as [|y l IH]; [destruct Hx|].
    cbn in D3. inversion D3 as [|? ? Hn Hd]; subst.
    destruct Hx as [-> | Hx]; [|exact (IH Hx Hd)].
    apply Hn. apply in_or_app. right. exact Hy.
Qed.

Example seeds_of_55_on_3 :
  setup_seeds 55 3
  = {| pyrng_seeds := [55; 56; 57]%Z; grng_seed := 58%Z;
       rng_seeds := [59; 60; 61]%Z |}.
Proof. reflexivity. Qed.

(** ** Loops that only connect *)

Lemma emit_nil (s : state) : emit s [] = s.
Proof.
  destruct s as [[r n p t tr] a o f]. unfold emit. cbn.
  rewrite app_nil_r. reflexivity.
Qed.

Lemma emit_app (s : state) (a b : list event) :
  emit (emit s a) b = emit s (a ++ b).
Proof. unfold emit. cbn. rewrite app_assoc. reflexivity. Qed.

(** A loop whose every round only adds events, on an object whose
    attributes are [a0] and a kernel of resolution [r]. *)
Lemma for_each_emits {A} (a0 : attrs) (r : Q) (l : list A)
  (body : A -> M unit) (f : A -> list event) :
  (forall x s, In x l -> self s = a0 -> resolution (kernel s) = r ->
               body x s = (Ok tt, emit s (f x))) ->
  forall s, self s = a0 -> resolution (kernel s) = r ->
            for_each l body s = (Ok tt, emit s (flat_map f l)).
Proof.
  induction l as [|x l IH]; intros H s Ha Hr; cbn [for_each flat_map].
  - unfold ret. rewrite emit_nil. reflexivity.
  - unfold bind. rewrite (H x s (or_introl eq_refl) Ha Hr).
    rewrite IH; [rewrite emit_app; reflexivity| | exact Ha | exact Hr].
    intros y s' Hy. apply H. right. exact Hy.
Qed.

Lemma flat_map_single {A B} (g : A -> B) (l : list A) :
  flat_map (fun x => [g x]) l = map g l.
Proof. induction l as [|x l IH]; cbn; [|rewrite IH]; reflexivity. Qed.

Lemma enumerate_length {A} (l : list A) :
  List.length (enumerate l) = List.length l.
Proof.
  unfold enumerate. rewrite length_combine, length_seq. apply Nat.min_id.
Qed.

Lemma enumerate_In {A} (l : list A) (i : nat) (x : A) :
  In (i, x) (enumerate l) -> (i < List.length l)%nat.
Proof.
  intros H. apply in_combine_l in H. apply in_seq in H. lia.
Qed.

Lemma nc_index_in_range (c : node_collection) (i : nat) :
  (Z.of_nat i < nc_n c)%Z ->
  nc_index c i = Ok {| nc_first := nc_first c + Z.of_nat i; nc_n := 1 |}.
Proof.
  intros H. unfold nc_index.
  destruct (Z.ltb_spec (Z.of_nat i) (nc_n c)); [reflexivity | lia].
Qed.

(** ** The background connections *)

Lemma print_then {A} (msg : string) (m : M A) (s : state) :
  (print msg ;; m) s
  = m {| kernel := kernel s; self := self s; stdout := stdout s ++ [msg];
         files := files s |}.
Proof. reflexivity. Qed.

Lemma rank0_print_bind {A} (N : network) (msg : string) (k : unit -> M A)
  (s : state) :
  exists o,
    bind (rank0 N (print msg)) k s
    = k tt {| kernel := kernel s; self := self s; stdout := o;
              files := files s |}.
Proof.
  unfold rank0, when, bind. destruct (rank N =? 0)%Z; cbn.
  - eexists. reflexivity.
  - exists (stdout s). destruct s; reflexivity.
Qed.

(** Running past the console message a method starts with. *)
Ltac skip_print N s o :=
  match goal with
  | |- context [bind (rank0 N (print ?msg)) ?k s] =>
      let E := fresh "E" in
      destruct (rank0_print_bind N msg k s) as [o E]; rewrite E; clear E;
      cbv beta
  end.

(** X9.  With the populations and enough background generators in
    place, [__connect_poisson_bg_input] completes and makes exactly one
    connection per population, in order: from the generator of the same
    rank in its collection to the population, all to all, with the
    external weight and the Poisson delay as constants. *)
Theorem poisson_connections (N : network) (s : state)
  (ps : list node_collection) (bg : node_collection) :
  pops (self s) = Some ps ->
  poisson_bg_input (self s) = Some bg ->
  (Z.of_nat (List.length ps) <= nc_n bg)%Z ->
  let s' := exec (connect_poisson_bg_input N) s in
  outcome (connect_poisson_bg_input N) s = Ok tt
  /\ kernel s' = kernel (emit s (poisson_events N bg ps))
  /\ self s' = self s
  /\ List.length (poisson_events N bg ps) = List.length ps.
Proof.
  intros Hp Hb Hn s'. subst s'. unfold outcome, exec.
  unfold connect_poisson_bg_input. skip_print N s o.
  set (s1 := {| kernel := kernel s; self := self s; stdout := o;
                files := files s |}).
  match goal with
  | |- context [fst (?m s1)] =>
      assert (E : m s1 = (Ok tt, emit s1 (poisson_events N bg ps)))
  end.
  { unfold bind at 1. unfold attr at 1. cbn [self s1]. rewrite Hp.
    rewrite (for_each_emits (self s) (resolution (kernel s)) (enumerate ps) _
               (fun tgt =>
                  [EvConnect
                     {| source :=
                          {| nc_first := nc_first bg + Z.of_nat (fst tgt);
                             nc_n := 1 |};
                        target := snd tgt;
                        conn_spec := Some all_to_all;
                        syn := Some (poisson_syn N) |}])).
    - rewrite flat_map_single. reflexivity.
    - intros [i tgt] s2 Hi Ha Hr. apply enumerate_In in Hi.
      unfold bind, attr, lift. rewrite Ha, Hb. cbn [fst snd].
      rewrite nc_index_in_range by lia. reflexivity.
    - reflexivity.
    - reflexivity. }
  rewrite E. cbn [fst snd].
  split; [reflexivity|]. split; [reflexivity|]. split; [reflexivity|].
  unfold poisson_events. rewrite length_map. apply enumerate_length.
Qed.

Lemma poisson_connections_witness :
  let N := demo_object V3 (demo_net 1 1 true "optimized")
             (demo_stim false false) in
  let s := exec (create N) demo_start in
  outcome (connect_poisson_bg_input N) s = Ok tt
  /\ List.length (filter is_connect
                    (trace (kernel (exec (connect_poisson_bg_input N) s))))
     = 2%nat.
Proof.
  intros N s.
  destruct (poisson_connections N s
              [{| nc_first := 1; nc_n := 100 |};
               {| nc_first := 101; nc_n := 25 |}]
              {| nc_first := 128; nc_n := 2 |} eq_refl eq_refl)
    as [O [K _]].
  - vm_compute. discriminate.
  - split; [exact O|]. rewrite K. reflexivity.
Defined.

(** ** The recurrent connections *)

Lemma index_nth {A} (d : A) (l : list A) (i : nat) (x : A) :
  index l i = Ok x -> nth i l d = x.
Proof.
  intros H. apply index_Some in H. apply nth_error_nth. exact H.
Qed.

Lemma index2_at2 {A} (d : A) (a : list (list A)) (i j : nat) (x : A) :
  index2 a i j = Ok x -> Np.at2 d a i j = x.
Proof.
  unfold index2, Np.at2. destruct (index a i) as [row|] eqn:R; [|discriminate].
  intros H. rewrite (index_nth [] _ _ _ R). apply index_nth. exact H.
Qed.

Lemma recurrent_syn_dict_pure (N : network) (i j : nat) (s : state) (w d : Q) :
  index2 (weight_matrix_mean (plan N)) i j = Ok w ->
  index2 (delay_matrix_mean (net N)) i j = Ok d ->
  recurrent_syn_dict N i j s
  = (Ok (recurrent_syn_of N (resolution (kernel s)) w d), s).
Proof.
  intros Hw Hd. unfold recurrent_syn_dict, recurrent_syn_of, bind, lift.
  rewrite Hw, Hd.
  destruct (nest_version N); destruct (Qlt_bool w 0); reflexivity.
Qed.

Lemma flat_map_length_const {A B} (f : A -> list B) (l : list A) (c : nat) :
  (forall x, In x l -> List.length (f x) = c) ->
  List.length (flat_map f l) = (List.length l * c)%nat.
Proof.
  induction l as [|x l IH]; intros H; cbn; [reflexivity|].
  rewrite length_app, (H x (or_introl eq_refl)), IH; [reflexivity|].
  intros y Hy. apply H. right. exact Hy.
Qed.

(** X10.  With the populations in place and the arrays of synapse
    counts, mean weights and mean delays holding an entry for every pair
    of populations, [__connect_neuronal_populations] completes and makes
    its connections target by target and, for each target, source by
    source: for the pair (i, j) one connection from population j to
    population i with [num_synapses[i][j]] synapses, and none when that
    count is negative.  With no negative count there are as many
    connections as pairs. *)
Theorem recurrent_connections (N : network) (s : state)
  (ps : list node_collection) :
  pops (self s) = Some ps ->
  square (List.length ps) (num_synapses (plan N)) ->
  square (List.length ps) (weight_matrix_mean (plan N)) ->
  square (List.length ps) (delay_matrix_mean (net N)) ->
  let s' := exec (connect_neuronal_populations N) s in
  let evs := recurrent_events N (resolution (kernel s)) ps in
  outcome (connect_neuronal_populations N) s = Ok tt
  /\ kernel s' = kernel (emit s evs)
  /\ self s' = self s
  /\ ((forall i j, (i < List.length ps)%nat -> (j < List.length ps)%nat ->
                   (0 <= Np.at2 0 (num_synapses (plan N)) i j)%Z) ->
      List.length evs = (List.length ps * List.length ps)%nat).
Proof.
  intros Hp Sn Sw Sd s' evs. subst s' evs. unfold outcome, exec.
  unfold connect_neuronal_populations. skip_print N s o.
  set (s1 := {| kernel := kernel s; self := self s; stdout := o;
                files := files s |}).
  match goal with
  | |- context [fst (?m s1)] =>
      assert (E : m s1
                  = (Ok tt,
                     emit s1 (recurrent_events N (resolution (kernel s)) ps)))
  end.
  { unfold bind at 1. unfold attr at 1. cbn [self s1]. rewrite Hp.
    unfold recurrent_events.
    apply (for_each_emits (self s) (resolution (kernel s)));
      [|reflexivity|reflexivity].
    intros [i tgt] s2 Hi Ha Hr. apply enumerate_In in Hi.
    apply (for_each_emits (self s) (resolution (kernel s)));
      [|exact Ha|exact Hr].
    intros [j src] s3 Hj Ha3 Hr3. apply enumerate_In in Hj.
    destruct (Sn i j Hi Hj) as [n Hn].
    destruct (Sw i j Hi Hj) as [w Hw].
    destruct (Sd i j Hi Hj) as [d Hd].
    unfold recurrent_event, bind, lift, when. cbn [fst snd].
    rewrite Hn, (index2_at2 0%Z _ _ _ _ Hn).
    destruct (0 <=? n)%Z.
    - rewrite (recurrent_syn_dict_pure N i j s3 w d Hw Hd), Hr3.
      rewrite (index2_at2 0 _ _ _ _ Hw), (index2_at2 0 _ _ _ _ Hd).
      reflexivity.
    - unfold ret. rewrite emit_nil. reflexivity. }
  rewrite E. cbn [fst snd].
  split; [reflexivity|]. split; [reflexivity|]. split; [reflexivity|].
  intros Pos. unfold recurrent_events.
  rewrite (flat_map_length_const _ _ (List.length ps)), enumerate_length;
    [reflexivity|].
  intros [i tgt] Hi. apply enumerate_In in Hi.
  rewrite (flat_map_length_const _ _ 1), enumerate_length; [lia|].
  intros [j src] Hj. apply enumerate_In in Hj.
  unfold recurrent_event. cbn [fst snd].
  destruct (Z.leb_spec 0 (Np.at2 0%Z (num_synapses (plan N)) i j));
    [reflexivity|].
  specialize (Pos i j Hi Hj). lia.
Qed.

Lemma recurrent_connections_witness :
  let N := demo_object V2 (demo_net 1 1 true "optimized")
             (demo_stim false false) in
  let s := exec (create N) demo_start in
  outcome (connect_neuronal_populations N) s = Ok tt
  /\ List.length (recurrent_events N (resolution (kernel s))
                    [{| nc_first := 1; nc_n := 100 |};
                     {| nc_first := 101; nc_n := 25 |}])
     = 4%nat.
Proof.
  intros N s.
  assert (Sq : forall A (a : list (list A)) (x00 x01 x10 x11 : A),
             a = [[x00; x01]; [x10; x11]] -> square 2 a).
  { intros A a x00 x01 x10 x11 -> i j Hi Hj.
    destruct i as [|[|i]]; destruct j as [|[|j]]; try lia;
      eexists; reflexivity. }
  destruct (recurrent_connections N s
              [{| nc_first := 1; nc_n := 100 |};
               {| nc_first := 101; nc_n := 25 |}] eq_refl)
    as [O [_ [_ L]]].
  - eapply Sq. vm_compute. reflexivity.
  - eapply Sq. vm_compute. reflexivity.
  - eapply Sq. vm_compute. reflexivity.
  - split; [exact O|]. apply L.
    intros i j Hi Hj. destruct i as [|[|i]]; destruct j as [|[|j]];
      try (cbn in Hi, Hj; lia); vm_compute; discriminate.
Defined.

(** ** The recording connections *)

(** X11.  With the populations and the recording devices asked for in
    place, [__connect_recording_devices] completes and does nothing but
    connect: each population to the spike recorder of its rank, and the
    voltmeter of its rank to the population, spike recorder first.  It
    prints nothing on any rank, its console message being guarded by a
    comparison that never holds. *)
Theorem recording_connections (N : network) (s : state)
  (ps : list node_collection) (sr vm : node_collection) :
  pops (self s) = Some ps ->
  (elem "spike_recorder" (rec_dev (sim N)) = true ->
   spike_recorders (self s) = Some sr
   /\ (Z.of_nat (List.length ps) <= nc_n sr)%Z) ->
  (elem "voltmeter" (rec_dev (sim N)) = true ->
   voltmeters (self s) = Some vm
   /\ (Z.of_nat (List.length ps) <= nc_n vm)%Z) ->
  connect_recording_devices N s
  = (Ok tt, emit s (recording_events N sr vm ps)).
Proof.
  intros Hp Hs Hv. unfold connect_recording_devices.
  unfold bind at 1. unfold attr at 1. rewrite Hp.
  unfold recording_events.
  apply (for_each_emits (self s) (resolution (kernel s)));
    [|reflexivity|reflexivity].
  intros [i tgt] s2 Hi Ha Hr. apply enumerate_In in Hi.
  cbn [fst snd].
  destruct (elem "spike_recorder" (rec_dev (sim N))) eqn:Es;
    destruct (elem "voltmeter" (rec_dev (sim N))) eqn:Ev;
    unfold bind, when, attr, lift, ret; cbn [self]; try rewrite Ha.
  - destruct (Hs eq_refl) as [Hs' Ls]. destruct (Hv eq_refl) as [Hv' Lv].
    rewrite Hs'. rewrite nc_index_in_range by lia. cbn.
    rewrite Ha, Hv'. rewrite nc_index_in_range by lia. cbn.
    unfold emit, nest_Connect, with_kernel, record. cbn.
    rewrite <- app_assoc. reflexivity.
  - destruct (Hs eq_refl) as [-> Ls].
    rewrite !nc_index_in_range by lia. cbn. reflexivity.
  - destruct (Hv eq_refl) as [-> Lv].
    rewrite !nc_index_in_range by lia. cbn. reflexivity.
  - rewrite app_nil_r, emit_nil. reflexivity.
Qed.

Lemma recording_connections_witness :
  let N := demo_object V3 (demo_net 1 1 true "optimized")
             (demo_stim false false) in
  let s := exec (create N) demo_start in
  let ps := [{| nc_first := 1; nc_n := 100 |};
             {| nc_first := 101; nc_n := 25 |}] in
  let sr := {| nc_first := 126; nc_n := 2 |} in
  stdout (exec (connect_recording_devices N) s) = stdout s
  /\ recording_events N sr sr ps
     = [EvConnect {| source := {| nc_first := 1; nc_n := 100 |};
                     target := {| nc_first := 126; nc_n := 1 |};
                     conn_spec := None; syn := None |};
        EvConnect {| source := {| nc_first := 101; nc_n := 25 |};
                     target := {| nc_first := 127; nc_n := 1 |};
                     conn_spec := None; syn := None |}].
Proof.
  intros N s ps sr. split; [|reflexivity].
  unfold exec.
  rewrite (recording_connections N s ps sr sr eq_refl).
  - reflexivity.
  - intros _. split; [reflexivity | cbn; lia].
  - intros H. vm_compute in H. discriminate H.
Defined.

(** ** Console and files *)

Lemma create_quiet (N : network) (o : list string)
  (f : list (string * list (Z * Z))) :
  (rank N =? 0)%Z = false -> keeps (quiet o f) any_exn (create N).
Proof.
  intros Hr. unfold_create.
  repeat (keeps_step; try congruence); try exact Logic.I; frame_call.
Qed.

Lemma connect_steps_quiet (N : network) (o : list string)
  (f : list (string * list (Z * Z))) :
  (rank N =? 0)%Z = false -> keeps (quiet o f) any_exn (connect_steps N).
Proof.
  intros Hr. unfold_connect.
  repeat (keeps_step; try congruence); try exact Logic.I; frame_call.
Qed.

Lemma connect_steps_keeps_files (N : network)
  (f : list (string * list (Z * Z))) :
  keeps (fun s => files s = f) any_exn (connect_steps N).
Proof.
  unfold_connect. repeat keeps_step; try exact Logic.I; frame_call.
Qed.

Lemma nest_Prepare_quiet (s : state) :
  stdout (snd (nest_Prepare s)) = stdout s
  /\ files (snd (nest_Prepare s)) = files s.
Proof.
  unfold nest_Prepare, kernel_call.
  destruct (kernel_Prepare (kernel s)); cbn; auto.
Qed.

Lemma connect_after_steps (N : network) (s : state) (P : state -> Prop) :
  P (exec (connect_steps N) s) ->
  (forall s1, P s1 -> P (snd (nest_Prepare s1))) ->
  P (exec (connect N) s).
Proof.
  intros H1 H2. destruct (connect_run N s) as [_ C].
  change (exec (connect N) s) with (snd (connect N s)).
  destruct (outcome (connect_steps N) s); rewrite C; [|exact H1].
  apply H2. exact H1.
Qed.

(** X12.  Away from rank 0, [create] and [connect] print nothing and
    write no file, whether they complete or raise; and on every rank
    [connect] writes no file. *)
Theorem quiet_off_rank_zero (N : network) (s : state) :
  rank N <> 0%Z ->
  stdout (exec (create N) s) = stdout s
  /\ files (exec (create N) s) = files s
  /\ stdout (exec (connect N) s) = stdout s
  /\ files (exec (connect N) s) = files s
  /\ files (exec (connect (on_rank N 0)) s) = files s.
Proof.
  intros Hr. apply Z.eqb_neq in Hr.
  assert (Q0 : quiet (stdout s) (files s) s) by (split; reflexivity).
  destruct (keeps_run _ s (create_quiet N _ _ Hr) Q0) as [[C1 C2] _].
  split; [exact C1|]. split; [exact C2|].
  assert (Q : quiet (stdout s) (files s) (exec (connect N) s)).
  { apply connect_after_steps.
    - apply (keeps_run _ s (connect_steps_quiet N _ _ Hr) Q0).
    - intros s1 [A B]. destruct (nest_Prepare_quiet s1) as [A' B'].
      split; congruence. }
  destruct Q as [C3 C4]. split; [exact C3|]. split; [exact C4|].
  apply (connect_after_steps (on_rank N 0) s (fun s1 => files s1 = files s)).
  - apply (keeps_run _ s (connect_steps_keeps_files (on_rank N 0) _)
             eq_refl).
  - intros s1 A. destruct (nest_Prepare_quiet s1) as [_ B']. congruence.
Qed.

Lemma quiet_off_rank_zero_witness :
  let N := on_rank (demo_object V3 (demo_net 1 1 true "optimized")
                      (demo_stim true true)) 3 in
  stdout (exec (create N) demo_start) = []
  /\ files (exec (create N) demo_start) = []
  /\ stdout (exec (create (on_rank N 0)) demo_start) <> [].
Proof.
  intros N.
  destruct (quiet_off_rank_zero N demo_start) as [A [B _]].
  - cbn. discriminate.
  - split; [exact A|]. split; [exact B|]. vm_compute. discriminate.
Defined.

(** ** The nodes [create] makes *)

Lemma hoare_for_count {A} (Err : exn -> state -> Prop) (l : list A)
  (body : A -> M unit) :
  forall I : nat -> state -> Prop,
    (forall k x, hoare (I k) (body x) (fun _ => I (S k)) Err) ->
    hoare (I 0%nat) (for_each l body) (fun _ => I (List.length l)) Err.
Proof.
  induction l as [|x l IH]; intros I H; cbn [for_each List.length].
  - apply hoare_ret. auto.
  - eapply hoare_bind; [apply H|].
    intros u. apply (IH (fun k => I (S k))). intros k y. apply H.
Qed.

Lemma nest_Create_sized (model : string) (n : Z) (p : params) (z : Z) :
  hoare (sized z) (nest_Create model n p) (fun _ => sized (z + n)%Z) anyhow.
Proof. intros s Hs. unfold sized in *. cbn. lia. Qed.

(** A step that makes no node. *)
Ltac same_size :=
  eapply hoare_bind_keeps with (E := any_exn);
  [repeat keeps_step; try exact Logic.I; frame_call | intros ?].

Ltac same_size_end :=
  apply keeps_hoare with (E := any_exn);
  repeat keeps_step; try exact Logic.I; frame_call.

Lemma create_recording_devices_sized (N : network) (z : Z) :
  hoare (sized z) (create_recording_devices N)
    (fun _ =>
       sized (z
              + (if elem "spike_recorder" (rec_dev (sim N))
                 then Z.of_nat (num_pops (plan N)) else 0)
              + (if elem "voltmeter" (rec_dev (sim N))
                 then Z.of_nat (num_pops (plan N)) else 0))%Z)
    anyhow.
Proof.
  unfold create_recording_devices. same_size.
  eapply hoare_bind with
    (Mid := fun _ =>
       sized (z + (if elem "spike_recorder" (rec_dev (sim N))
                   then Z.of_nat (num_pops (plan N)) else 0))%Z).
  { apply hoare_when; intros Hc; rewrite Hc.
    - same_size.
      eapply hoare_bind;
        [destruct (nest_version N); apply nest_Create_sized|].
      intros c. same_size_end.
    - intros ? Hz. unfold sized in *. lia. }
  intros u. apply hoare_when; intros Hc; rewrite Hc.
  - same_size. cbv zeta.
    eapply hoare_bind; [apply nest_Create_sized|].
    intros c. same_size_end.
  - intros ? Hz. unfold sized in *. lia.
Qed.

Lemma create_poisson_bg_input_sized (N : network) (z : Z) :
  hoare (sized z) (create_poisson_bg_input N)
    (fun _ => sized (z + Z.of_nat (num_pops (plan N)))%Z) anyhow.
Proof.
  unfold create_poisson_bg_input. same_size.
  eapply hoare_bind; [apply nest_Create_sized|].
  intros c. same_size. cbv zeta. same_size_end.
Qed.

Lemma create_thalamic_stim_input_sized (N : network) (z : Z) :
  hoare (sized z) (create_thalamic_stim_input N)
    (fun _ => sized (z + (num_th_neurons (stim N) + 1))%Z) anyhow.
Proof.
  unfold create_thalamic_stim_input. same_size.
  eapply hoare_bind; [apply nest_Create_sized|].
  intros th. same_size.
  eapply hoare_bind; [apply nest_Create_sized|].
  intros g. same_size. cbv zeta.
  eapply hoare_post; [|same_size_end].
  intros ? ? Hz. unfold sized in *. lia.
Qed.

Lemma create_dc_stim_input_sized (N : network) (z : Z) :
  hoare (sized z) (create_dc_stim_input N)
    (fun _ => sized (z + dc_generators N)%Z) anyhow.
Proof.
  unfold create_dc_stim_input, dc_generators. cbv zeta. same_size.
  destruct (nest_version N).
  - same_size.
    eapply hoare_post;
      [|eapply hoare_pre;
        [|apply (hoare_for_count anyhow _ _
                   (fun k =>
                      sized (z + Z.of_nat k * Z.of_nat (num_pops (plan N)))%Z))]].
    + intros ? ? Hz. rewrite length_map in Hz. exact Hz.
    + intros ? Hz. unfold sized in *. lia.
    + intros k amp.
      eapply hoare_bind; [apply nest_Create_sized|].
      intros dc. eapply hoare_post; [|unfold set_dc_stim_input; same_size_end].
      intros ? ? Hz. unfold sized in *. lia.
  - eapply hoare_bind; [apply nest_Create_sized|].
    intros c. unfold set_dc_stim_input. same_size_end.
Qed.

Lemma hoare_run {A} (Pre : state -> Prop) (Post : A -> state -> Prop)
  (m : M A) (s : state) (a : A) :
  hoare Pre m Post anyhow -> Pre s -> outcome m s = Ok a -> Post a (exec m s).
Proof.
  intros H Hs O. specialize (H s Hs). unfold outcome in O. unfold exec.
  destruct (m s) as [[a'|e] s1]; cbn in *; [|discriminate].
  injection O as ->. exact H.
Qed.

(** X13.  A [create] that completes has enlarged the network by exactly
    the populations up to the number of populations, one recorder per
    population for each kind of recorder asked for, one Poisson
    generator per population under Poisson drive, the thalamic neurons
    and their one generator under thalamic input, and the DC generators
    under DC input: one per population under engine revision 3, and
    under revision 2 as many as there are populations for every entry
    of [K_ext]. *)
Theorem create_grows_network (N : network) (s : state) :
  outcome (create N) s = Ok tt ->
  network_size (kernel (exec (create N) s))
  = (network_size (kernel s) + nodes_created N)%Z.
Proof.
  intros O.
  apply (hoare_run (sized (network_size (kernel s)))
           (fun _ => sized (network_size (kernel s) + nodes_created N)%Z)
           (create N) s tt); [|reflexivity|exact O].
  set (z := network_size (kernel s)). clearbody z. clear O s.
  unfold create, nodes_created.
  set (P := Z.of_nat (num_pops (plan N))).
  set (t := total (firstn (num_pops (plan N)) (num_neurons (plan N)))).
  eapply hoare_bind with (Mid := fun _ => sized (z + t)%Z).
  { intros s Hs.
    pose proof (create_neuronal_populations_populates N z (files s) s
                  (conj Hs eq_refl)) as H.
    destruct (create_neuronal_populations N s) as [[[]|e] s1];
      [|exact Logic.I].
    destruct H as [_ [_ [Sz _]]]. exact Sz. }
  intros u0.
  eapply hoare_bind with
    (Mid := fun _ =>
       sized (z + t
              + (if elem "spike_recorder" (rec_dev (sim N)) then P else 0)
              + (if elem "voltmeter" (rec_dev (sim N)) then P else 0))%Z).
  { apply hoare_when; intros Hc.
    - apply create_recording_devices_sized.
    - assert (L : rec_dev (sim N) = []).
      { destruct (rec_dev (sim N)); [reflexivity | discriminate Hc]. }
      rewrite L. cbn. intros ? Hz. unfold sized in *. lia. }
  intros u1.
  eapply hoare_bind with
    (Mid := fun _ =>
       sized (z + t
              + (if elem "spike_recorder" (rec_dev (sim N)) then P else 0)
              + (if elem "voltmeter" (rec_dev (sim N)) then P else 0)
              + (if poisson_input (net N) then P else 0))%Z).
  { apply hoare_when; intros Hc; rewrite Hc.
    - apply create_poisson_bg_input_sized.
    - intros ? Hz. unfold sized in *. lia. }
  intros u2.
  eapply hoare_bind with
    (Mid := fun _ =>
       sized (z + t
              + (if elem "spike_recorder" (rec_dev (sim N)) then P else 0)
              + (if elem "voltmeter" (rec_dev (sim N)) then P else 0)
              + (if poisson_input (net N) then P else 0)
              + (if thalamic_input (stim N)
                 then num_th_neurons (stim N) + 1 else 0))%Z).
  { apply hoare_when; intros Hc; rewrite Hc.
    - apply create_thalamic_stim_input_sized.
    - intros ? Hz. unfold sized in *. lia. }
  intros u3.
  eapply hoare_post;
    [|apply hoare_when with
        (Post := fun _ =>
           sized (z + t
                  + (if elem "spike_recorder" (rec_dev (sim N)) then P else 0)
                  + (if elem "voltmeter" (rec_dev (sim N)) then P else 0)
                  + (if poisson_input (net N) then P else 0)
                  + (if thalamic_input (stim N)
                     then num_th_neurons (stim N) + 1 else 0)
                  + (if dc_input (stim N) then dc_generators N else 0))%Z)].
  - intros ? ? Hz. unfold sized in *. lia.
  - intros Hc. rewrite Hc. apply create_dc_stim_input_sized.
  - intros Hc. rewrite Hc. intros ? Hz. unfold sized in *. lia.
Qed.

Lemma create_grows_network_witness :
  let N := demo_object V2 (demo_net 1 1 true "optimized")
             (demo_stim true true) in
  nodes_created N = 143%Z
  /\ network_size (kernel (exec (create N) demo_start)) = 143%Z.
Proof.
  intros N. split; [reflexivity|].
  rewrite (create_grows_network N demo_start eq_refl). reflexivity.
Defined.

(** ** The plan at full scale *)

Lemma round_integer (z : Z) : Np.round (inject_Z z) = z.
Proof.
  unfold Np.round. rewrite Qfloor_Z.
  destruct (Qcompare_spec (inject_Z z - inject_Z z) (1 # 2)) as [E | E | E].
  - exfalso. lra.
  - reflexivity.
  - exfalso. lra.
Qed.

Lemma round_scaled_by_one (a : list Z) (k : Q) :
  k == 1 -> Np.vec_round (Np.vec_scale (Np.as_float a) k) = a.
Proof.
  intros K. unfold Np.vec_round, Np.vec_scale, Np.as_float.
  rewrite !map_map. rewrite <- (map_id a) at 2. apply map_ext.
  intros z. rewrite <- (round_integer z) at 2.
  apply round_compat. rewrite K. ring.
Qed.

Lemma neq1_one (k : Q) : k == 1 -> neq1 k = false.
Proof.
  intros K. unfold neq1. apply Qeq_bool_iff in K. rewrite K. reflexivity.
Qed.

(** X14.  With both scaling factors equal to 1 the derived plan is the
    full-scale network: the population sizes and the external indegrees
    are the configured ones, the synapse counts are the rounded expected
    counts, the weights are the configured potentials times the
    conversion factor, and the indegree correction is not consulted, so
    that any other correction gives the same plan. *)
Theorem full_scale_plan (h : helpers) (nd : net_dict) (st : stim_dict)
  (p : derived) :
  N_scaling nd == 1 -> K_scaling nd == 1 ->
  derive_parameters h nd st = Ok p ->
  let factor :=
    postsynaptic_potential_to_current h
      (C_m (neuron_params_of nd)) (tau_m (neuron_params_of nd))
      (tau_syn (neuron_params_of nd)) in
  num_neurons p = full_num_neurons nd
  /\ ext_indegrees p = K_ext nd
  /\ num_synapses p
     = Np.mat_round
         (num_synapses_from_conn_probs h (conn_probs nd)
            (full_num_neurons nd) (full_num_neurons nd))
  /\ weight_matrix_mean p = Np.mat_scale (PSP_matrix_mean nd) factor
  /\ weight_ext p = PSP_exc_mean nd * factor
  /\ forall adj, derive_parameters (with_adjust h adj) nd st = Ok p.
Proof.
  intros HN HK D factor. subst factor.
  pose proof (neq1_one _ HK) as K1.
  assert (S : Np.mat_round
                (Np.mat_scale
                   (Np.mat_scale
                      (num_synapses_from_conn_probs h (conn_probs nd)
                         (full_num_neurons nd) (full_num_neurons nd))
                      (N_scaling nd)) (K_scaling nd))
              = Np.mat_round
                  (num_synapses_from_conn_probs h (conn_probs nd)
                     (full_num_neurons nd) (full_num_neurons nd))).
  { rewrite mat_round_scale_scale. unfold Np.mat_round, Np.vec_round.
    apply map_ext. intros row. apply map_ext. intros e.
    apply round_compat. rewrite HN, HK. ring. }
  unfold derive_parameters in *. cbn [with_adjust
    num_synapses_from_conn_probs postsynaptic_potential_to_current
    dc_input_compensating_poisson adjust_weights_and_input_to_synapse_scaling
    np_sqrt].
  rewrite K1 in *. cbv zeta beta iota in *.
  rewrite (round_scaled_by_one _ _ HN), (round_scaled_by_one _ _ HK), S in D.
  rewrite (round_scaled_by_one _ _ HN), (round_scaled_by_one _ _ HK), S.
  destruct (thalamic_input st).
  - destruct (index _ 0) as [row|e]; [|discriminate D].
    injection D as <-. cbn. repeat (split; [reflexivity|]).
    intros adj. reflexivity.
  - injection D as <-. cbn. repeat (split; [reflexivity|]).
    intros adj. reflexivity.
Qed.

Lemma full_scale_plan_witness :
  exists p,
    derive_parameters demo_helpers (demo_net (2 # 2) (3 # 3) true "optimized")
      (demo_stim true false) = Ok p
    /\ num_neurons p = [100; 25]%Z
    /\ ext_indegrees p = [1600; 1500]%Z.
Proof.
  assert (R : { p | derive_parameters demo_helpers
                      (demo_net (2 # 2) (3 # 3) true "optimized")
                      (demo_stim true false) = Ok p }).
  { eexists. vm_compute. reflexivity. }
  destruct R as [p D]. exists p. split; [exact D|].
  destruct (full_scale_plan demo_helpers
              (demo_net (2 # 2) (3 # 3) true "optimized")
              (demo_stim true false) p eq_refl eq_refl D) as [A [B _]].
  split; [exact A | exact B].
Defined.

(** ** The DC generators *)

Lemma hoare_total {A} (Pre : state -> Prop) (Post : A -> state -> Prop)
  (m : M A) (s : state) :
  hoare Pre m Post never -> Pre s ->
  exists a, outcome m s = Ok a /\ Post a (exec m s).
Proof.
  intros H Hs. specialize (H s Hs). unfold outcome, exec.
  destruct (m s) as [[a|e] s1]; cbn; [eauto | destruct H].
Qed.

(** [__create_dc_stim_input] never raises, and leaves its handles in
    [self.dc_stim_input]. *)
Lemma create_dc_stim_input_made (N : network) (z : Z)
  (ps : option (list node_collection)) :
  hoare (fun s => sized z s /\ pops (self s) = ps)
    (create_dc_stim_input N)
    (fun _ s => pops (self s) = ps
                /\ dc_stim_input (self s) = Some (dc_made N z))
    never.
Proof.
  unfold create_dc_stim_input, dc_made. cbv zeta.
  eapply hoare_bind with (Mid := fun _ s => sized z s /\ pops (self s) = ps).
  { intros s Hs. unfold rank0, when. destruct (rank N =? 0)%Z; exact Hs. }
  intros u. destruct (nest_version N) eqn:V.
  - eapply hoare_bind with
      (Mid := fun _ s =>
         sized (z + Z.of_nat 0 * Z.of_nat (num_pops (plan N)))%Z s
         /\ pops (self s) = ps
         /\ dc_stim_input (self s)
            = Some (DcList (map (dc_source N z) (seq 0 0)))).
    { intros s [Sz Pp]. unfold sized in *. cbn. repeat split; [lia | exact Pp]. }
    intros u1.
    eapply hoare_post;
      [|apply (hoare_for_count never _ _
                 (fun k s =>
                    sized (z + Z.of_nat k * Z.of_nat (num_pops (plan N)))%Z s
                    /\ pops (self s) = ps
                    /\ dc_stim_input (self s)
                       = Some (DcList (map (dc_source N z) (seq 0 k)))))].
    + intros a s [_ [Pp Dd]]. rewrite length_map in Dd. auto.
    + intros k amp s [Sz [Pp Dd]].
      unfold bind, nest_Create, attr, set_dc_stim_input, set_self,
        with_kernel, kernel_Create.
      cbn [kernel self dc_stim_input fst snd]. rewrite Dd. cbv beta iota.
      unfold sized in *. cbn [kernel self network_size pops dc_stim_input].
      split; [lia|]. split; [exact Pp|].
      rewrite seq_S, map_app. cbn [map Nat.add].
      unfold dc_source at 3. rewrite V, Sz. reflexivity.
  - intros s [Sz Pp]. unfold sized in *. cbn. rewrite Sz. auto.
Qed.

Lemma index_map_seq {A} (f : nat -> A) (n i : nat) :
  (i < n)%nat -> index (map f (seq 0 n)) i = Ok (f i).
Proof.
  intros H. unfold index.
  rewrite nth_error_map, nth_error_seq.
  destruct (Nat.ltb_spec i n); [reflexivity | lia].
Qed.

(** X15.  [__create_dc_stim_input] never raises, and once it has run on
    an object holding no more populations than it leaves handles,
    [__connect_dc_stim_input] completes and makes one connection per
    population, in order, from the handle of the same rank.  Under
    engine revision 3 that handle is a single generator; under revision
    2 it is a collection of as many generators as there are populations,
    made for one entry of [K_ext]: the number of handles is then the
    length of [K_ext], not the number of populations. *)
Theorem dc_generators_connected (N : network) (s : state)
  (ps : list node_collection) :
  pops (self s) = Some ps ->
  (List.length ps <= dc_slots N)%nat ->
  let s1 := exec (create_dc_stim_input N) s in
  let evs := dc_events N (network_size (kernel s)) ps in
  outcome (create_dc_stim_input N) s = Ok tt
  /\ dc_stim_input (self s1) = Some (dc_made N (network_size (kernel s)))
  /\ outcome (connect_dc_stim_input N) s1 = Ok tt
  /\ kernel (exec (connect_dc_stim_input N) s1) = kernel (emit s1 evs)
  /\ List.length evs = List.length ps.
Proof.
  intros Hp Hn s1 evs. set (z := network_size (kernel s)) in *.
  destruct (hoare_total _ _ _ s (create_dc_stim_input_made N z (Some ps))
              (conj eq_refl Hp)) as [[] [O [Pp Dd]]].
  fold s1 in Pp, Dd.
  split; [exact O|]. split; [exact Dd|].
  assert (R : exists o,
             connect_dc_stim_input N s1
             = (Ok tt, emit {| kernel := kernel s1; self := self s1;
                               stdout := o; files := files s1 |} evs)).
  { unfold connect_dc_stim_input.
    destruct (rank0_print_bind N "Connecting DC generators."
                (fun _ =>
                   ps0 <- attr "pops" pops ;;
                   for_each (enumerate ps0) (fun tgt =>
                     d <- attr "dc_stim_input" dc_stim_input ;;
                     g <- lift (match d with
                                | DcCollection c => nc_index c (fst tgt)
                                | DcList l => index l (fst tgt)
                                end) ;;
                     nest_Connect g (snd tgt) None None)) s1) as [o E].
    exists o. rewrite E. cbv beta.
    unfold bind at 1. unfold attr at 1. cbn [self]. rewrite Pp.
    rewrite (for_each_emits (self s1) (resolution (kernel s1)) (enumerate ps) _
               (fun tgt =>
                  [EvConnect {| source := dc_source N z (fst tgt);
                                target := snd tgt;
                                conn_spec := None; syn := None |}])).
    - rewrite flat_map_single. reflexivity.
    - intros [i tgt] s2 Hi Ha Hr. apply enumerate_In in Hi.
      unfold bind, attr, lift. rewrite Ha, Dd. cbn [fst snd].
      unfold dc_made, dc_slots in *. unfold dc_source at 2.
      destruct (nest_version N) eqn:V.
      + rewrite index_map_seq by lia. unfold dc_source. rewrite V.
        reflexivity.
      + rewrite nc_index_in_range by (cbn [nc_n]; lia). cbn [nc_first].
        reflexivity.
    - reflexivity.
    - reflexivity. }
  destruct R as [o R]. unfold outcome, exec. rewrite R. cbn [fst snd].
  split; [reflexivity|]. split; [reflexivity|].
  unfold evs, dc_events. rewrite length_map. apply enumerate_length.
Qed.

Lemma dc_generators_connected_witness :
  let N := demo_object V2 (demo_net 1 1 true "optimized")
             (demo_stim false true) in
  let s := exec (create_neuronal_populations N) demo_start in
  outcome (connect_dc_stim_input N) (exec (create_dc_stim_input N) s) = Ok tt
  /\ dc_events N (network_size (kernel s))
       [{| nc_first := 1; nc_n := 100 |}; {| nc_first := 101; nc_n := 25 |}]
     = [EvConnect {| source := {| nc_first := 126; nc_n := 2 |};
                     target := {| nc_first := 1; nc_n := 100 |};
                     conn_spec := None; syn := None |};
        EvConnect {| source := {| nc_first := 128; nc_n := 2 |};
                     target := {| nc_first := 101; nc_n := 25 |};
                     conn_spec := None; syn := None |}].
Proof.
  intros N s.
  destruct (dc_generators_connected N s
              [{| nc_first := 1; nc_n := 100 |};
               {| nc_first := 101; nc_n := 25 |}] eq_refl)
    as [_ [_ [O _]]].
  - cbn. lia.
  - split; [exact O | reflexivity].
Defined.
